(** * DeePCtools: formulation of the DeePC / Robust DeePC problem

    A shallow embedding of [deepctools/DeePCtools.py].  Python values are
    modelled as the code uses them: integers as [Z], numpy arrays as
    row-major lists of rows with an explicit column count (so that an array
    with no rows still has a shape), floating-point entries as exact
    rationals [Qc], dictionaries as association lists in insertion order, and
    raised exceptions as the [Raise] side of a small error monad. *)

From Stdlib Require Import ZArith String List Bool Lia QArith Qcanon.
Import ListNotations.
Open Scope string_scope.
Open Scope list_scope.
Open Scope Z_scope.

(** ** Exceptions and the error monad *)

Inductive exn : Type :=
| ValueError (msg : string)
| AttributeError (msg : string)
| KeyError (key : string)
| TypeError (msg : string)
| IndexError (msg : string)
| NameError (name : string)
| RuntimeError (msg : string).

Inductive result (A : Type) : Type :=
| Ok (a : A)
| Raise (e : exn).
Arguments Ok {A} a.
Arguments Raise {A} e.

Definition bind {A B : Type} (m : result A) (k : A -> result B) : result B :=
  match m with
  | Ok a => k a
  | Raise e => Raise e
  end.

Notation "x <- m ;; k" := (bind m (fun x => k))
  (at level 61, m at next level, right associativity).
Notation "' p <- m ;; k" := (bind m (fun x => let p := x in k))
  (at level 61, p pattern, m at next level, right associativity).

Definition is_ok {A : Type} (m : result A) : bool :=
  match m with Ok _ => true | Raise _ => false end.

Fixpoint mapM {A B : Type} (f : A -> result B) (l : list A) : result (list B) :=
  match l with
  | [] => Ok []
  | a :: l' => b <- f a ;; bs <- mapM f l' ;; Ok (b :: bs)
  end.

(** ** numpy arrays *)

(** A two-dimensional array: [ncols] is the second component of [.shape],
    the first is the number of rows. *)
Record ndarray : Type := mk_nd { ncols : nat; rows : list (list Qc) }.

Definition nrows (a : ndarray) : nat := length (rows a).

Definition shape (a : ndarray) : Z * Z := (Z.of_nat (nrows a), Z.of_nat (ncols a)).

(** [range(n)] *)
Definition range (n : Z) : list Z := map Z.of_nat (seq 0 (Z.to_nat n)).

(** Index normalisation of numpy and of Python sequences: a negative index
    counts from the end, anything outside [-n, n) raises [IndexError]. *)
Definition norm_index (n : nat) (k : Z) : result nat :=
  if (0 <=? k) && (k <? Z.of_nat n) then Ok (Z.to_nat k)
  else if (- Z.of_nat n <=? k) && (k <? 0) then Ok (Z.to_nat (Z.of_nat n + k))
  else Raise (IndexError "index out of bounds").

(** [a[idx, :]] with a list of row indices. *)
Definition take_rows (a : ndarray) (idx : list Z) : result ndarray :=
  rs <- mapM (fun k => i <- norm_index (nrows a) k ;; Ok (nth i (rows a) [])) idx ;;
  Ok (mk_nd (ncols a) rs).

(** Bounds of a Python slice [start:stop] on a sequence of length [n]. *)
Definition clamp (n : nat) (k : Z) : nat :=
  if k <? 0 then Z.to_nat (Z.max 0 (Z.of_nat n + k))
  else Z.to_nat (Z.min k (Z.of_nat n)).

(** [l[k:]] and [l[:k]] *)
Definition slice_from {A : Type} (k : Z) (l : list A) : list A :=
  skipn (clamp (length l) k) l.
Definition slice_to {A : Type} (k : Z) (l : list A) : list A :=
  firstn (clamp (length l) k) l.

(** [a[k:, :]] and [a[:k, :]] *)
Definition rows_from (k : Z) (a : ndarray) : ndarray :=
  mk_nd (ncols a) (slice_from k (rows a)).
Definition rows_to (k : Z) (a : ndarray) : ndarray :=
  mk_nd (ncols a) (slice_to k (rows a)).

Fixpoint repeat_list {A : Type} (n : nat) (l : list A) : list A :=
  match n with
  | O => []
  | S n' => l ++ repeat_list n' l
  end.

(** [np.tile(l, n)] on a one-dimensional sequence: numpy's [repeat] refuses
    a negative count, and is only reached when the sequence is not empty. *)
Definition tile1 (l : list Qc) (n : Z) : result (list Qc) :=
  if (n <? 0) && negb (Nat.eqb (length l) 0)
  then Raise (ValueError "repeats may not contain negative values.")
  else Ok (repeat_list (Z.to_nat n) l).

(** [np.tile(a, (n, 1))] on a two-dimensional array: the rows are repeated
    [n] times; a negative [n] is refused by [repeat] or by the final
    [reshape]. *)
Definition tile_rows (a : ndarray) (n : Z) : result ndarray :=
  if n <? 0 then Raise (ValueError "negative dimensions are not allowed")
  else Ok (mk_nd (ncols a) (repeat_list (Z.to_nat n) (rows a))).

(** [a.reshape(-1, 1)]: the entries in row-major order, one per row. *)
Definition reshape_col (a : ndarray) : ndarray :=
  mk_nd 1 (map (fun x => [x]) (concat (rows a))).

(** [a.any()]: some entry is nonzero. *)
Definition nd_any (a : ndarray) : bool :=
  existsb (fun x => negb (Qc_eq_bool x 0%Qc)) (concat (rows a)).

(** [np.concatenate(l)] along axis 0. *)
Definition concatenate (l : list ndarray) : result ndarray :=
  match l with
  | [] => Raise (ValueError "need at least one array to concatenate")
  | a :: l' =>
      if forallb (fun b => Nat.eqb (ncols b) (ncols a)) l'
      then Ok (mk_nd (ncols a) (concat (map rows l)))
      else Raise (ValueError "all the input array dimensions except for the concatenation axis must match exactly")
  end.

(** [np.concatenate(l)] on one-dimensional arrays. *)
Definition concatenate1 (l : list (list Qc)) : result (list Qc) :=
  match l with
  | [] => Raise (ValueError "need at least one array to concatenate")
  | _ => Ok (concat l)
  end.

(** A value that is either a Python list or a one-dimensional array: only
    the latter has [.tolist()]. *)
Inductive seqval : Type :=
| PyList (xs : list Qc)
| Array1 (xs : list Qc).

Definition tolist (v : seqval) : result (list Qc) :=
  match v with
  | Array1 xs => Ok xs
  | PyList _ => Raise (AttributeError "'list' object has no attribute 'tolist'")
  end.

(** The value bound to [Hc]: the empty Python list or a stacked array. *)
Inductive hc_value : Type :=
| HcPyList
| HcArray (a : ndarray).

(** Python dictionaries with string keys, in insertion order. *)
Definition dict (V : Type) : Type := list (string * V).

Fixpoint lookup {V : Type} (k : string) (d : dict V) : option V :=
  match d with
  | [] => None
  | (k', v) :: d' => if String.eqb k k' then Some v else lookup k d'
  end.

(** [d[k]] where [d] may be [None]. *)
Definition getitem {V : Type} (d : option (dict V)) (k : string) : result V :=
  match d with
  | None => Raise (TypeError "'NoneType' object is not subscriptable")
  | Some d' =>
      match lookup k d' with
      | Some v => Ok v
      | None => Raise (KeyError k)
      end
  end.

(** ** Matrix arithmetic (numpy's [@], [+], [-], [.T] and casadi's [mtimes]) *)

Fixpoint dot (r c : list Qc) : Qc :=
  match r, c with
  | x :: r', y :: c' => (x * y + dot r' c')%Qc
  | _, _ => 0%Qc
  end.

(** Column [j] of a list of rows. *)
Definition column (rs : list (list Qc)) (j : nat) : list Qc :=
  map (fun r => nth j r 0%Qc) rs.

(** [a.T] *)
Definition transpose (a : ndarray) : ndarray :=
  mk_nd (nrows a) (map (column (rows a)) (seq 0 (ncols a))).

Definition shape_error : exn :=
  ValueError "matmul: Input operand has a mismatch in its core dimension".

(** [a @ b], [cs.mtimes(a, b)]: the inner dimensions must agree. *)
Definition matmul (a b : ndarray) : result ndarray :=
  if Nat.eqb (ncols a) (nrows b)
  then Ok (mk_nd (ncols b)
             (map (fun r => map (fun j => dot r (column (rows b) j)) (seq 0 (ncols b)))
                  (rows a)))
  else Raise shape_error.

Fixpoint zip_with (f : Qc -> Qc -> Qc) (r c : list Qc) : list Qc :=
  match r, c with
  | x :: r', y :: c' => f x y :: zip_with f r' c'
  | _, _ => []
  end.

Fixpoint zip_rows (f : Qc -> Qc -> Qc) (a b : list (list Qc)) : list (list Qc) :=
  match a, b with
  | r :: a', s :: b' => zip_with f r s :: zip_rows f a' b'
  | _, _ => []
  end.

Definition broadcast_error : exn :=
  ValueError "operands could not be broadcast together".

(** Entrywise operations on arrays of one shape.  Broadcasting between
    different shapes is not modelled: the operands met in this program have
    equal shapes once [_checkvar] has passed. *)
Definition pointwise (f : Qc -> Qc -> Qc) (a b : ndarray) : result ndarray :=
  if Nat.eqb (nrows a) (nrows b) && Nat.eqb (ncols a) (ncols b)
  then Ok (mk_nd (ncols a) (zip_rows f (rows a) (rows b)))
  else Raise broadcast_error.

Definition nd_add : ndarray -> ndarray -> result ndarray := pointwise Qcplus.
Definition nd_sub : ndarray -> ndarray -> result ndarray := pointwise Qcminus.

(** Unary minus and multiplication by a scalar. *)
Definition nd_map (f : Qc -> Qc) (a : ndarray) : ndarray :=
  mk_nd (ncols a) (map (map f) (rows a)).
Definition nd_neg : ndarray -> ndarray := nd_map Qcopp.
Definition nd_scale (k : Qc) : ndarray -> ndarray := nd_map (Qcmult k).

(** [cs.vertcat(a, b)] and [np.concatenate((a, b))] *)
Definition vertcat (a b : ndarray) : result ndarray := concatenate [a; b].

Definition half : Qc := Q2Qc (1 # 2).

(** An array of zeros of a given shape. *)
Definition zeros (m n : nat) : ndarray := mk_nd n (repeat (repeat 0%Qc n) m).

(** ** The controller object *)

(** The problem handed to [cs.nlpsol]: the objective ['f'] and the stacked
    constraint vector ['g'] are symbolic expressions in the decision
    variable [g] and the parameters [uini], [yini]; they are represented by
    their values at every [g], [uini], [yini]. *)
Record nlp_prob : Type := mk_nlp {
  nlp_f : ndarray -> ndarray -> ndarray -> result ndarray;
  nlp_g : ndarray -> ndarray -> ndarray -> result ndarray;
  nlp_opts : dict Qc
}.

(** The attributes of a [deepctools] instance. *)
Record deepctools : Type := mk_self {
  u_dim : Z;
  y_dim : Z;
  T : Z;
  Tini : Z;
  Np : Z;
  g_dim : Z;
  Q : ndarray;
  R : ndarray;
  lambda_g : option ndarray;
  lambda_y : option ndarray;
  us : option ndarray;
  ys : ndarray;
  yref : ndarray;
  uref : option ndarray;
  Hud : ndarray;
  Hyd : ndarray;
  Up : ndarray;
  Uf : ndarray;
  Yp : ndarray;
  Yf : ndarray;
  Hc : hc_value;
  lbc_ineq : list Qc;
  ubc_ineq : list Qc;
  solver : option nlp_prob;
  lbc : option (list Qc);
  ubc : option (list Qc)
}.

(** Modelled from the spec: [util.hankel], whose module is not part of the
    sources at hand.  For a series of shape (T, dim) and a window length L
    the result has shape (dim*L, T-L+1); column s is the vertical
    concatenation of rows s, s+1, ..., s+L-1 of the series; L > T fails. *)
Definition hankel (x : ndarray) (L : Z) : result ndarray :=
  if Z.of_nat (nrows x) <? L
  then Raise (ValueError "hankel: L must not exceed the data length")
  else
    let width := (nrows x - Z.to_nat L + 1)%nat in
    Ok (mk_nd width
          (flat_map (fun j =>
                       map (fun d =>
                              map (fun s => nth d (nth (s + j) (rows x) []) 0%Qc)
                                  (seq 0 width))
                           (seq 0 (ncols x)))
                    (seq 0 (Z.to_nat L)))).

(** [_checkshape]: [None] passes, an array must have the expected shape. *)
Definition _checkshape (x : option ndarray) (x_shape : Z * Z) : result unit :=
  match x with
  | None => Ok tt
  | Some a =>
      if (fst (shape a) =? fst x_shape) && (snd (shape a) =? snd x_shape)
      then Ok tt
      else Raise (ValueError "Inconsistent detected")
  end.

(** [_checkvar].  The two persistent-excitation tests only emit warnings
    and leave no trace in the model. *)
Definition _checkvar (self : deepctools) : result unit :=
  _ <- _checkshape (Some (Up self)) (u_dim self * Tini self, g_dim self) ;;
  _ <- _checkshape (Some (Yp self)) (y_dim self * Tini self, g_dim self) ;;
  _ <- _checkshape (Some (Uf self)) (u_dim self * Np self, g_dim self) ;;
  _ <- _checkshape (Some (Yf self)) (y_dim self * Np self, g_dim self) ;;
  _ <- _checkshape (uref self) (u_dim self * Np self, 1) ;;
  _ <- _checkshape (Some (yref self)) (y_dim self * Np self, 1) ;;
  _ <- _checkshape (Some (Q self)) (y_dim self * Np self, y_dim self * Np self) ;;
  _ <- _checkshape (Some (R self)) (u_dim self * Np self, u_dim self * Np self) ;;
  _ <- _checkshape (lambda_g self) (g_dim self, g_dim self) ;;
  _checkshape (lambda_y self) (y_dim self * Tini self, y_dim self * Tini self).

(** The body of the loop of [_init_ineq_cons] for one item of
    [ineqconidx]: the selected rows and the tiled bounds. *)
Definition ineq_entry (self : deepctools) (ineqconbd : option (dict (list Qc)))
    (varname : string) (idx : list Z) : result (ndarray * list Qc * list Qc) :=
  '(H_all, dim, lb, ub) <-
     (if String.eqb varname "u" then
        lb <- getitem ineqconbd "lbu" ;;
        ub <- getitem ineqconbd "ubu" ;;
        Ok (Uf self, u_dim self, lb, ub)
      else if String.eqb varname "y" then
        lb <- getitem ineqconbd "lby" ;;
        ub <- getitem ineqconbd "uby" ;;
        Ok (Yf self, y_dim self, lb, ub)
      else Raise (ValueError "variable not exist, should be 'u' or/and 'y'!")) ;;
  let idx_H := flat_map (fun i => map (fun v => v + i * dim) idx) (range (Np self)) in
  Hsel <- take_rows H_all idx_H ;;
  lbt <- tile1 lb (Np self) ;;
  ubt <- tile1 ub (Np self) ;;
  Ok (Hsel, lbt, ubt).

(** The loop over [ineqconidx.items()], which appends to [Hc_list],
    [lbc_list] and [ubc_list]. *)
Fixpoint ineq_loop (self : deepctools) (ineqconbd : option (dict (list Qc)))
    (items : dict (list Z)) : result (list ndarray * list (list Qc) * list (list Qc)) :=
  match items with
  | [] => Ok ([], [], [])
  | (varname, idx) :: items' =>
      '(Hsel, lbt, ubt) <- ineq_entry self ineqconbd varname idx ;;
      '(Hc_list, lbc_list, ubc_list) <- ineq_loop self ineqconbd items' ;;
      Ok (Hsel :: Hc_list, lbt :: lbc_list, ubt :: ubc_list)
  end.

(** [_init_ineq_cons] *)
Definition _init_ineq_cons (self : deepctools) (ineqconidx : option (dict (list Z)))
    (ineqconbd : option (dict (list Qc))) : result (hc_value * list Qc * list Qc) :=
  '(Hc, lbc, ubc) <-
     match ineqconidx with
     | None => Ok (HcPyList, PyList [], PyList [])
     | Some items =>
         '(Hc_list, lbc_list, ubc_list) <- ineq_loop self ineqconbd items ;;
         Hc <- concatenate Hc_list ;;
         lbc <- concatenate1 lbc_list ;;
         ubc <- concatenate1 ubc_list ;;
         Ok (HcArray Hc, Array1 lbc, Array1 ubc)
     end ;;
  lbc' <- tolist lbc ;;
  ubc' <- tolist ubc ;;
  Ok (Hc, lbc', ubc').

(** [us.any()] where [us] may be [None]. *)
Definition any_of (us : option ndarray) : result bool :=
  match us with
  | None => Raise (AttributeError "'NoneType' object has no attribute 'any'")
  | Some a => Ok (nd_any a)
  end.

(** [__init__].  Attributes that are assigned later in the body hold a
    placeholder until then ([Hc], [lbc_ineq], [ubc_ineq]); [_init_variables]
    only declares the symbolic [uini], [yini] and [g], which are the
    arguments of the functions of [nlp_prob]. *)
Definition __init__ (u_dim y_dim T Tini Np : Z) (ys ud yd Q R : ndarray)
    (us lambda_g lambda_y : option ndarray)
    (ineqconidx : option (dict (list Z))) (ineqconbd : option (dict (list Qc)))
    : result deepctools :=
  let g_dim := T - Tini - Np + 1 in
  yref_t <- tile_rows ys Np ;;
  let yref := reshape_col yref_t in
  nonzero <- any_of us ;;
  uref <- (if nonzero : bool
           then match us with
                | Some a => t <- tile_rows a Np ;; Ok (Some (reshape_col t))
                | None => Ok None
                end
           else Ok None) ;;
  Hud <- hankel ud (Tini + Np) ;;
  Hyd <- hankel yd (Tini + Np) ;;
  let Up := rows_to (u_dim * Tini) Hud in
  let Uf := rows_from (u_dim * Tini) Hud in
  let Yp := rows_to (y_dim * Tini) Hyd in
  let Yf := rows_from (y_dim * Tini) Hyd in
  let self := mk_self u_dim y_dim T Tini Np g_dim Q R lambda_g lambda_y us ys
                yref uref Hud Hyd Up Uf Yp Yf HcPyList [] [] None None None in
  _ <- _checkvar self ;;
  '(Hc, lbc_ineq, ubc_ineq) <- _init_ineq_cons self ineqconidx ineqconbd ;;
  Ok (mk_self u_dim y_dim T Tini Np g_dim Q R lambda_g lambda_y us ys
        yref uref Hud Hyd Up Uf Yp Yf Hc lbc_ineq ubc_ineq None None None).

(** ** Formulation *)

Definition msg_uloss : string := "uloss should be one of: 'u', 'uus', 'du'!".
Definition msg_dof : string :=
  "NLP do not have enough degrees of freedom | Should: g_dim >= (u_dim + y_dim) * Tini".
Definition msg_dof_robust : string :=
  "NLP do not have enough degrees of freedom | Should: g_dim >= u_dim * Tini".
Definition msg_lambda : string :=
  "Do not give value of 'lambda_g' or 'lambda_y', but required in objective function for Robust DeePC!".
Definition msg_us : string :=
  "Do not give value of 'us', but required in objective function 'u-us'!".

(** [uloss in ["u", "uus", "du"]] *)
Definition uloss_known (uloss : string) : bool :=
  existsb (String.eqb uloss) ["u"; "uus"; "du"].

(** Number of rows of the symbolic parameters and of the decision
    variable declared by [_init_variables]. *)
Definition uini_rows (self : deepctools) : nat := Z.to_nat (u_dim self * Tini self).
Definition yini_rows (self : deepctools) : nat := Z.to_nat (y_dim self * Tini self).
Definition g_rows (self : deepctools) : nat := Z.to_nat (g_dim self).

(** [cs.mtimes(cs.mtimes(x.T, M), x)] *)
Definition quad_form (x M : ndarray) : result ndarray :=
  xM <- matmul (transpose x) M ;;
  matmul xM x.

(** [0.5 * cs.mtimes(cs.mtimes(g.T, H), g) + cs.mtimes(f.T, g)] *)
Definition qp_obj (H f g : ndarray) : result ndarray :=
  q <- quad_form g H ;;
  l <- matmul (transpose f) g ;;
  nd_add (nd_scale half q) l.

(** [A.T @ W @ B] *)
Definition tmm (A W B : ndarray) : result ndarray :=
  AW <- matmul (transpose A) W ;;
  matmul AW B.

(** [- A.T @ W @ b]: the unary minus applies to [A.T]. *)
Definition neg_tmm (A W b : ndarray) : result ndarray :=
  AW <- matmul (nd_neg (transpose A)) W ;;
  matmul AW b.

(** The part of the ['du'] branch that both designs share: [du] and
    [y_loss]. *)
Definition du_terms (self : deepctools) (g uini : ndarray)
    : result (ndarray * ndarray) :=
  u_cur <- matmul (Uf self) g ;;
  Ufg <- matmul (Uf self) g ;;
  u_prev <- vertcat (rows_from (- u_dim self) uini) (rows_to (- u_dim self) Ufg) ;;
  du <- nd_sub u_cur u_prev ;;
  y <- matmul (Yf self) g ;;
  y_loss <- nd_sub y (yref self) ;;
  Ok (du, y_loss).

(** The ['du'] objective of [init_DeePCsolver]. *)
Definition du_obj (self : deepctools) (g uini : ndarray) : result ndarray :=
  '(du, y_loss) <- du_terms self g uini ;;
  qy <- quad_form y_loss (Q self) ;;
  qu <- quad_form du (R self) ;;
  nd_add qy qu.

(** The ['du'] objective of [init_RDeePCsolver]. *)
Definition rdu_obj (self : deepctools) (lambda_g lambda_y g uini yini : ndarray)
    : result ndarray :=
  '(du, y_loss) <- du_terms self g uini ;;
  Ypg <- matmul (Yp self) g ;;
  sigma_y <- nd_sub Ypg yini ;;
  qy <- quad_form y_loss (Q self) ;;
  qu <- quad_form du (R self) ;;
  s1 <- nd_add qy qu ;;
  qg <- quad_form g lambda_g ;;
  s2 <- nd_add s1 qg ;;
  qs <- quad_form sigma_y lambda_y ;;
  nd_add s2 qs.

(** [cs.mtimes(self.Hc, g)] *)
Definition Hc_times (self : deepctools) (g : ndarray) : result ndarray :=
  match Hc self with
  | HcArray a => matmul a g
  | HcPyList => Raise (TypeError "mtimes: a list is not a matrix")
  end.

(** A symbolic expression is built once, at formulation time, and a shape
    error shows then: the expression is tried on operands of the declared
    shapes. *)
Definition build (self : deepctools)
    (e : ndarray -> ndarray -> ndarray -> result ndarray) : result unit :=
  _ <- e (zeros (g_rows self) 1) (zeros (uini_rows self) 1) (zeros (yini_rows self) 1) ;;
  Ok tt.

Definition set_solver (self : deepctools) (p : nlp_prob) (lbc ubc : list Qc)
    : deepctools :=
  mk_self (u_dim self) (y_dim self) (T self) (Tini self) (Np self) (g_dim self)
    (Q self) (R self) (lambda_g self) (lambda_y self) (us self) (ys self)
    (yref self) (uref self) (Hud self) (Hyd self) (Up self) (Uf self)
    (Yp self) (Yf self) (Hc self) (lbc_ineq self) (ubc_ineq self)
    (Some p) (Some lbc) (Some ubc).

(** The objective of [init_DeePCsolver] for each [uloss]. *)
Definition DeePC_objective (self : deepctools) (uloss : string)
    : result (ndarray -> ndarray -> ndarray -> result ndarray) :=
  if String.eqb uloss "u" then
    HQ <- tmm (Yf self) (Q self) (Yf self) ;;
    HR <- tmm (Uf self) (R self) (Uf self) ;;
    H <- nd_add HQ HR ;;
    f <- neg_tmm (Yf self) (Q self) (yref self) ;;
    Ok (fun g uini yini => qp_obj H f g)
  else if String.eqb uloss "uus" then
    match uref self with
    | None => Raise (ValueError msg_us)
    | Some uref =>
        HQ <- tmm (Yf self) (Q self) (Yf self) ;;
        HR <- tmm (Uf self) (R self) (Uf self) ;;
        H <- nd_add HQ HR ;;
        fy <- neg_tmm (Yf self) (Q self) (yref self) ;;
        fu <- tmm (Uf self) (R self) uref ;;
        f <- nd_sub fy fu ;;
        Ok (fun g uini yini => qp_obj H f g)
    end
  else if String.eqb uloss "du" then
    Ok (fun g uini yini => du_obj self g uini)
  else Raise (NameError "obj").

(** The constraint stack of [init_DeePCsolver]: [cs.vertcat] of the list [C]. *)
Definition DeePC_constraints (self : deepctools) (g uini yini : ndarray)
    : result ndarray :=
  Upg <- matmul (Up self) g ;;
  c1 <- nd_sub Upg uini ;;
  Ypg <- matmul (Yp self) g ;;
  c2 <- nd_sub Ypg yini ;;
  c3 <- Hc_times self g ;;
  concatenate [c1; c2; c3].

Section Backend.

(** [cs.nlpsol('solver', 'ipopt', nlp_prob, opts)] is the external
    optimisation backend.  It reads the options and the assembled problem
    and either builds a solver or raises a RuntimeError (an option it does
    not know, a problem it refuses): [nlpsol_new prob opts] is [None] when
    the solver is built and the message of the error otherwise. *)
Variable nlpsol_new : nlp_prob -> dict Qc -> option string.

Definition cs_nlpsol (prob : nlp_prob) : result nlp_prob :=
  match nlpsol_new prob (nlp_opts prob) with
  | None => Ok prob
  | Some msg => Raise (RuntimeError msg)
  end.

(** [init_DeePCsolver] *)
Definition init_DeePCsolver (self : deepctools) (uloss : string) (opts : dict Qc)
    : result deepctools :=
  if negb (uloss_known uloss) then Raise (ValueError msg_uloss)
  else if g_dim self <=? (u_dim self + y_dim self) * Tini self
  then Raise (ValueError msg_dof)
  else
    obj <- DeePC_objective self uloss ;;
    _ <- build self obj ;;
    let lbc := repeat 0%Qc (uini_rows self) ++ repeat 0%Qc (yini_rows self)
               ++ lbc_ineq self in
    let ubc := repeat 0%Qc (uini_rows self) ++ repeat 0%Qc (yini_rows self)
               ++ ubc_ineq self in
    _ <- build self (DeePC_constraints self) ;;
    handle <- cs_nlpsol (mk_nlp obj (DeePC_constraints self) opts) ;;
    Ok (set_solver self handle lbc ubc).

(** The matrix [H] of the quadratic objectives of [init_RDeePCsolver]. *)
Definition RDeePC_H (self : deepctools) (lambda_g lambda_y : ndarray)
    : result ndarray :=
  HQ <- tmm (Yf self) (Q self) (Yf self) ;;
  HR <- tmm (Uf self) (R self) (Uf self) ;;
  H1 <- nd_add HQ HR ;;
  HY <- tmm (Yp self) lambda_y (Yp self) ;;
  H2 <- nd_add H1 HY ;;
  nd_add H2 lambda_g.

(** The objective of [init_RDeePCsolver] for each [uloss]. *)
Definition RDeePC_objective (self : deepctools) (lambda_g lambda_y : ndarray)
    (uloss : string) : result (ndarray -> ndarray -> ndarray -> result ndarray) :=
  if String.eqb uloss "u" then
    H <- RDeePC_H self lambda_g lambda_y ;;
    Ok (fun g uini yini =>
          fp <- neg_tmm (Yp self) lambda_y yini ;;
          fy <- tmm (Yf self) (Q self) (yref self) ;;
          f <- nd_sub fp fy ;;
          qp_obj H f g)
  else if String.eqb uloss "uus" then
    match uref self with
    | None => Raise (ValueError msg_us)
    | Some uref =>
        H <- RDeePC_H self lambda_g lambda_y ;;
        Ok (fun g uini yini =>
              fp <- neg_tmm (Yp self) lambda_y yini ;;
              fy <- tmm (Yf self) (Q self) (yref self) ;;
              f1 <- nd_sub fp fy ;;
              fu <- tmm (Uf self) (R self) uref ;;
              f <- nd_sub f1 fu ;;
              qp_obj H f g)
    end
  else if String.eqb uloss "du" then
    Ok (fun g uini yini => rdu_obj self lambda_g lambda_y g uini yini)
  else Raise (NameError "obj").

(** The constraint stack of [init_RDeePCsolver]. *)
Definition RDeePC_constraints (self : deepctools) (g uini yini : ndarray)
    : result ndarray :=
  Upg <- matmul (Up self) g ;;
  c1 <- nd_sub Upg uini ;;
  c3 <- Hc_times self g ;;
  concatenate [c1; c3].

(** [init_RDeePCsolver] *)
Definition init_RDeePCsolver (self : deepctools) (uloss : string) (opts : dict Qc)
    : result deepctools :=
  if negb (uloss_known uloss) then Raise (ValueError msg_uloss)
  else
    match lambda_g self, lambda_y self with
    | Some lambda_g, Some lambda_y =>
        if g_dim self <=? u_dim self * Tini self
        then Raise (ValueError msg_dof_robust)
        else
          obj <- RDeePC_objective self lambda_g lambda_y uloss ;;
          _ <- build self obj ;;
          let lbc := repeat 0%Qc (uini_rows self) ++ lbc_ineq self in
          let ubc := repeat 0%Qc (uini_rows self) ++ ubc_ineq self in
          _ <- build self (RDeePC_constraints self) ;;
          handle <- cs_nlpsol (mk_nlp obj (RDeePC_constraints self) opts) ;;
          Ok (set_solver self handle lbc ubc)
    | _, _ => Raise (ValueError msg_lambda)
    end.

(** ** One solve step *)

(** The keyword arguments of a call of the solver. *)
Record solver_call : Type := mk_call {
  x0 : ndarray;
  p : ndarray;
  lbg : option (list Qc);
  ubg : option (list Qc)
}.

(** [a.ravel()] *)
Definition ravel (a : ndarray) : list Qc := concat (rows a).

(** [np.matmul(a, v)] with a one-dimensional [v]. *)
Definition matvec (a : ndarray) (v : list Qc) : result (list Qc) :=
  if Nat.eqb (ncols a) (length v)
  then Ok (map (fun r => dot r v) (rows a))
  else Raise shape_error.

Section SolverStep.

(** The numerical collaborators: [np.linalg.pinv], the call of the solver
    built by [cs.nlpsol] (its ['x'] entry as a dense array, or the
    exception it raises), and the two readings of [time.time()] around the
    call. *)
Variable pinv : ndarray -> ndarray.
Variable nlpsol : nlp_prob -> solver_call -> result ndarray.
Variables t_before t_after : Qc.

(** [solver_step] *)
Definition solver_step (self : deepctools) (uini yini : ndarray)
    : result (list Qc * list Qc * Qc) :=
  parameters <- vertcat uini yini ;;
  UpYp <- vertcat (Up self) (Yp self) ;;
  g0_guess <- matmul (pinv UpYp) parameters ;;
  match solver self with
  | None => Raise (TypeError "'NoneType' object is not callable")
  | Some handle =>
      sol <- nlpsol handle (mk_call g0_guess parameters (lbc self) (ubc self)) ;;
      let t_s := (t_after - t_before)%Qc in
      let g_opt := ravel sol in
      u_opt <- matvec (Uf self) g_opt ;;
      Ok (u_opt, g_opt, t_s)
  end.

End SolverStep.

(** ** The formulas of the specification, for comparison *)

(** The specification speaks of matrices and vectors by their entries.
    Its formulas are written here over index functions with explicit
    sums, independently of the array operations of the code. *)
Definition mat : Type := nat -> nat -> Qc.

(** f 0 + f 1 + ... + f (n - 1) *)
Definition sigma (n : nat) (f : nat -> Qc) : Qc :=
  fold_right Qcplus 0%Qc (map f (seq 0 n)).

(** The entries of an array and of a vector given as a list. *)
Definition m_of (a : ndarray) : mat := fun i j => nth j (nth i (rows a) []) 0%Qc.
Definition v_of (l : list Qc) : mat := fun i _ => nth i l 0%Qc.

(** Transpose, product over an inner dimension [n], sum, difference,
    opposite and multiple. *)
Definition m_t (M : mat) : mat := fun i j => M j i.
Definition m_mul (n : nat) (M N : mat) : mat :=
  fun i j => sigma n (fun k => (M i k * N k j)%Qc).
Definition m_add (M N : mat) : mat := fun i j => (M i j + N i j)%Qc.
Definition m_sub (M N : mat) : mat := fun i j => (M i j - N i j)%Qc.
Definition m_opp (M : mat) : mat := fun i j => (- M i j)%Qc.
Definition m_scale (k : Qc) (M : mat) : mat := fun i j => (k * M i j)%Qc.

(** The array of [m] rows and [n] columns with entries [M], the column
    vector with the entries of a list, and the arrays all of whose rows
    have [ncols] entries (every numpy array is one). *)
Definition to_array (m n : nat) (M : mat) : ndarray :=
  mk_nd n (map (fun i => map (fun j => M i j) (seq 0 n)) (seq 0 m)).
Definition colv (l : list Qc) : ndarray := mk_nd 1 (map (fun x => [x]) l).
Definition rect (a : ndarray) : bool :=
  forallb (fun r => Nat.eqb (length r) (ncols a)) (rows a).
Definition rect_opt (o : option ndarray) : bool :=
  match o with Some a => rect a | None => true end.

(** A' W B, for a square W with as many rows as A. *)
Definition spec_tmm (A W : ndarray) (B : mat) : mat :=
  m_mul (nrows A) (m_mul (nrows A) (m_t (m_of A)) (m_of W)) B.

(** x' M x for a column x of [n] entries, and g' H g / 2 + f' g. *)
Definition spec_quad (n : nat) (x M : mat) : mat :=
  m_mul n (m_mul n (m_t x) M) x.
Definition spec_qp (n : nat) (H f g : mat) : mat :=
  m_add (m_scale (Q2Qc (1 # 2)) (spec_quad n g H)) (m_mul n (m_t f) g).

(** H = Yf' Q Yf + Uf' R Uf of the standard design, and
    H = Yf' Q Yf + Uf' R Uf + Yp' lambda_y Yp + lambda_g of the robust
    design. *)
Definition spec_standard_H (self : deepctools) : mat :=
  m_add (spec_tmm (Yf self) (Q self) (m_of (Yf self)))
        (spec_tmm (Uf self) (R self) (m_of (Uf self))).
Definition spec_robust_H (self : deepctools) (lambda_g lambda_y : ndarray) : mat :=
  m_add (m_add (spec_standard_H self)
               (spec_tmm (Yp self) lambda_y (m_of (Yp self))))
        (m_of lambda_g).

(** f = - (Yf' Q yref) for ['u'] and f = - (Yf' Q yref) - Uf' R uref for
    ['uus'] in the standard design; f = - (Yp' lambda_y yini) - Yf' Q yref
    for ['u'] in the robust design. *)
Definition spec_standard_f (self : deepctools) : mat :=
  m_opp (spec_tmm (Yf self) (Q self) (m_of (yref self))).
Definition spec_standard_uus_f (self : deepctools) (uref : ndarray) : mat :=
  m_sub (spec_standard_f self) (spec_tmm (Uf self) (R self) (m_of uref)).
Definition spec_robust_f (self : deepctools) (lambda_y : ndarray) (yini : list Qc)
    : mat :=
  m_sub (m_opp (spec_tmm (Yp self) lambda_y (v_of yini)))
        (spec_tmm (Yf self) (Q self) (m_of (yref self))).

(** Robust design, ['u']: the objective g' H g / 2 + f' g, a number. *)
Definition spec_robust_u_objective (self : deepctools)
    (lambda_g lambda_y : ndarray) (g yini : list Qc) : Qc :=
  spec_qp (length g) (spec_robust_H self lambda_g lambda_y)
    (spec_robust_f self lambda_y yini) (v_of g) 0%nat 0%nat.

(** The ['du'] loss: u_cur = Uf g; u_prev = the last u_dim entries of uini
    followed by all but the last u_dim entries of u_cur;
    du = u_cur - u_prev; y_loss = Yf g - yref. *)
Definition spec_u_cur (self : deepctools) (g : list Qc) : mat :=
  m_mul (length g) (m_of (Uf self)) (v_of g).
Definition spec_u_prev (self : deepctools) (g uini : list Qc) : list Qc :=
  skipn (length uini - Z.to_nat (u_dim self)) uini
  ++ firstn (nrows (Uf self) - Z.to_nat (u_dim self))
       (map (fun i => spec_u_cur self g i 0%nat) (seq 0 (nrows (Uf self)))).
Definition spec_du (self : deepctools) (g uini : list Qc) : mat :=
  m_sub (spec_u_cur self g) (v_of (spec_u_prev self g uini)).
Definition spec_y_loss (self : deepctools) (g : list Qc) : mat :=
  m_sub (m_mul (length g) (m_of (Yf self)) (v_of g)) (m_of (yref self)).

(** Standard design, ['du']: the objective
    y_loss' Q y_loss + du' R du, a number. *)
Definition spec_du_objective (self : deepctools) (g uini : list Qc) : Qc :=
  m_add (spec_quad (nrows (Yf self)) (spec_y_loss self g) (m_of (Q self)))
        (spec_quad (nrows (Uf self)) (spec_du self g uini) (m_of (R self)))
    0%nat 0%nat.

(** Robust design, ['du']: the standard value plus g' lambda_g g and
    sigma_y' lambda_y sigma_y, with sigma_y = Yp g - yini. *)
Definition spec_sigma_y (self : deepctools) (g yini : list Qc) : mat :=
  m_sub (m_mul (length g) (m_of (Yp self)) (v_of g)) (v_of yini).
Definition spec_robust_du_objective (self : deepctools)
    (lambda_g lambda_y : ndarray) (g uini yini : list Qc) : Qc :=
  (spec_du_objective self g uini
   + spec_quad (length g) (v_of g) (m_of lambda_g) 0%nat 0%nat
   + spec_quad (nrows (Yp self)) (spec_sigma_y self g yini) (m_of lambda_y)
       0%nat 0%nat)%Qc.

(** The product of a matrix and a vector, entry by entry, and the rows
    P g - ini of a history-matching block. *)
Definition spec_matvec (M : ndarray) (v : list Qc) : list Qc :=
  map (fun i => sigma (length v) (fun k => (m_of M i k * nth k v 0)%Qc))
      (seq 0 (nrows M)).
Definition spec_eq_rows (P : ndarray) (g ini : list Qc) : list Qc :=
  map (fun i => (sigma (length g) (fun k => (m_of P i k * nth k g 0)%Qc)
                 - nth i ini 0)%Qc)
      (seq 0 (nrows P)).

(** Every array handed to the constructor is rectangular, and every array
    of an object is. *)
Definition rect_inputs (ys ud yd Q R : ndarray) (us lambda_g lambda_y : option ndarray)
    : bool :=
  rect ys && rect ud && rect yd && rect Q && rect R && rect_opt us
  && rect_opt lambda_g && rect_opt lambda_y.
Definition rectangular (self : deepctools) : bool :=
  rect (Up self) && rect (Uf self) && rect (Yp self) && rect (Yf self)
  && rect (Q self) && rect (R self) && rect (yref self) && rect_opt (uref self)
  && rect_opt (lambda_g self) && rect_opt (lambda_y self)
  && match Hc self with HcArray a => rect a | HcPyList => true end.

(** The inequality rows of one entry of the constraint specification: row
    [v + i * dim] of the base matrix for each step [i] and each requested
    component [v], and the bounds repeated once per step. *)
Definition spec_rows (base : ndarray) (dim Np : Z) (idx : list Z)
    : list (list Qc) :=
  flat_map (fun i => map (fun v => nth (Z.to_nat (v + i * dim)) (rows base) []) idx)
           (range Np).

Definition spec_bounds (bd : list Qc) (Np : Z) : list Qc :=
  flat_map (fun _ => bd) (range Np).

(** The entries of a constraint specification are recognised, their bounds
    are given, and every selected row exists. *)
Definition base_of (self : deepctools) (varname : string) : ndarray * Z :=
  if String.eqb varname "u" then (Uf self, u_dim self) else (Yf self, y_dim self).

Definition lb_key (varname : string) : string :=
  if String.eqb varname "u" then "lbu" else "lby".
Definition ub_key (varname : string) : string :=
  if String.eqb varname "u" then "ubu" else "uby".

Definition entry_ok (self : deepctools) (bd : dict (list Qc))
    (item : string * list Z) : Prop :=
  let '(varname, idx) := item in
  (varname = "u" \/ varname = "y") /\
  lookup (lb_key varname) bd <> None /\
  lookup (ub_key varname) bd <> None /\
  forall i v, 0 <= i < Np self -> In v idx ->
    0 <= v + i * snd (base_of self varname)
      < Z.of_nat (nrows (fst (base_of self varname))).

Definition bound_of (bd : dict (list Qc)) (k : string) : list Qc :=
  match lookup k bd with Some l => l | None => [] end.

(** A specification is consistent when each entry has one lower and one
    upper bound per constrained component. *)
Definition consistent (idx : dict (list Z)) (bd : dict (list Qc)) : Prop :=
  Forall (fun '(varname, l) =>
            length (bound_of bd (lb_key varname)) = length l /\
            length (bound_of bd (ub_key varname)) = length l) idx.

(** Number of rows of the value bound to [Hc]. *)
Definition Hc_rows (h : hc_value) : nat :=
  match h with
  | HcPyList => 0%nat
  | HcArray a => nrows a
  end.

(** ** Sets of exceptions *)

(** [raises_only P m]: every exception that [m] may raise satisfies [P]. *)
Definition raises_only {A : Type} (P : exn -> Prop) (m : result A) : Prop :=
  forall e, m = Raise e -> P e.

(** The exceptions of the array operations used by the formulation. *)
Definition op_errors : list exn :=
  [ shape_error; broadcast_error;
    ValueError "need at least one array to concatenate";
    ValueError "all the input array dimensions except for the concatenation axis must match exactly";
    TypeError "mtimes: a list is not a matrix" ].

Definition op_error (e : exn) : Prop := In e op_errors.

(** What a formulation may raise after its pre-checks: an array-operation
    error, the error about the missing [us], an unbound [obj], or the
    RuntimeError of the backend. *)
Definition formulation_error (self : deepctools) (e : exn) : Prop :=
  op_error e \/ (e = ValueError msg_us /\ uref self = None) \/ e = NameError "obj" \/
  exists msg, e = RuntimeError msg.

(** ** A small worked system: one input, one output *)

Definition qz (z : Z) : Qc := Q2Qc (inject_Z z).

(** A column of integers, and the identity matrix. *)
Definition col (l : list Z) : ndarray := mk_nd 1 (map (fun z => [qz z]) l).
Definition eye (n : nat) : ndarray :=
  mk_nd n (map (fun i => map (fun j => if Nat.eqb i j then 1%Qc else 0%Qc) (seq 0 n))
               (seq 0 n)).

Definition blank : deepctools :=
  mk_self 0 0 0 0 0 0 (eye 0) (eye 0) None None None (eye 0) (eye 0) None
    (eye 0) (eye 0) (eye 0) (eye 0) (eye 0) (eye 0) HcPyList [] [] None None None.

(** The object of a construction that is known to return one. *)
Definition constructed (m : result deepctools) : deepctools :=
  match m with Ok s => s | Raise _ => blank end.

Definition toy_ud : ndarray := col [1; 2; 0; 1; 3; 1; 0; 2].
Definition toy_yd : ndarray := col [1; 3; 3; 4; 7; 8; 8; 10].
Definition toy_idx : dict (list Z) := [("u", [0])].
Definition toy_bd : dict (list Qc) := [("lbu", [qz (-1)]); ("ubu", [qz 1])].

(** T = 8, Tini = 1, Np = 2, so g_dim = 6; us = 1. *)
Definition toy_init (us : Z) (bd : dict (list Qc)) : result deepctools :=
  __init__ 1 1 8 1 2 (col [0]) toy_ud toy_yd (eye 2) (eye 2) (Some (col [us]))
    (Some (eye 6)) (Some (eye 1)) (Some toy_idx) (Some bd).
Definition toy : deepctools := constructed (toy_init 1 toy_bd).

(** The same system with the set-point us = 0. *)
Definition toy_zero : deepctools := constructed (toy_init 0 toy_bd).

(** The same system with two lower bounds for the one constrained
    component. *)
Definition toy_bad_bd : dict (list Qc) := [("lbu", [qz (-1); qz (-2)]); ("ubu", [qz 1])].
Definition toy_bad : deepctools := constructed (toy_init 1 toy_bad_bd).

(** T = 8, Tini = 3, Np = 2, so g_dim = 4 lies between u_dim * Tini = 3
    and (u_dim + y_dim) * Tini = 6. *)
Definition toy_tight : deepctools :=
  constructed
    (__init__ 1 1 8 3 2 (col [0]) toy_ud toy_yd (eye 2) (eye 2) (Some (col [1]))
       (Some (eye 4)) (Some (eye 3)) (Some toy_idx) (Some toy_bd)).

(** Lengths of the stored bound lists, and number of rows of the stored
    constraint stack (at operands of the declared shapes). *)
Definition bound_lengths (self : deepctools) : option (nat * nat) :=
  match lbc self, ubc self with
  | Some l, Some u => Some (length l, length u)
  | _, _ => None
  end.

Definition stack_rows (self : deepctools) : result nat :=
  match solver self with
  | Some prob =>
      c <- nlp_g prob (zeros (g_rows self) 1) (zeros (uini_rows self) 1)
             (zeros (yini_rows self) 1) ;;
      Ok (nrows c)
  | None => Raise (TypeError "'NoneType' object is not callable")
  end.

(** A backend that builds a solver for every problem, and one that refuses
    every problem. *)
Definition toy_nlpsol_new (prob : nlp_prob) (opts : dict Qc) : option string := None.
Definition toy_reject (prob : nlp_prob) (opts : dict Qc) : option string :=
  Some "Unknown option".

(** Stand-ins for the numerical collaborators, for a concrete run: the
    transpose has the shape of the pseudo-inverse, and the solver returns
    its initial guess. *)
Definition toy_pinv (a : ndarray) : ndarray := transpose a.
Definition toy_nlpsol (prob : nlp_prob) (c : solver_call) : result ndarray := Ok (x0 c).

Definition step_result (m : result (list Qc * list Qc * Qc)) : list Qc * list Qc * Qc :=
  match m with Ok r => r | Raise _ => ([], [], 0%Qc) end.

(** ** Notions used by the further properties *)

(** An entry of the constraint specification that [_init_ineq_cons] can
    process: its key is ['u'] or ['y'] and both of its bounds are present
    in [bd]. *)
Definition usable_entry (bd : dict (list Qc)) (item : string * list Z) : Prop :=
  (fst item = "u" \/ fst item = "y") /\
  lookup (lb_key (fst item)) bd <> None /\
  lookup (ub_key (fst item)) bd <> None.

(** Number of constrained component indices, of lower bounds and of upper
    bounds over all entries of a specification. *)
Definition n_indices (items : dict (list Z)) : nat :=
  length (concat (map snd items)).
Definition n_lower (bd : dict (list Qc)) (items : dict (list Z)) : nat :=
  length (concat (map (fun it => bound_of bd (lb_key (fst it))) items)).
Definition n_upper (bd : dict (list Qc)) (items : dict (list Z)) : nat :=
  length (concat (map (fun it => bound_of bd (ub_key (fst it))) items)).

(** The shapes of the attributes, in numbers of rows and columns, as
    [_checkvar] and [_init_ineq_cons] leave them. *)
Definition well_shaped (self : deepctools) : Prop :=
  nrows (Up self) = uini_rows self /\ ncols (Up self) = g_rows self /\
  nrows (Yp self) = yini_rows self /\ ncols (Yp self) = g_rows self /\
  ncols (Uf self) = g_rows self /\ ncols (Yf self) = g_rows self /\
  nrows (R self) = nrows (Uf self) /\ ncols (R self) = nrows (Uf self) /\
  nrows (Q self) = nrows (Yf self) /\ ncols (Q self) = nrows (Yf self) /\
  nrows (yref self) = nrows (Yf self) /\ ncols (yref self) = 1%nat /\
  (forall r, uref self = Some r ->
     nrows r = nrows (Uf self) /\ ncols r = 1%nat) /\
  (forall m, lambda_g self = Some m ->
     nrows m = g_rows self /\ ncols m = g_rows self) /\
  (forall m, lambda_y self = Some m ->
     nrows m = yini_rows self /\ ncols m = yini_rows self) /\
  exists a, Hc self = HcArray a /\ ncols a = g_rows self.

(** A column with [n] rows. *)
Definition column_of (n : nat) (x : ndarray) : Prop :=
  nrows x = n /\ ncols x = 1%nat.

(** What the ['du'] loss needs of the dimensions: Uf has u_dim * Np rows,
    u_dim is not negative and, when it is positive, Tini >= 1 and
    Np >= 1. *)
Definition du_ready (self : deepctools) : Prop :=
  Z.of_nat (nrows (Uf self)) = u_dim self * Np self /\
  0 <= u_dim self /\
  (1 <= u_dim self -> 1 <= Tini self /\ 1 <= Np self).

(** * Properties *)

(** ** The error monad *)

Lemma bind_Ok {A B : Type} (m : result A) (k : A -> result B) (b : B) :
  bind m k = Ok b -> exists a, m = Ok a /\ k a = Ok b.
Proof.
  destruct m as [a | e]; simpl; intros H; [exists a; auto | discriminate].
Qed.

Lemma bind_Raise {A B : Type} (m : result A) (k : A -> result B) (e : exn) :
  bind m k = Raise e -> m = Raise e \/ exists a, m = Ok a /\ k a = Raise e.
Proof.
  destruct m as [a | e']; simpl; intros H;
    [right; exists a; auto | left; inversion H; reflexivity].
Qed.

(** Inversion of a successful chain of binds, one step at a time. *)
Ltac bind_inv H :=
  let a := fresh "v" in
  let Ha := fresh "E" in
  apply bind_Ok in H; destruct H as [a [Ha H]].

Ltac bind_as H a Ha :=
  apply bind_Ok in H; destruct H as [a [Ha H]].

Lemma raises_only_Ok {A : Type} (P : exn -> Prop) (a : A) : raises_only P (Ok a).
Proof. intros e H; discriminate. Qed.

Lemma raises_only_Raise {A : Type} (P : exn -> Prop) (e : exn) :
  P e -> raises_only (A := A) P (Raise e).
Proof. intros H e' E; inversion E; subst; exact H. Qed.

Lemma raises_only_bind {A B : Type} (P : exn -> Prop) (m : result A)
    (k : A -> result B) :
  raises_only P m -> (forall a, raises_only P (k a)) -> raises_only P (bind m k).
Proof.
  intros Hm Hk e H. apply bind_Raise in H. destruct H as [H | [a [_ H]]].
  - exact (Hm e H).
  - exact (Hk a e H).
Qed.

(** ** Construction *)

(** C1, as the code behaves: with [ineqconidx] absent, [_init_ineq_cons]
    binds three empty Python lists and then calls [.tolist()] on one of
    them, which raises [AttributeError]; hence no construction with
    [ineqconidx = None] returns an object. *)
Theorem init_ineq_cons_absent_raises :
  (forall self ineqconbd,
      _init_ineq_cons self None ineqconbd
      = Raise (AttributeError "'list' object has no attribute 'tolist'")) /\
  (forall u_dim y_dim T Tini Np ys ud yd Q R us lambda_g lambda_y ineqconbd,
      is_ok (__init__ u_dim y_dim T Tini Np ys ud yd Q R us lambda_g lambda_y
               None ineqconbd) = false).
Proof.
  split.
  - intros self ineqconbd. reflexivity.
  - intros. unfold __init__.
    repeat match goal with
           | |- context [bind ?m _] =>
               match m with
               | _init_ineq_cons _ _ _ => fail 1
               | _ => destruct m; simpl; try reflexivity
               end
           end.
Qed.

(** C9: with [us] omitted, construction never returns an object, and for a
    horizon [Np] that is not negative it stops at [us.any()] with an
    [AttributeError], whatever the shapes of the other arguments. *)
Theorem init_without_us_fails :
  forall u_dim y_dim T Tini Np ys ud yd Q R lambda_g lambda_y ineqconidx ineqconbd,
    is_ok (__init__ u_dim y_dim T Tini Np ys ud yd Q R None lambda_g lambda_y
             ineqconidx ineqconbd) = false /\
    (0 <= Np ->
     __init__ u_dim y_dim T Tini Np ys ud yd Q R None lambda_g lambda_y
       ineqconidx ineqconbd
     = Raise (AttributeError "'NoneType' object has no attribute 'any'")).
Proof.
  intros u_dim y_dim T Tini Np ys ud yd Q R lambda_g lambda_y ineqconidx ineqconbd.
  unfold __init__, tile_rows.
  destruct (Np <? 0) eqn:E; simpl.
  - split; [reflexivity | intros H; apply Z.ltb_lt in E; lia].
  - split; reflexivity.
Qed.

(** ** Which exceptions the array operations raise *)

Lemma raises_only_weaken {A : Type} (P P' : exn -> Prop) (m : result A) :
  raises_only P m -> (forall e, P e -> P' e) -> raises_only P' m.
Proof. intros H HP e E. apply HP, (H e E). Qed.

Lemma matmul_raises (a b : ndarray) : raises_only op_error (matmul a b).
Proof.
  unfold matmul. destruct (Nat.eqb _ _).
  - apply raises_only_Ok.
  - apply raises_only_Raise. unfold op_error, op_errors. simpl. auto.
Qed.

Lemma pointwise_raises (f : Qc -> Qc -> Qc) (a b : ndarray) :
  raises_only op_error (pointwise f a b).
Proof.
  unfold pointwise. destruct (_ && _).
  - apply raises_only_Ok.
  - apply raises_only_Raise. unfold op_error, op_errors. simpl. auto.
Qed.

Lemma concatenate_raises (l : list ndarray) : raises_only op_error (concatenate l).
Proof.
  unfold concatenate. destruct l as [| a l'].
  - apply raises_only_Raise. unfold op_error, op_errors. simpl. auto.
  - destruct (forallb _ _).
    + apply raises_only_Ok.
    + apply raises_only_Raise. unfold op_error, op_errors. simpl. auto 6.
Qed.

Lemma Hc_times_raises (self : deepctools) (g : ndarray) :
  raises_only op_error (Hc_times self g).
Proof.
  unfold Hc_times. destruct (Hc self).
  - apply raises_only_Raise. unfold op_error, op_errors. simpl. auto 6.
  - apply matmul_raises.
Qed.

(** Chains of array operations raise array-operation errors only. *)
Ltac raises :=
  repeat first
    [ apply raises_only_Ok
    | apply matmul_raises
    | apply pointwise_raises
    | apply concatenate_raises
    | apply Hc_times_raises
    | apply raises_only_bind; [ | intros ? ] ].

Lemma quad_form_raises (x M : ndarray) : raises_only op_error (quad_form x M).
Proof. unfold quad_form. raises. Qed.

Lemma tmm_raises (A W B : ndarray) : raises_only op_error (tmm A W B).
Proof. unfold tmm. raises. Qed.

Lemma neg_tmm_raises (A W b : ndarray) : raises_only op_error (neg_tmm A W b).
Proof. unfold neg_tmm. raises. Qed.

Lemma qp_obj_raises (H f g : ndarray) : raises_only op_error (qp_obj H f g).
Proof.
  unfold qp_obj, nd_add.
  apply raises_only_bind; [apply quad_form_raises | intros ?]. raises.
Qed.

Lemma du_terms_raises (self : deepctools) (g uini : ndarray) :
  raises_only op_error (du_terms self g uini).
Proof. unfold du_terms, vertcat, nd_sub. raises. Qed.

Lemma du_obj_raises (self : deepctools) (g uini : ndarray) :
  raises_only op_error (du_obj self g uini).
Proof.
  unfold du_obj, nd_add.
  apply raises_only_bind; [apply du_terms_raises | intros [du y_loss]].
  apply raises_only_bind; [apply quad_form_raises | intros ?].
  apply raises_only_bind; [apply quad_form_raises | intros ?]. raises.
Qed.

Lemma rdu_obj_raises (self : deepctools) (lg ly g uini yini : ndarray) :
  raises_only op_error (rdu_obj self lg ly g uini yini).
Proof.
  unfold rdu_obj, nd_add, nd_sub.
  apply raises_only_bind; [apply du_terms_raises | intros [du y_loss]].
  apply raises_only_bind; [apply matmul_raises | intros ?].
  apply raises_only_bind; [apply pointwise_raises | intros ?].
  apply raises_only_bind; [apply quad_form_raises | intros ?].
  apply raises_only_bind; [apply quad_form_raises | intros ?].
  apply raises_only_bind; [apply pointwise_raises | intros ?].
  apply raises_only_bind; [apply quad_form_raises | intros ?].
  apply raises_only_bind; [apply pointwise_raises | intros ?].
  apply raises_only_bind; [apply quad_form_raises | intros ?].
  apply pointwise_raises.
Qed.

Lemma DeePC_constraints_raises (self : deepctools) (g uini yini : ndarray) :
  raises_only op_error (DeePC_constraints self g uini yini).
Proof. unfold DeePC_constraints, nd_sub. raises. Qed.

Lemma RDeePC_constraints_raises (self : deepctools) (g uini yini : ndarray) :
  raises_only op_error (RDeePC_constraints self g uini yini).
Proof. unfold RDeePC_constraints, nd_sub. raises. Qed.

Lemma RDeePC_H_raises (self : deepctools) (lg ly : ndarray) :
  raises_only op_error (RDeePC_H self lg ly).
Proof.
  unfold RDeePC_H, nd_add.
  apply raises_only_bind; [apply tmm_raises | intros ?].
  apply raises_only_bind; [apply tmm_raises | intros ?].
  apply raises_only_bind; [apply pointwise_raises | intros ?].
  apply raises_only_bind; [apply tmm_raises | intros ?].
  raises.
Qed.

Lemma build_raises (P : exn -> Prop) (self : deepctools)
    (e : ndarray -> ndarray -> ndarray -> result ndarray) :
  (forall g uini yini, raises_only P (e g uini yini)) ->
  raises_only P (build self e).
Proof.
  intros H. unfold build.
  apply raises_only_bind; [apply H | intros ?; apply raises_only_Ok].
Qed.

(** ** Which exceptions a formulation raises once its pre-checks pass *)

Lemma op_error_formulation (self : deepctools) (e : exn) :
  op_error e -> formulation_error self e.
Proof. intros H; left; exact H. Qed.

Ltac op_step L :=
  apply raises_only_bind;
  [ apply raises_only_weaken with (P := op_error);
    [ apply L | apply op_error_formulation ]
  | intros ? ].

Lemma DeePC_objective_raises (self : deepctools) (uloss : string) :
  raises_only (formulation_error self) (DeePC_objective self uloss).
Proof.
  unfold DeePC_objective.
  destruct (String.eqb uloss "u").
  { op_step tmm_raises. op_step tmm_raises. op_step pointwise_raises.
    op_step neg_tmm_raises. apply raises_only_Ok. }
  destruct (String.eqb uloss "uus").
  { destruct (uref self) eqn:Eu.
    - op_step tmm_raises. op_step tmm_raises. op_step pointwise_raises.
      op_step neg_tmm_raises. op_step tmm_raises. op_step pointwise_raises.
      apply raises_only_Ok.
    - apply raises_only_Raise. right; left; auto. }
  destruct (String.eqb uloss "du").
  - apply raises_only_Ok.
  - apply raises_only_Raise. right; right; left; reflexivity.
Qed.

Lemma DeePC_objective_Ok (self : deepctools) (uloss : string)
    (obj : ndarray -> ndarray -> ndarray -> result ndarray) :
  DeePC_objective self uloss = Ok obj ->
  forall g uini yini, raises_only op_error (obj g uini yini).
Proof.
  unfold DeePC_objective. intros H g uini yini.
  destruct (String.eqb uloss "u").
  { repeat bind_inv H. inversion H; subst. apply qp_obj_raises. }
  destruct (String.eqb uloss "uus").
  { destruct (uref self); [| discriminate].
    repeat bind_inv H. inversion H; subst. apply qp_obj_raises. }
  destruct (String.eqb uloss "du"); [| discriminate].
  inversion H; subst. apply du_obj_raises.
Qed.

Lemma RDeePC_objective_raises (self : deepctools) (lg ly : ndarray) (uloss : string) :
  raises_only (formulation_error self) (RDeePC_objective self lg ly uloss).
Proof.
  unfold RDeePC_objective.
  destruct (String.eqb uloss "u").
  { op_step RDeePC_H_raises. apply raises_only_Ok. }
  destruct (String.eqb uloss "uus").
  { destruct (uref self) eqn:Eu.
    - op_step RDeePC_H_raises. apply raises_only_Ok.
    - apply raises_only_Raise. right; left; auto. }
  destruct (String.eqb uloss "du").
  - apply raises_only_Ok.
  - apply raises_only_Raise. right; right; left; reflexivity.
Qed.

Lemma RDeePC_objective_Ok (self : deepctools) (lg ly : ndarray) (uloss : string)
    (obj : ndarray -> ndarray -> ndarray -> result ndarray) :
  RDeePC_objective self lg ly uloss = Ok obj ->
  forall g uini yini, raises_only op_error (obj g uini yini).
Proof.
  unfold RDeePC_objective. intros H g uini yini.
  destruct (String.eqb uloss "u").
  { bind_inv H. inversion H; subst. unfold nd_sub.
    apply raises_only_bind; [apply neg_tmm_raises | intros ?].
    apply raises_only_bind; [apply tmm_raises | intros ?].
    apply raises_only_bind; [apply pointwise_raises | intros ?].
    apply qp_obj_raises. }
  destruct (String.eqb uloss "uus").
  { destruct (uref self); [| discriminate].
    bind_inv H. inversion H; subst. unfold nd_sub.
    apply raises_only_bind; [apply neg_tmm_raises | intros ?].
    apply raises_only_bind; [apply tmm_raises | intros ?].
    apply raises_only_bind; [apply pointwise_raises | intros ?].
    apply raises_only_bind; [apply tmm_raises | intros ?].
    apply raises_only_bind; [apply pointwise_raises | intros ?].
    apply qp_obj_raises. }
  destruct (String.eqb uloss "du"); [| discriminate].
  inversion H; subst. apply rdu_obj_raises.
Qed.

Lemma cs_nlpsol_raises (self : deepctools) (prob : nlp_prob) :
  raises_only (formulation_error self) (cs_nlpsol prob).
Proof.
  unfold cs_nlpsol. destruct (nlpsol_new prob (nlp_opts prob)) as [msg |].
  - apply raises_only_Raise. right; right; right. exists msg. reflexivity.
  - apply raises_only_Ok.
Qed.

Lemma init_DeePCsolver_raises (self : deepctools) (uloss : string) (opts : dict Qc) :
  uloss_known uloss = true ->
  (g_dim self <=? (u_dim self + y_dim self) * Tini self) = false ->
  raises_only (formulation_error self) (init_DeePCsolver self uloss opts).
Proof.
  intros Hu Hd. unfold init_DeePCsolver. rewrite Hu, Hd. simpl.
  destruct (DeePC_objective self uloss) as [obj | e] eqn:Eo.
  - simpl.
    apply raises_only_bind.
    { apply build_raises. intros g uini yini.
      apply raises_only_weaken with (P := op_error);
        [ apply (DeePC_objective_Ok _ _ _ Eo) | apply op_error_formulation ]. }
    intros _.
    apply raises_only_bind.
    { apply build_raises. intros g uini yini.
      apply raises_only_weaken with (P := op_error);
        [ apply DeePC_constraints_raises | apply op_error_formulation ]. }
    intros _.
    apply raises_only_bind; [apply cs_nlpsol_raises | intros ?; apply raises_only_Ok].
  - simpl. intros e' E. inversion E; subst.
    exact (DeePC_objective_raises self uloss e' Eo).
Qed.

Lemma init_RDeePCsolver_raises (self : deepctools) (uloss : string) (opts : dict Qc)
    (lg ly : ndarray) :
  uloss_known uloss = true ->
  lambda_g self = Some lg -> lambda_y self = Some ly ->
  (g_dim self <=? u_dim self * Tini self) = false ->
  raises_only (formulation_error self) (init_RDeePCsolver self uloss opts).
Proof.
  intros Hu Hg Hy Hd. unfold init_RDeePCsolver. rewrite Hu, Hg, Hy, Hd. simpl.
  destruct (RDeePC_objective self lg ly uloss) as [obj | e] eqn:Eo.
  - simpl.
    apply raises_only_bind.
    { apply build_raises. intros g uini yini.
      apply raises_only_weaken with (P := op_error);
        [ apply (RDeePC_objective_Ok _ _ _ _ _ Eo) | apply op_error_formulation ]. }
    intros _.
    apply raises_only_bind.
    { apply build_raises. intros g uini yini.
      apply raises_only_weaken with (P := op_error);
        [ apply RDeePC_constraints_raises | apply op_error_formulation ]. }
    intros _.
    apply raises_only_bind; [apply cs_nlpsol_raises | intros ?; apply raises_only_Ok].
  - simpl. intros e' E. inversion E; subst.
    exact (RDeePC_objective_raises self lg ly uloss e' Eo).
Qed.

(** The messages of the pre-checks are not those of an array operation. *)
Lemma dof_not_formulation (self : deepctools) :
  ~ formulation_error self (ValueError msg_dof) /\
  ~ formulation_error self (ValueError msg_dof_robust).
Proof.
  unfold formulation_error, op_error, op_errors, shape_error, broadcast_error.
  split; intros [H | [[H _] | [H | [msg H]]]]; try discriminate;
    simpl in H; repeat (destruct H as [H | H]; try discriminate); exact H.
Qed.

Lemma us_not_op_error : ~ op_error (ValueError msg_us).
Proof.
  unfold op_error, op_errors, shape_error, broadcast_error.
  intros H. simpl in H. repeat (destruct H as [H | H]; try discriminate). exact H.
Qed.

(** ** Pre-checks of the formulation *)

(** C6: for a known [uloss], [init_DeePCsolver] raises the
    degrees-of-freedom error exactly when g_dim <= (u_dim + y_dim) * Tini,
    and [init_RDeePCsolver] with both weights given raises its own exactly
    when g_dim <= u_dim * Tini; so for u_dim * Tini < g_dim <=
    (u_dim + y_dim) * Tini the first raises it and the second does not. *)
Theorem dof_check (self : deepctools) (uloss : string) (opts : dict Qc) :
  uloss_known uloss = true ->
  (init_DeePCsolver self uloss opts = Raise (ValueError msg_dof)
   <-> g_dim self <= (u_dim self + y_dim self) * Tini self) /\
  (forall lg ly, lambda_g self = Some lg -> lambda_y self = Some ly ->
     (init_RDeePCsolver self uloss opts = Raise (ValueError msg_dof_robust)
      <-> g_dim self <= u_dim self * Tini self)) /\
  (forall lg ly, lambda_g self = Some lg -> lambda_y self = Some ly ->
     u_dim self * Tini self < g_dim self <= (u_dim self + y_dim self) * Tini self ->
     init_DeePCsolver self uloss opts = Raise (ValueError msg_dof) /\
     init_RDeePCsolver self uloss opts <> Raise (ValueError msg_dof_robust)).
Proof.
  intros Hu.
  assert (S1 : init_DeePCsolver self uloss opts = Raise (ValueError msg_dof)
               <-> g_dim self <= (u_dim self + y_dim self) * Tini self).
  { destruct (g_dim self <=? (u_dim self + y_dim self) * Tini self) eqn:E.
    - apply Z.leb_le in E. split; [intros _; exact E | intros _].
      unfold init_DeePCsolver. rewrite Hu. simpl.
      apply Z.leb_le in E. rewrite E. reflexivity.
    - split.
      + intros H. exfalso.
        apply (proj1 (dof_not_formulation self)).
        exact (init_DeePCsolver_raises self uloss opts Hu E _ H).
      + intros H. apply Z.leb_gt in E. lia. }
  assert (S2 : forall lg ly, lambda_g self = Some lg -> lambda_y self = Some ly ->
     (init_RDeePCsolver self uloss opts = Raise (ValueError msg_dof_robust)
      <-> g_dim self <= u_dim self * Tini self)).
  { intros lg ly Hg Hy.
    destruct (g_dim self <=? u_dim self * Tini self) eqn:E.
    - split; [intros _; apply Z.leb_le; exact E | intros _].
      unfold init_RDeePCsolver. rewrite Hu, Hg, Hy, E. reflexivity.
    - split.
      + intros H. exfalso.
        apply (proj2 (dof_not_formulation self)).
        exact (init_RDeePCsolver_raises self uloss opts lg ly Hu Hg Hy E _ H).
      + intros H. apply Z.leb_gt in E. lia. }
  split; [exact S1 | split; [exact S2 |]].
  intros lg ly Hg Hy [Hlo Hhi]. split.
  - apply S1. exact Hhi.
  - intros H. apply (S2 lg ly Hg Hy) in H. lia.
Qed.

(** Inversion of a successful construction: [us] was given, [uref] is
    defined exactly when [us] has a nonzero entry, and the inequality rows
    and bounds are those returned by [_init_ineq_cons]. *)
Lemma init_Ok nu ny nT nTini nNp ys0 ud yd Q0 R0 us0 lg ly
    ineqconidx ineqconbd (self : deepctools) :
  __init__ nu ny nT nTini nNp ys0 ud yd Q0 R0 us0 lg ly
    ineqconidx ineqconbd = Ok self ->
  exists a self0,
    us0 = Some a /\
    (uref self = None <-> nd_any a = false) /\
    Np self0 = nNp /\ Np self = nNp /\
    _init_ineq_cons self0 ineqconidx ineqconbd
    = Ok (Hc self, lbc_ineq self, ubc_ineq self).
Proof.
  unfold __init__. intros H.
  bind_as H yref_t Ey. bind_as H nonzero En.
  destruct us0 as [a |]; [| discriminate]. simpl in En. inversion En; subst nonzero.
  bind_as H uref' Eu. bind_as H Hud' EHu. bind_as H Hyd' EHy.
  bind_as H chk Ec. bind_as H trip Ei.
  destruct trip as [[hc lb] ub]. inversion H; subst self. clear H.
  exists a. eexists. split; [reflexivity |].
  split; [| split; [| split; [reflexivity | exact Ei]]].
  - simpl. destruct (nd_any a).
    + bind_as Eu t Et. inversion Eu. split; discriminate.
    + inversion Eu. split; reflexivity.
  - reflexivity.
Qed.

(** C7: a constructed object has [uref] undefined exactly when the given
    [us] is all zero; with [uref] undefined, formulating with ['uus'] always
    fails, in both designs, and once the earlier pre-checks pass it is with
    the error about the missing [us]; with [uref] defined that error is
    never raised. *)
Theorem uus_requires_uref :
  (forall nu ny nT nTini nNp ys0 ud yd Q0 R0 us0 lg ly idx bd self,
      __init__ nu ny nT nTini nNp ys0 ud yd Q0 R0 us0 lg ly idx bd = Ok self ->
      exists a, us0 = Some a /\ (uref self = None <-> nd_any a = false)) /\
  (forall self opts, uref self = None ->
      is_ok (init_DeePCsolver self "uus" opts) = false /\
      is_ok (init_RDeePCsolver self "uus" opts) = false /\
      ((g_dim self <=? (u_dim self + y_dim self) * Tini self) = false ->
       init_DeePCsolver self "uus" opts = Raise (ValueError msg_us)) /\
      (forall lg ly, lambda_g self = Some lg -> lambda_y self = Some ly ->
         (g_dim self <=? u_dim self * Tini self) = false ->
         init_RDeePCsolver self "uus" opts = Raise (ValueError msg_us))) /\
  (forall self opts, uref self <> None ->
      init_DeePCsolver self "uus" opts <> Raise (ValueError msg_us) /\
      init_RDeePCsolver self "uus" opts <> Raise (ValueError msg_us)).
Proof.
  split; [| split].
  - intros nu ny nT nTini nNp ys0 ud yd Q0 R0 us0 lg ly idx bd self H.
    destruct (init_Ok _ _ _ _ _ _ _ _ _ _ _ _ _ _ _ _ H)
      as [a [self0 [Hus [Hiff _]]]].
    exists a. split; assumption.
  - intros self opts Hu.
    assert (S : DeePC_objective self "uus" = Raise (ValueError msg_us)).
    { unfold DeePC_objective. simpl. rewrite Hu. reflexivity. }
    assert (S' : forall lg ly,
               RDeePC_objective self lg ly "uus" = Raise (ValueError msg_us)).
    { intros lg ly. unfold RDeePC_objective. simpl. rewrite Hu. reflexivity. }
    split; [| split; [| split]].
    + unfold init_DeePCsolver. simpl negb. cbv iota. rewrite S.
      destruct (_ <=? _); reflexivity.
    + unfold init_RDeePCsolver. simpl negb. cbv iota.
      destruct (lambda_g self); [| reflexivity].
      destruct (lambda_y self); [| reflexivity].
      rewrite S'. destruct (_ <=? _); reflexivity.
    + intros Hd. unfold init_DeePCsolver. simpl negb. cbv iota.
      rewrite S, Hd. reflexivity.
    + intros lg ly Hg Hy Hd. unfold init_RDeePCsolver. simpl negb. cbv iota.
      rewrite Hg, Hy, S', Hd. reflexivity.
  - intros self opts Hu. split; intros H.
    + destruct (g_dim self <=? (u_dim self + y_dim self) * Tini self) eqn:Hd.
      * unfold init_DeePCsolver in H. simpl negb in H. cbv iota in H.
        rewrite Hd in H. discriminate.
      * destruct (init_DeePCsolver_raises self "uus" opts eq_refl Hd _ H)
          as [Ho | [[_ Hn] | [Hn | [msg Hn]]]].
        -- exact (us_not_op_error Ho).
        -- exact (Hu Hn).
        -- discriminate.
        -- discriminate.
    + unfold init_RDeePCsolver in H. simpl negb in H. cbv iota in H.
      destruct (lambda_g self) as [lg |] eqn:Hg; [| discriminate].
      destruct (lambda_y self) as [ly |] eqn:Hy; [| discriminate].
      destruct (g_dim self <=? u_dim self * Tini self) eqn:Hd; [discriminate |].
      assert (H' : init_RDeePCsolver self "uus" opts = Raise (ValueError msg_us)).
      { unfold init_RDeePCsolver. simpl negb. cbv iota. rewrite Hg, Hy, Hd. exact H. }
      destruct (init_RDeePCsolver_raises self "uus" opts lg ly eq_refl Hg Hy Hd _ H')
        as [Ho | [[_ Hn] | [Hn | [msg Hn]]]].
      * exact (us_not_op_error Ho).
      * exact (Hu Hn).
      * discriminate.
      * discriminate.
Qed.

(** ** The inequality rows *)

Lemma mapM_Ok {A B : Type} (f : A -> result B) (g : A -> B) (l : list A) :
  (forall a, In a l -> f a = Ok (g a)) -> mapM f l = Ok (map g l).
Proof.
  induction l as [| a l IH]; intros H; simpl.
  - reflexivity.
  - rewrite (H a (or_introl eq_refl)). simpl.
    rewrite IH by (intros b Hb; apply H; right; exact Hb). reflexivity.
Qed.

Lemma mapM_length {A B : Type} (f : A -> result B) (l : list A) (bs : list B) :
  mapM f l = Ok bs -> length bs = length l.
Proof.
  revert bs. induction l as [| a l IH]; simpl; intros bs H.
  - inversion H. reflexivity.
  - bind_as H b Eb. bind_as H bs' Ebs. inversion H. simpl.
    rewrite (IH bs' Ebs). reflexivity.
Qed.

Lemma norm_index_nonneg (n : nat) (k : Z) :
  0 <= k < Z.of_nat n -> norm_index n k = Ok (Z.to_nat k).
Proof.
  intros [H1 H2]. unfold norm_index.
  apply Z.leb_le in H1. apply Z.ltb_lt in H2. rewrite H1, H2. reflexivity.
Qed.

Lemma In_range (n i : Z) : In i (range n) -> 0 <= i < n.
Proof.
  unfold range. intros H. apply in_map_iff in H. destruct H as [k [Hk Hin]].
  apply in_seq in Hin. lia.
Qed.

Lemma length_range (n : Z) : length (range n) = Z.to_nat n.
Proof. unfold range. rewrite length_map, length_seq. reflexivity. Qed.

Lemma flat_map_const {A B : Type} (bd : list B) (l : list A) :
  flat_map (fun _ => bd) l = repeat_list (length l) bd.
Proof. induction l as [| a l IH]; simpl; [| rewrite IH]; reflexivity. Qed.

Lemma length_repeat_list {A : Type} (n : nat) (l : list A) :
  length (repeat_list n l) = (n * length l)%nat.
Proof. induction n as [| n IH]; simpl; [| rewrite length_app, IH]; reflexivity. Qed.

Lemma map_flat_map {A B C : Type} (f : A -> list B) (g : B -> C) (l : list A) :
  map g (flat_map f l) = flat_map (fun a => map g (f a)) l.
Proof.
  induction l as [| a l IH]; simpl; [| rewrite map_app, IH]; reflexivity.
Qed.

Lemma length_flat_map_const {A B : Type} (f : A -> list B) (n : nat) (l : list A) :
  (forall a, length (f a) = n) -> length (flat_map f l) = (length l * n)%nat.
Proof.
  intros H. induction l as [| a l IH]; simpl; [| rewrite length_app, H, IH]; reflexivity.
Qed.

Lemma tile1_nonneg (l : list Qc) (n : Z) :
  0 <= n -> tile1 l n = Ok (spec_bounds l n).
Proof.
  intros H. unfold tile1, spec_bounds.
  destruct (n <? 0) eqn:E; [apply Z.ltb_lt in E; lia |].
  simpl. rewrite flat_map_const, length_range. reflexivity.
Qed.

(** Selecting rows that exist returns them in the order asked for. *)
Lemma take_rows_Ok (a : ndarray) (idx : list Z) :
  (forall k, In k idx -> 0 <= k < Z.of_nat (nrows a)) ->
  take_rows a idx
  = Ok (mk_nd (ncols a) (map (fun k => nth (Z.to_nat k) (rows a) []) idx)).
Proof.
  intros H. unfold take_rows.
  rewrite (mapM_Ok _ (fun k => nth (Z.to_nat k) (rows a) [])).
  - reflexivity.
  - intros k Hk. rewrite (norm_index_nonneg _ _ (H k Hk)). reflexivity.
Qed.

Lemma getitem_Ok {V : Type} (d : dict V) (k : string) (v : V) :
  lookup k d = Some v -> getitem (Some d) k = Ok v.
Proof. intros H. unfold getitem. rewrite H. reflexivity. Qed.

Lemma lookup_bound_of (bd : dict (list Qc)) (k : string) :
  lookup k bd <> None -> lookup k bd = Some (bound_of bd k).
Proof. unfold bound_of. destruct (lookup k bd); [reflexivity | intros H; contradiction]. Qed.

Lemma ineq_entry_Ok (self : deepctools) (bd : dict (list Qc))
    (varname : string) (idx : list Z) :
  0 <= Np self ->
  entry_ok self bd (varname, idx) ->
  ineq_entry self (Some bd) varname idx
  = Ok (mk_nd (ncols (fst (base_of self varname)))
          (spec_rows (fst (base_of self varname)) (snd (base_of self varname))
             (Np self) idx),
        spec_bounds (bound_of bd (lb_key varname)) (Np self),
        spec_bounds (bound_of bd (ub_key varname)) (Np self)).
Proof.
  intros HNp [Hk [Hlb [Hub Hidx]]].
  assert (E : forall base dim,
             base_of self varname = (base, dim) ->
             take_rows base
               (flat_map (fun i => map (fun v => v + i * dim) idx) (range (Np self)))
             = Ok (mk_nd (ncols base) (spec_rows base dim (Np self) idx))).
  { intros base dim Hb. rewrite Hb in Hidx. simpl in Hidx.
    rewrite take_rows_Ok.
    - unfold spec_rows. rewrite map_flat_map. f_equal. f_equal.
      induction (range (Np self)) as [| i l IH]; simpl; [reflexivity |].
      rewrite map_map, IH. reflexivity.
    - intros k Hin. apply in_flat_map in Hin. destruct Hin as [i [Hi Hin]].
      apply in_map_iff in Hin. destruct Hin as [v [Hv Hin]]. subst k.
      apply Hidx; [apply In_range; exact Hi | exact Hin]. }
  apply lookup_bound_of in Hlb. apply lookup_bound_of in Hub.
  unfold ineq_entry.
  destruct Hk as [Hk | Hk]; subst varname.
  - change (lb_key "u") with "lbu" in *. change (ub_key "u") with "ubu" in *.
    simpl String.eqb. cbv iota.
    rewrite (getitem_Ok _ _ _ Hlb), (getitem_Ok _ _ _ Hub). simpl bind.
    rewrite (E (Uf self) (u_dim self) eq_refl). simpl bind.
    rewrite !tile1_nonneg by exact HNp. reflexivity.
  - change (lb_key "y") with "lby" in *. change (ub_key "y") with "uby" in *.
    simpl String.eqb. cbv iota.
    rewrite (getitem_Ok _ _ _ Hlb), (getitem_Ok _ _ _ Hub). simpl bind.
    rewrite (E (Yf self) (y_dim self) eq_refl). simpl bind.
    rewrite !tile1_nonneg by exact HNp. reflexivity.
Qed.

Lemma ineq_loop_Ok (self : deepctools) (bd : dict (list Qc)) (items : dict (list Z)) :
  0 <= Np self ->
  Forall (entry_ok self bd) items ->
  ineq_loop self (Some bd) items
  = Ok (map (fun it => mk_nd (ncols (fst (base_of self (fst it))))
                         (spec_rows (fst (base_of self (fst it)))
                            (snd (base_of self (fst it))) (Np self) (snd it))) items,
        map (fun it => spec_bounds (bound_of bd (lb_key (fst it))) (Np self)) items,
        map (fun it => spec_bounds (bound_of bd (ub_key (fst it))) (Np self)) items).
Proof.
  intros HNp H. induction H as [| [varname idx] items Hit Hall IH]; simpl.
  - reflexivity.
  - rewrite (ineq_entry_Ok _ _ _ _ HNp Hit). simpl. rewrite IH. reflexivity.
Qed.

Lemma concatenate_same_cols (n : nat) (l : list ndarray) :
  l <> [] -> Forall (fun a => ncols a = n) l ->
  concatenate l = Ok (mk_nd n (concat (map rows l))).
Proof.
  intros Hne H. destruct l as [| a l']; [contradiction |].
  inversion H as [| a' l'' Ha Hl]; subst. unfold concatenate.
  assert (E : forallb (fun b => Nat.eqb (ncols b) (ncols a)) l' = true).
  { apply forallb_forall. intros b Hb. rewrite Forall_forall in Hl.
    rewrite (Hl b Hb). apply Nat.eqb_refl. }
  rewrite E. reflexivity.
Qed.

Lemma base_of_cols (self : deepctools) (varname : string) :
  ncols (Uf self) = ncols (Yf self) ->
  ncols (fst (base_of self varname)) = ncols (Uf self).
Proof.
  intros H. unfold base_of. destruct (String.eqb varname "u"); simpl; auto.
Qed.

(** C5: for a specification whose entries are recognised ([u] with base
    matrix Uf and dim = u_dim, [y] with Yf and y_dim), with bounds given and
    selected rows present, [_init_ineq_cons] returns as Hc the rows
    [v + i * dim] of the base matrix for each step i in [0, Np) and each
    requested index v, entry after entry, and as lbc / ubc the bounds of
    each entry repeated Np times in step order; one constrained component
    gives exactly Np rows and Np copies of its bound. *)
Theorem init_ineq_cons_rows (self : deepctools) (bd : dict (list Qc))
    (items : dict (list Z)) :
  items <> [] ->
  0 <= Np self ->
  ncols (Uf self) = ncols (Yf self) ->
  Forall (entry_ok self bd) items ->
  _init_ineq_cons self (Some items) (Some bd)
  = Ok (HcArray
          (mk_nd (ncols (Uf self))
             (flat_map (fun it => spec_rows (fst (base_of self (fst it)))
                                    (snd (base_of self (fst it))) (Np self) (snd it))
                       items)),
        flat_map (fun it => spec_bounds (bound_of bd (lb_key (fst it))) (Np self)) items,
        flat_map (fun it => spec_bounds (bound_of bd (ub_key (fst it))) (Np self)) items)
  /\ (forall base dim v lo,
        length (spec_rows base dim (Np self) [v]) = Z.to_nat (Np self) /\
        spec_bounds [lo] (Np self) = repeat lo (Z.to_nat (Np self))).
Proof.
  intros Hne HNp Hcols Hall. split.
  - unfold _init_ineq_cons. rewrite (ineq_loop_Ok _ _ _ HNp Hall). simpl bind.
    rewrite (concatenate_same_cols (ncols (Uf self))).
    + simpl bind.
      destruct items as [| it items']; [contradiction |].
      simpl concatenate1. simpl bind.
      rewrite !flat_map_concat_map, !map_map. simpl. reflexivity.
    + destruct items; [contradiction | discriminate].
    + apply Forall_forall. intros a Ha. apply in_map_iff in Ha.
      destruct Ha as [it [Hit _]]. subst a. simpl. apply base_of_cols, Hcols.
  - intros base dim v lo. split.
    + unfold spec_rows.
      rewrite (length_flat_map_const _ 1%nat) by reflexivity.
      rewrite length_range. lia.
    + unfold spec_bounds. rewrite flat_map_const, length_range.
      induction (Z.to_nat (Np self)) as [| n IH]; simpl; [| rewrite IH]; reflexivity.
Qed.

(** ** Shapes of the results of the array operations *)

Lemma matmul_shape (a b c : ndarray) :
  matmul a b = Ok c -> nrows c = nrows a /\ ncols c = ncols b.
Proof.
  unfold matmul. destruct (Nat.eqb _ _); [| discriminate].
  intros H. inversion H. unfold nrows. simpl. rewrite length_map. auto.
Qed.

Lemma length_zip_rows (f : Qc -> Qc -> Qc) (a b : list (list Qc)) :
  length a = length b -> length (zip_rows f a b) = length a.
Proof.
  revert b. induction a as [| r a IH]; intros [| s b] H; simpl in *;
    try reflexivity; try discriminate.
  rewrite IH by lia. reflexivity.
Qed.

Lemma pointwise_shape (f : Qc -> Qc -> Qc) (a b c : ndarray) :
  pointwise f a b = Ok c ->
  nrows a = nrows b /\ nrows c = nrows a /\ ncols c = ncols a.
Proof.
  unfold pointwise.
  destruct (Nat.eqb (nrows a) (nrows b)) eqn:E1; [| discriminate].
  destruct (Nat.eqb (ncols a) (ncols b)) eqn:E2; [| discriminate].
  simpl. intros H. inversion H. apply Nat.eqb_eq in E1.
  unfold nrows in *. simpl. rewrite length_zip_rows by exact E1. auto.
Qed.

Lemma concatenate_rows (l : list ndarray) (c : ndarray) :
  concatenate l = Ok c -> rows c = concat (map rows l).
Proof.
  unfold concatenate. destruct l as [| a l']; [discriminate |].
  destruct (forallb _ _); [| discriminate].
  intros H. inversion H. reflexivity.
Qed.

Lemma nrows_zeros (m n : nat) : nrows (zeros m n) = m.
Proof. unfold nrows, zeros. simpl. apply repeat_length. Qed.

Lemma Hc_times_shape (self : deepctools) (g c : ndarray) :
  Hc_times self g = Ok c -> nrows c = Hc_rows (Hc self).
Proof.
  unfold Hc_times, Hc_rows. destruct (Hc self); [discriminate |].
  intros H. apply matmul_shape in H. tauto.
Qed.

(** One history-matching block: [cs.mtimes(P, g) - ini]. *)
Lemma match_block_rows (P g ini Pg e : ndarray) :
  matmul P g = Ok Pg -> nd_sub Pg ini = Ok e ->
  nrows e = nrows P /\ nrows ini = nrows P.
Proof.
  intros H1 H2. apply matmul_shape in H1. apply pointwise_shape in H2.
  destruct H1 as [H1 _]. destruct H2 as [H2 [H3 _]]. lia.
Qed.

(** The structure of an evaluated constraint stack of the standard
    design. *)
Lemma DeePC_constraints_Ok (self : deepctools) (g uini yini c : ndarray) :
  DeePC_constraints self g uini yini = Ok c ->
  exists Upg eu Ypg ey hc,
    matmul (Up self) g = Ok Upg /\ nd_sub Upg uini = Ok eu /\
    matmul (Yp self) g = Ok Ypg /\ nd_sub Ypg yini = Ok ey /\
    Hc_times self g = Ok hc /\
    rows c = rows eu ++ rows ey ++ rows hc /\
    nrows eu = nrows (Up self) /\ nrows uini = nrows (Up self) /\
    nrows ey = nrows (Yp self) /\ nrows yini = nrows (Yp self) /\
    nrows hc = Hc_rows (Hc self).
Proof.
  unfold DeePC_constraints. intros H.
  bind_as H Upg E1. bind_as H eu E2. bind_as H Ypg E3. bind_as H ey E4.
  bind_as H hc E5.
  exists Upg, eu, Ypg, ey, hc.
  destruct (match_block_rows _ _ _ _ _ E1 E2) as [A1 A2].
  destruct (match_block_rows _ _ _ _ _ E3 E4) as [A3 A4].
  apply concatenate_rows in H. simpl in H. rewrite app_nil_r in H.
  repeat split; try assumption. apply (Hc_times_shape _ _ _ E5).
Qed.

(** The same for the robust design. *)
Lemma RDeePC_constraints_Ok (self : deepctools) (g uini yini c : ndarray) :
  RDeePC_constraints self g uini yini = Ok c ->
  exists Upg eu hc,
    matmul (Up self) g = Ok Upg /\ nd_sub Upg uini = Ok eu /\
    Hc_times self g = Ok hc /\
    rows c = rows eu ++ rows hc /\
    nrows eu = nrows (Up self) /\ nrows uini = nrows (Up self) /\
    nrows hc = Hc_rows (Hc self).
Proof.
  unfold RDeePC_constraints. intros H.
  bind_as H Upg E1. bind_as H eu E2. bind_as H hc E5.
  exists Upg, eu, hc.
  destruct (match_block_rows _ _ _ _ _ E1 E2) as [A1 A2].
  apply concatenate_rows in H. simpl in H. rewrite app_nil_r in H.
  repeat split; try assumption. apply (Hc_times_shape _ _ _ E5).
Qed.

(** A successful [build] of the constraint stack fixes the row counts of
    [Up] and [Yp] to those of the declared parameters. *)
Lemma build_DeePC_constraints (self : deepctools) :
  build self (DeePC_constraints self) = Ok tt ->
  nrows (Up self) = uini_rows self /\ nrows (Yp self) = yini_rows self.
Proof.
  unfold build. intros H. bind_as H c E.
  destruct (DeePC_constraints_Ok _ _ _ _ _ E)
    as [Upg [eu [Ypg [ey [hc [_ [_ [_ [_ [_ [_ [_ [A2 [_ [A4 _]]]]]]]]]]]]]]].
  rewrite nrows_zeros in A2, A4. auto.
Qed.

Lemma build_RDeePC_constraints (self : deepctools) :
  build self (RDeePC_constraints self) = Ok tt ->
  nrows (Up self) = uini_rows self.
Proof.
  unfold build. intros H. bind_as H c E.
  destruct (RDeePC_constraints_Ok _ _ _ _ _ E)
    as [Upg [eu [hc [_ [_ [_ [_ [_ [A2 _]]]]]]]]].
  rewrite nrows_zeros in A2. auto.
Qed.

(** ** Inversion of a successful formulation *)

Lemma is_ok_constructed (m : result deepctools) :
  is_ok m = true -> m = Ok (constructed m).
Proof. destruct m; simpl; [reflexivity | discriminate]. Qed.

Lemma build_Ok (self : deepctools)
    (e : ndarray -> ndarray -> ndarray -> result ndarray) (u : unit) :
  build self e = Ok u -> build self e = Ok tt.
Proof. destruct u. auto. Qed.

Lemma cs_nlpsol_Ok (prob handle : nlp_prob) :
  cs_nlpsol prob = Ok handle ->
  handle = prob /\ nlpsol_new prob (nlp_opts prob) = None.
Proof.
  unfold cs_nlpsol. destruct (nlpsol_new prob (nlp_opts prob)); [discriminate |].
  intros H. inversion H. auto.
Qed.

Lemma init_DeePCsolver_Ok (self self' : deepctools) (uloss : string) (opts : dict Qc) :
  init_DeePCsolver self uloss opts = Ok self' ->
  exists obj,
    DeePC_objective self uloss = Ok obj /\
    build self (DeePC_constraints self) = Ok tt /\
    self' = set_solver self (mk_nlp obj (DeePC_constraints self) opts)
              (repeat 0%Qc (uini_rows self) ++ repeat 0%Qc (yini_rows self)
               ++ lbc_ineq self)
              (repeat 0%Qc (uini_rows self) ++ repeat 0%Qc (yini_rows self)
               ++ ubc_ineq self).
Proof.
  unfold init_DeePCsolver. intros H.
  destruct (negb (uloss_known uloss)); [discriminate |].
  destruct (_ <=? _); [discriminate |].
  bind_as H obj Eo. bind_as H u1 E1. bind_as H u2 E2. bind_as H h Eh.
  apply cs_nlpsol_Ok in Eh. destruct Eh as [Eh _]. subst h.
  exists obj. inversion H. split; [exact Eo | split; [| reflexivity]].
  exact (build_Ok _ _ _ E2).
Qed.

Lemma init_RDeePCsolver_Ok (self self' : deepctools) (uloss : string) (opts : dict Qc) :
  init_RDeePCsolver self uloss opts = Ok self' ->
  exists obj lg ly,
    lambda_g self = Some lg /\ lambda_y self = Some ly /\
    RDeePC_objective self lg ly uloss = Ok obj /\
    build self (RDeePC_constraints self) = Ok tt /\
    self' = set_solver self (mk_nlp obj (RDeePC_constraints self) opts)
              (repeat 0%Qc (uini_rows self) ++ lbc_ineq self)
              (repeat 0%Qc (uini_rows self) ++ ubc_ineq self).
Proof.
  unfold init_RDeePCsolver. intros H.
  destruct (negb (uloss_known uloss)); [discriminate |].
  destruct (lambda_g self) as [lg |]; [| discriminate].
  destruct (lambda_y self) as [ly |]; [| discriminate].
  destruct (_ <=? _); [discriminate |].
  bind_as H obj Eo. bind_as H u1 E1. bind_as H u2 E2. bind_as H h Eh.
  apply cs_nlpsol_Ok in Eh. destruct Eh as [Eh _]. subst h.
  exists obj, lg, ly. inversion H.
  repeat split; try assumption. exact (build_Ok _ _ _ E2).
Qed.

(** ** Lengths of the inequality rows and bounds *)

Lemma tile1_length (l t : list Qc) (n : Z) :
  tile1 l n = Ok t -> length t = (Z.to_nat n * length l)%nat.
Proof.
  unfold tile1. destruct (_ && _); [discriminate |].
  intros H. inversion H. apply length_repeat_list.
Qed.

Lemma take_rows_nrows (a b : ndarray) (idx : list Z) :
  take_rows a idx = Ok b -> nrows b = length idx.
Proof.
  unfold take_rows. intros H. bind_as H rs E. inversion H.
  unfold nrows. simpl. exact (mapM_length _ _ _ E).
Qed.

Lemma getitem_bound_of (bd : dict (list Qc)) (k : string) (l : list Qc) :
  getitem (Some bd) k = Ok l -> l = bound_of bd k.
Proof.
  unfold getitem, bound_of. destruct (lookup k bd); [| discriminate].
  intros H. inversion H. reflexivity.
Qed.

Lemma ineq_entry_lengths (self : deepctools) (bd : dict (list Qc))
    (varname : string) (idx : list Z) (H : ndarray) (l u : list Qc) :
  ineq_entry self (Some bd) varname idx = Ok (H, l, u) ->
  nrows H = (Z.to_nat (Np self) * length idx)%nat /\
  length l = (Z.to_nat (Np self) * length (bound_of bd (lb_key varname)))%nat /\
  length u = (Z.to_nat (Np self) * length (bound_of bd (ub_key varname)))%nat.
Proof.
  unfold ineq_entry, lb_key, ub_key. intros E.
  bind_as E quad Equad. destruct quad as [[[H_all dim] lb] ub].
  bind_as E Hsel Es. bind_as E lbt El. bind_as E ubt Eu.
  inversion E; subst. clear E.
  apply take_rows_nrows in Es. apply tile1_length in El. apply tile1_length in Eu.
  rewrite (length_flat_map_const _ (length idx)) in Es
    by (intros i; apply length_map).
  rewrite length_range in Es.
  destruct (String.eqb varname "u").
  - bind_as Equad lb' E1. bind_as Equad ub' E2. inversion Equad; subst.
    apply getitem_bound_of in E1. apply getitem_bound_of in E2. subst. auto.
  - destruct (String.eqb varname "y"); [| discriminate].
    bind_as Equad lb' E1. bind_as Equad ub' E2. inversion Equad; subst.
    apply getitem_bound_of in E1. apply getitem_bound_of in E2. subst. auto.
Qed.

Lemma ineq_loop_lengths (self : deepctools) (bd : dict (list Qc))
    (items : dict (list Z)) (Hs : list ndarray) (ls us : list (list Qc)) :
  consistent items bd ->
  ineq_loop self (Some bd) items = Ok (Hs, ls, us) ->
  length (concat (map rows Hs)) = length (concat ls) /\
  length (concat (map rows Hs)) = length (concat us).
Proof.
  intros Hc. revert Hs ls us.
  induction Hc as [| [varname idx] items [Hl Hu] Hall IH]; simpl; intros Hs ls us E.
  - inversion E. simpl. auto.
  - bind_as E trip Et. destruct trip as [[Hsel lbt] ubt].
    bind_as E rest Er. destruct rest as [[Hs' ls'] us'].
    inversion E; subst. clear E. simpl.
    destruct (ineq_entry_lengths _ _ _ _ _ _ _ Et) as [A [B C]].
    destruct (IH _ _ _ Er) as [D1 D2].
    rewrite !length_app. unfold nrows in A. lia.
Qed.

(** With a consistent specification, [_init_ineq_cons] returns as many
    lower bounds and as many upper bounds as rows of Hc. *)
Lemma init_ineq_cons_lengths (self : deepctools) (bd : dict (list Qc))
    (items : dict (list Z)) (hc : hc_value) (l u : list Qc) :
  consistent items bd ->
  _init_ineq_cons self (Some items) (Some bd) = Ok (hc, l, u) ->
  Hc_rows hc = length l /\ Hc_rows hc = length u.
Proof.
  intros Hc E. unfold _init_ineq_cons in E.
  bind_as E trip Et. destruct trip as [[hc' l'] u'].
  bind_as Et lists El. destruct lists as [[Hs ls] us].
  bind_as Et a Ea. bind_as Et lc Elc. bind_as Et uc Euc.
  inversion Et; subst. clear Et. simpl in E. inversion E; subst. clear E.
  destruct (ineq_loop_lengths _ _ _ _ _ _ Hc El) as [D1 D2].
  apply concatenate_rows in Ea.
  unfold concatenate1 in Elc, Euc.
  destruct ls; [discriminate |]. destruct us; [discriminate |].
  inversion Elc. inversion Euc. subst.
  unfold Hc_rows, nrows. rewrite Ea. auto.
Qed.

(** ** The bound lists against the constraint stack *)

(** C10, amended: for an object constructed from a consistent constraint
    specification (one lower and one upper bound per constrained
    component), after a successful formulation the lists lbc and ubc have
    one length, which is the number of rows of the constraint stack:
    u_dim * Tini + y_dim * Tini equality rows in the standard design,
    u_dim * Tini in the robust design, plus the rows of Hc. *)
Theorem bound_lengths_consistent nu ny nT nTini nNp ys0 ud yd Q0 R0 us0 lg0 ly0
    (idx : dict (list Z)) (bd : dict (list Qc)) (self self' : deepctools)
    (uloss : string) (opts : dict Qc) :
  __init__ nu ny nT nTini nNp ys0 ud yd Q0 R0 us0 lg0 ly0 (Some idx) (Some bd)
  = Ok self ->
  consistent idx bd ->
  (init_DeePCsolver self uloss opts = Ok self' ->
   exists l u prob,
     lbc self' = Some l /\ ubc self' = Some u /\ solver self' = Some prob /\
     length l = length u /\
     length l = (Z.to_nat (u_dim self * Tini self)
                 + Z.to_nat (y_dim self * Tini self) + Hc_rows (Hc self))%nat /\
     forall g uini yini c, nlp_g prob g uini yini = Ok c -> nrows c = length l) /\
  (init_RDeePCsolver self uloss opts = Ok self' ->
   exists l u prob,
     lbc self' = Some l /\ ubc self' = Some u /\ solver self' = Some prob /\
     length l = length u /\
     length l = (Z.to_nat (u_dim self * Tini self) + Hc_rows (Hc self))%nat /\
     forall g uini yini c, nlp_g prob g uini yini = Ok c -> nrows c = length l).
Proof.
  intros Hinit Hcons.
  destruct (init_Ok _ _ _ _ _ _ _ _ _ _ _ _ _ _ _ _ Hinit)
    as [a [self0 [_ [_ [_ [_ Hineq]]]]]].
  destruct (init_ineq_cons_lengths _ _ _ _ _ _ Hcons Hineq) as [L1 L2].
  split; intros H.
  - destruct (init_DeePCsolver_Ok _ _ _ _ H) as [obj [Eo [Eb Es]]]. subst self'.
    destruct (build_DeePC_constraints _ Eb) as [Ru Ry].
    eexists. eexists. eexists.
    split; [reflexivity |]. split; [reflexivity |]. split; [reflexivity |].
    unfold uini_rows, yini_rows in *.
    rewrite !length_app, !repeat_length.
    split; [lia | split; [lia |]].
    simpl. intros g uini yini c Hc.
    destruct (DeePC_constraints_Ok _ _ _ _ _ Hc)
      as [Upg [eu [Ypg [ey [hc [_ [_ [_ [_ [_ [A6 [A7 [_ [A8 [_ A9]]]]]]]]]]]]]]].
    unfold nrows in *. rewrite A6, !length_app. lia.
  - destruct (init_RDeePCsolver_Ok _ _ _ _ H)
      as [obj [lg [ly [_ [_ [Eo [Eb Es]]]]]]]. subst self'.
    pose proof (build_RDeePC_constraints _ Eb) as Ru.
    eexists. eexists. eexists.
    split; [reflexivity |]. split; [reflexivity |]. split; [reflexivity |].
    unfold uini_rows in *.
    rewrite !length_app, !repeat_length.
    split; [lia | split; [lia |]].
    simpl. intros g uini yini c Hc.
    destruct (RDeePC_constraints_Ok _ _ _ _ _ Hc)
      as [Upg [eu [hc [_ [_ [_ [A6 [A7 [_ A9]]]]]]]]].
    unfold nrows in *. rewrite A6, !length_app. lia.
Qed.

(** ** The unary minus of the objectives *)

Lemma dot_opp (r c : list Qc) : dot (map Qcopp r) c = (- dot r c)%Qc.
Proof.
  revert c. induction r as [| x r IH]; intros [| y c]; simpl;
    try (rewrite IH); ring.
Qed.

(** A unary minus on the left factor of a product moves to the product. *)
Lemma matmul_neg (a b : ndarray) :
  matmul (nd_neg a) b = (c <- matmul a b ;; Ok (nd_neg c)).
Proof.
  unfold matmul. simpl. unfold nrows.
  destruct (Nat.eqb (ncols a) (length (rows b))); simpl; [| reflexivity].
  unfold nd_neg, nd_map. simpl. f_equal. f_equal.
  rewrite !map_map. apply map_ext. intros r.
  rewrite map_map. apply map_ext. intros j. apply dot_opp.
Qed.

Lemma neg_tmm_tmm (A W b : ndarray) :
  neg_tmm A W b = (c <- tmm A W b ;; Ok (nd_neg c)).
Proof.
  unfold neg_tmm, tmm. rewrite matmul_neg.
  destruct (matmul (transpose A) W) as [AW | e]; simpl; [| reflexivity].
  apply matmul_neg.
Qed.

(** * Further properties of the code *)

(** ** What a successful construction establishes *)

(** [_init_ineq_cons] reads only [Uf], [Yf], [u_dim], [y_dim] and [Np]. *)
Lemma init_ineq_cons_fields (s1 s2 : deepctools) ineqconidx ineqconbd :
  Uf s1 = Uf s2 -> Yf s1 = Yf s2 -> u_dim s1 = u_dim s2 ->
  y_dim s1 = y_dim s2 -> Np s1 = Np s2 ->
  _init_ineq_cons s1 ineqconidx ineqconbd = _init_ineq_cons s2 ineqconidx ineqconbd.
Proof.
  intros HU HY Hu Hy HN. unfold _init_ineq_cons.
  destruct ineqconidx as [items |]; [| reflexivity].
  assert (E : ineq_loop s1 ineqconbd items = ineq_loop s2 ineqconbd items).
  { induction items as [| [varname idx] items IH]; simpl; [reflexivity |].
    unfold ineq_entry. rewrite HU, HY, Hu, Hy, HN, IH. reflexivity. }
  rewrite E. reflexivity.
Qed.

(** Full inversion of [__init__]: the object returned is the record built
    in the body, every step of which succeeded. *)
Lemma init_inv nu ny nT nTini nNp ys0 ud yd Q0 R0 us0 lg ly
    ineqconidx ineqconbd (self : deepctools) :
  __init__ nu ny nT nTini nNp ys0 ud yd Q0 R0 us0 lg ly ineqconidx ineqconbd
  = Ok self ->
  exists a yref_t uref' Hud' Hyd' hc lb ub,
    us0 = Some a /\
    tile_rows ys0 nNp = Ok yref_t /\
    (if nd_any a then t <- tile_rows a nNp ;; Ok (Some (reshape_col t))
     else Ok None) = Ok uref' /\
    hankel ud (nTini + nNp) = Ok Hud' /\
    hankel yd (nTini + nNp) = Ok Hyd' /\
    self = mk_self nu ny nT nTini nNp (nT - nTini - nNp + 1) Q0 R0 lg ly
             (Some a) ys0 (reshape_col yref_t) uref' Hud' Hyd'
             (rows_to (nu * nTini) Hud') (rows_from (nu * nTini) Hud')
             (rows_to (ny * nTini) Hyd') (rows_from (ny * nTini) Hyd')
             hc lb ub None None None /\
    _checkvar self = Ok tt /\
    _init_ineq_cons self ineqconidx ineqconbd = Ok (hc, lb, ub).
Proof.
  unfold __init__. intros H.
  bind_as H yref_t Ey. bind_as H nonzero En.
  destruct us0 as [a |]; [| discriminate]. simpl in En. inversion En; subst nonzero.
  bind_as H uref' Eu. bind_as H Hud' EHu. bind_as H Hyd' EHy.
  bind_as H chk Ec. bind_as H trip Ei.
  destruct trip as [[hc lb] ub]. inversion H; subst self. clear H.
  destruct chk.
  exists a, yref_t, uref', Hud', Hyd', hc, lb, ub.
  split; [reflexivity |]. split; [exact Ey |]. split; [exact Eu |].
  split; [exact EHu |]. split; [exact EHy |]. split; [reflexivity |].
  split; [exact Ec |].
  rewrite <- Ei. apply init_ineq_cons_fields; reflexivity.
Qed.

Lemma checkshape_Some (a : ndarray) (s : Z * Z) (u : unit) :
  _checkshape (Some a) s = Ok u -> shape a = s.
Proof.
  unfold _checkshape. destruct s as [m n]. simpl fst. simpl snd.
  destruct (Z.of_nat (nrows a) =? m) eqn:E1; [| discriminate].
  destruct (Z.of_nat (ncols a) =? n) eqn:E2; [| discriminate].
  intros _. apply Z.eqb_eq in E1. apply Z.eqb_eq in E2.
  unfold shape. congruence.
Qed.

Lemma checkshape_option (x : option ndarray) (s : Z * Z) (u : unit) :
  _checkshape x s = Ok u -> forall a, x = Some a -> shape a = s.
Proof. intros H a Hx. subst x. exact (checkshape_Some _ _ _ H). Qed.

(** The shapes that [_checkvar] lets through. *)
Lemma checkvar_Ok (self : deepctools) :
  _checkvar self = Ok tt ->
  shape (Up self) = (u_dim self * Tini self, g_dim self) /\
  shape (Yp self) = (y_dim self * Tini self, g_dim self) /\
  shape (Uf self) = (u_dim self * Np self, g_dim self) /\
  shape (Yf self) = (y_dim self * Np self, g_dim self) /\
  (forall r, uref self = Some r -> shape r = (u_dim self * Np self, 1)) /\
  shape (yref self) = (y_dim self * Np self, 1) /\
  shape (Q self) = (y_dim self * Np self, y_dim self * Np self) /\
  shape (R self) = (u_dim self * Np self, u_dim self * Np self) /\
  (forall m, lambda_g self = Some m -> shape m = (g_dim self, g_dim self)) /\
  (forall m, lambda_y self = Some m ->
     shape m = (y_dim self * Tini self, y_dim self * Tini self)).
Proof.
  unfold _checkvar. intros H.
  bind_as H c1 E1. bind_as H c2 E2. bind_as H c3 E3. bind_as H c4 E4.
  bind_as H c5 E5. bind_as H c6 E6. bind_as H c7 E7. bind_as H c8 E8.
  bind_as H c9 E9.
  repeat split;
    first [ eapply checkshape_Some; eassumption
          | eapply checkshape_option; eassumption ].
Qed.

(** X1: an object returned by [__init__] has g_dim = T - Tini - Np + 1,
    every data matrix and weight has the shape of the table of
    [_checkvar], and no solver or bound list is stored yet. *)
Theorem init_shapes nu ny nT nTini nNp ys0 ud yd Q0 R0 us0 lg ly
    ineqconidx ineqconbd (self : deepctools) :
  __init__ nu ny nT nTini nNp ys0 ud yd Q0 R0 us0 lg ly ineqconidx ineqconbd
  = Ok self ->
  g_dim self = nT - nTini - nNp + 1 /\
  shape (Up self) = (nu * nTini, g_dim self) /\
  shape (Yp self) = (ny * nTini, g_dim self) /\
  shape (Uf self) = (nu * nNp, g_dim self) /\
  shape (Yf self) = (ny * nNp, g_dim self) /\
  (forall r, uref self = Some r -> shape r = (nu * nNp, 1)) /\
  shape (yref self) = (ny * nNp, 1) /\
  shape Q0 = (ny * nNp, ny * nNp) /\
  shape R0 = (nu * nNp, nu * nNp) /\
  (forall m, lg = Some m -> shape m = (g_dim self, g_dim self)) /\
  (forall m, ly = Some m -> shape m = (ny * nTini, ny * nTini)) /\
  solver self = None /\ lbc self = None /\ ubc self = None.
Proof.
  intros H.
  destruct (init_inv _ _ _ _ _ _ _ _ _ _ _ _ _ _ _ _ H)
    as [a [yref_t [uref' [Hud' [Hyd' [hc [lb [ub
         [_ [_ [_ [_ [_ [Es [Ec _]]]]]]]]]]]]]]].
  apply checkvar_Ok in Ec. subst self. simpl in *.
  destruct Ec as [A1 [A2 [A3 [A4 [A5 [A6 [A7 [A8 [A9 A10]]]]]]]]].
  repeat split; assumption.
Qed.

Lemma slice_to_from {A : Type} (k : Z) (l : list A) :
  slice_to k l ++ slice_from k l = l.
Proof. unfold slice_to, slice_from. apply firstn_skipn. Qed.

(** X2: in a constructed object the past and future blocks partition the
    Hankel matrices: the rows of Up followed by those of Uf are the rows of
    Hud, and likewise for Yp, Yf and Hyd, whatever the sign or size of
    u_dim * Tini and y_dim * Tini. *)
Theorem init_blocks_partition nu ny nT nTini nNp ys0 ud yd Q0 R0 us0 lg ly
    ineqconidx ineqconbd (self : deepctools) :
  __init__ nu ny nT nTini nNp ys0 ud yd Q0 R0 us0 lg ly ineqconidx ineqconbd
  = Ok self ->
  hankel ud (nTini + nNp) = Ok (Hud self) /\
  hankel yd (nTini + nNp) = Ok (Hyd self) /\
  rows (Up self) ++ rows (Uf self) = rows (Hud self) /\
  rows (Yp self) ++ rows (Yf self) = rows (Hyd self) /\
  ncols (Up self) = ncols (Hud self) /\ ncols (Uf self) = ncols (Hud self) /\
  ncols (Yp self) = ncols (Hyd self) /\ ncols (Yf self) = ncols (Hyd self).
Proof.
  intros H.
  destruct (init_inv _ _ _ _ _ _ _ _ _ _ _ _ _ _ _ _ H)
    as [a [yref_t [uref' [Hud' [Hyd' [hc [lb [ub
         [_ [_ [_ [EHu [EHy [Es _]]]]]]]]]]]]]].
  subst self. simpl.
  repeat split; try assumption; apply slice_to_from.
Qed.

Lemma concat_repeat_list {A : Type} (n : nat) (l : list (list A)) :
  concat (repeat_list n l) = repeat_list n (concat l).
Proof.
  induction n as [| n IH]; simpl; [| rewrite concat_app, IH]; reflexivity.
Qed.

Lemma concat_singletons {A : Type} (l : list A) :
  concat (map (fun x => [x]) l) = l.
Proof. induction l as [| x l IH]; simpl; [| rewrite IH]; reflexivity. Qed.

Lemma tile_rows_Ok (a t : ndarray) (n : Z) :
  tile_rows a n = Ok t ->
  0 <= n /\ ravel (reshape_col t) = repeat_list (Z.to_nat n) (ravel a).
Proof.
  unfold tile_rows. destruct (n <? 0) eqn:E; [discriminate |].
  intros H. inversion H. apply Z.ltb_ge in E. split; [exact E |].
  unfold ravel, reshape_col. simpl.
  rewrite concat_singletons, concat_repeat_list. reflexivity.
Qed.

(** X3: in a constructed object the horizon Np is not negative, yref is a
    column holding Np copies of ys one after the other, and uref is the
    same stacking of us when us has a nonzero entry and is undefined
    otherwise. *)
Theorem init_references nu ny nT nTini nNp ys0 ud yd Q0 R0 us0 lg ly
    ineqconidx ineqconbd (self : deepctools) :
  __init__ nu ny nT nTini nNp ys0 ud yd Q0 R0 us0 lg ly ineqconidx ineqconbd
  = Ok self ->
  0 <= nNp /\
  ncols (yref self) = 1%nat /\
  ravel (yref self) = repeat_list (Z.to_nat nNp) (ravel ys0) /\
  exists a, us0 = Some a /\
    (nd_any a = true ->
     exists r, uref self = Some r /\ ncols r = 1%nat /\
               ravel r = repeat_list (Z.to_nat nNp) (ravel a)) /\
    (nd_any a = false -> uref self = None).
Proof.
  intros H.
  destruct (init_inv _ _ _ _ _ _ _ _ _ _ _ _ _ _ _ _ H)
    as [a [yref_t [uref' [Hud' [Hyd' [hc [lb [ub
         [Hus [Ey [Eu [_ [_ [Es _]]]]]]]]]]]]]].
  subst self. simpl.
  destruct (tile_rows_Ok _ _ _ Ey) as [HNp Hy].
  split; [exact HNp |]. split; [reflexivity |]. split; [exact Hy |].
  exists a. split; [exact Hus |].
  destruct (nd_any a); split; intros Hn; try discriminate.
  - bind_as Eu t Et. inversion Eu; subst uref'.
    exists (reshape_col t). split; [reflexivity |]. split; [reflexivity |].
    exact (proj2 (tile_rows_Ok _ _ _ Et)).
  - inversion Eu. reflexivity.
Qed.

(** ** What the constraint specification must look like *)

Lemma getitem_Some_inv {V : Type} (d : option (dict V)) (k : string) (v : V) :
  getitem d k = Ok v -> exists d', d = Some d' /\ lookup k d' = Some v.
Proof.
  unfold getitem. destruct d as [d' |]; [| discriminate].
  destruct (lookup k d') eqn:E; [| discriminate].
  intros H. inversion H; subst. exists d'. auto.
Qed.

(** Inversion of one successful pass through the loop body. *)
Lemma ineq_entry_inv (self : deepctools) (bdo : option (dict (list Qc)))
    (varname : string) (idx : list Z) (H : ndarray) (l u : list Qc) :
  ineq_entry self bdo varname idx = Ok (H, l, u) ->
  exists bd,
    bdo = Some bd /\ usable_entry bd (varname, idx) /\
    take_rows (fst (base_of self varname))
      (flat_map (fun i => map (fun v => v + i * snd (base_of self varname)) idx)
                (range (Np self))) = Ok H /\
    tile1 (bound_of bd (lb_key varname)) (Np self) = Ok l /\
    tile1 (bound_of bd (ub_key varname)) (Np self) = Ok u.
Proof.
  unfold ineq_entry, usable_entry, base_of, lb_key, ub_key. simpl fst.
  intros E. bind_as E quad Equad. destruct quad as [[[H_all dim] lb] ub].
  bind_as E Hsel Es. bind_as E lbt El. bind_as E ubt Eu.
  inversion E; subst. clear E.
  destruct (String.eqb varname "u") eqn:Ku.
  - bind_as Equad lb' E1. bind_as Equad ub' E2. inversion Equad; subst.
    destruct (getitem_Some_inv _ _ _ E1) as [bd [Hb L1]]. subst bdo.
    destruct (getitem_Some_inv _ _ _ E2) as [bd' [Hb' L2]]. inversion Hb'; subst bd'.
    exists bd. apply String.eqb_eq in Ku.
    unfold bound_of. rewrite L1, L2. simpl.
    repeat split; try assumption; try congruence. left; exact Ku.
  - destruct (String.eqb varname "y") eqn:Ky; [| discriminate].
    bind_as Equad lb' E1. bind_as Equad ub' E2. inversion Equad; subst.
    destruct (getitem_Some_inv _ _ _ E1) as [bd [Hb L1]]. subst bdo.
    destruct (getitem_Some_inv _ _ _ E2) as [bd' [Hb' L2]]. inversion Hb'; subst bd'.
    exists bd. apply String.eqb_eq in Ky.
    unfold bound_of. rewrite L1, L2. simpl.
    repeat split; try assumption; try congruence. right; exact Ky.
Qed.

Lemma take_rows_ncols (a b : ndarray) (idx : list Z) :
  take_rows a idx = Ok b -> ncols b = ncols a.
Proof.
  unfold take_rows. intros H. bind_as H rs E. inversion H. reflexivity.
Qed.

Lemma base_of_cases (self : deepctools) (varname : string) :
  fst (base_of self varname) = Uf self \/ fst (base_of self varname) = Yf self.
Proof. unfold base_of. destruct (String.eqb varname "u"); simpl; auto. Qed.

(** Inversion of a successful loop over a non-empty specification. *)
Lemma ineq_loop_inv (self : deepctools) (bdo : option (dict (list Qc)))
    (items : dict (list Z)) (Hs : list ndarray) (ls us : list (list Qc)) :
  items <> [] ->
  ineq_loop self bdo items = Ok (Hs, ls, us) ->
  exists bd,
    bdo = Some bd /\ Forall (usable_entry bd) items /\ Hs <> [] /\
    Forall (fun H => ncols H = ncols (Uf self) \/ ncols H = ncols (Yf self)) Hs /\
    length (concat (map rows Hs)) = (Z.to_nat (Np self) * n_indices items)%nat /\
    length (concat ls) = (Z.to_nat (Np self) * n_lower bd items)%nat /\
    length (concat us) = (Z.to_nat (Np self) * n_upper bd items)%nat.
Proof.
  revert Hs ls us.
  induction items as [| [varname idx] items IH]; intros Hs ls us Hne E;
    [contradiction |].
  simpl in E. bind_as E trip Et. destruct trip as [[Hsel lbt] ubt].
  bind_as E rest Er. destruct rest as [[Hs' ls'] us'].
  inversion E; subst. clear E.
  destruct (ineq_entry_inv _ _ _ _ _ _ _ Et) as [bd [Hbd [Hus [Etk [El Eu]]]]].
  subst bdo. exists bd. split; [reflexivity |].
  pose proof (take_rows_ncols _ _ _ Etk) as Hcols.
  pose proof (ineq_entry_lengths _ _ _ _ _ _ _ Et) as [L1 [L2 L3]].
  assert (Hc1 : ncols Hsel = ncols (Uf self) \/ ncols Hsel = ncols (Yf self)).
  { rewrite Hcols. destruct (base_of_cases self varname) as [B | B];
      rewrite B; auto. }
  unfold n_indices, n_lower, n_upper in *. simpl.
  rewrite !length_app. unfold nrows in L1.
  destruct items as [| it items'].
  - simpl in Er. inversion Er; subst. simpl.
    split; [constructor; [exact Hus | constructor] |].
    split; [discriminate |].
    split; [constructor; [exact Hc1 | constructor] |]. lia.
  - destruct (IH _ _ _ ltac:(discriminate) Er)
      as [bd' [Hbd' [Hall [_ [Hcs [M1 [M2 M3]]]]]]].
    inversion Hbd'; subst bd'.
    split; [constructor; assumption |].
    split; [discriminate |].
    split; [constructor; assumption |].
    unfold n_indices, n_lower, n_upper in M1, M2, M3.
    simpl in M1, M2, M3. rewrite !length_app in M1, M2, M3.
    simpl. rewrite !length_app. nia.
Qed.

(** Inversion of a successful [_init_ineq_cons]. *)
Lemma init_ineq_cons_inv (self : deepctools) (idx : option (dict (list Z)))
    (bdo : option (dict (list Qc))) (hc : hc_value) (l u : list Qc) :
  _init_ineq_cons self idx bdo = Ok (hc, l, u) ->
  exists items bd a,
    idx = Some items /\ items <> [] /\ bdo = Some bd /\
    Forall (usable_entry bd) items /\
    hc = HcArray a /\
    (ncols a = ncols (Uf self) \/ ncols a = ncols (Yf self)) /\
    nrows a = (Z.to_nat (Np self) * n_indices items)%nat /\
    length l = (Z.to_nat (Np self) * n_lower bd items)%nat /\
    length u = (Z.to_nat (Np self) * n_upper bd items)%nat.
Proof.
  unfold _init_ineq_cons. intros E.
  destruct idx as [items |]; [| discriminate].
  bind_as E trip Et. destruct trip as [[hc' l'] u'].
  bind_as Et lists El. destruct lists as [[Hs ls] us].
  bind_as Et a Ea. bind_as Et lc Elc. bind_as Et uc Euc.
  inversion Et; subst. clear Et. simpl in E. inversion E; subst. clear E.
  assert (Hne : items <> []).
  { intros ->. simpl in El. inversion El; subst. discriminate. }
  destruct (ineq_loop_inv _ _ _ _ _ _ Hne El)
    as [bd [Hbd [Hall [HsNe [Hcs [M1 [M2 M3]]]]]]].
  exists items, bd, a.
  pose proof (concatenate_rows _ _ Ea) as Hrows.
  unfold concatenate1 in Elc, Euc.
  destruct ls; [discriminate |]. destruct us; [discriminate |].
  inversion Elc. inversion Euc. subst.
  assert (Hca : ncols a = ncols (Uf self) \/ ncols a = ncols (Yf self)).
  { unfold concatenate in Ea. destruct Hs as [| H1 Hs']; [discriminate |].
    destruct (forallb _ _); [| discriminate]. inversion Ea. simpl.
    inversion Hcs; assumption. }
  unfold nrows. rewrite Hrows.
  repeat split; assumption.
Qed.

(** X4: [__init__] returns an object only if [ineqconidx] is a non-empty
    dictionary whose keys are all ['u'] or ['y'] and [ineqconbd] is a
    dictionary holding the lower and the upper bound list of each of them;
    [Hc] is then an array with g_dim columns. *)
Theorem init_needs_constraints nu ny nT nTini nNp ys0 ud yd Q0 R0 us0 lg ly
    ineqconidx ineqconbd (self : deepctools) :
  __init__ nu ny nT nTini nNp ys0 ud yd Q0 R0 us0 lg ly ineqconidx ineqconbd
  = Ok self ->
  exists items bd a,
    ineqconidx = Some items /\ items <> [] /\ ineqconbd = Some bd /\
    Forall (usable_entry bd) items /\
    Hc self = HcArray a /\ Z.of_nat (ncols a) = g_dim self.
Proof.
  intros H.
  destruct (init_inv _ _ _ _ _ _ _ _ _ _ _ _ _ _ _ _ H)
    as [a0 [yref_t [uref' [Hud' [Hyd' [hc [lb [ub
         [_ [_ [_ [_ [_ [Es [Ec Ei]]]]]]]]]]]]]]].
  destruct (init_ineq_cons_inv _ _ _ _ _ _ Ei)
    as [items [bd [a [Hi [Hne [Hb [Hall [Hhc [Hcols _]]]]]]]]].
  apply checkvar_Ok in Ec. destruct Ec as [_ [_ [A3 [A4 _]]]].
  exists items, bd, a.
  assert (Hhc' : Hc self = HcArray a) by (subst self; simpl; exact Hhc).
  repeat split; try assumption.
  unfold shape in A3, A4. inversion A3. inversion A4.
  destruct Hcols as [C | C]; rewrite C; congruence.
Qed.

(** X5: when [_init_ineq_cons] returns, Hc has Np rows per constrained
    component index, and lbc (ubc) has Np entries per lower (upper) bound
    given for the entries of the specification, whether or not the numbers
    of indices and of bounds agree. *)
Theorem init_ineq_cons_counts (self : deepctools) (items : dict (list Z))
    (bd : dict (list Qc)) (hc : hc_value) (l u : list Qc) :
  _init_ineq_cons self (Some items) (Some bd) = Ok (hc, l, u) ->
  Hc_rows hc = (Z.to_nat (Np self) * n_indices items)%nat /\
  length l = (Z.to_nat (Np self) * n_lower bd items)%nat /\
  length u = (Z.to_nat (Np self) * n_upper bd items)%nat.
Proof.
  intros E.
  destruct (init_ineq_cons_inv _ _ _ _ _ _ E)
    as [items' [bd' [a [Hi [_ [Hb [_ [Hhc [_ [M1 [M2 M3]]]]]]]]]]].
  inversion Hi; subst items'. inversion Hb; subst bd'. subst hc.
  simpl. auto.
Qed.

(** ** Which error a formulation raises *)

(** Closes a goal whose hypothesis [H] equates two different messages or
    puts a pre-check message among the array-operation errors. *)
Ltac msg_clash H :=
  exfalso;
  unfold op_error, op_errors, shape_error, broadcast_error,
    msg_uloss, msg_dof, msg_dof_robust, msg_lambda, msg_us in H;
  simpl in H;
  repeat (destruct H as [H | H]; try discriminate);
  try discriminate; try contradiction;
  try (destruct H as [? H]; discriminate).

Lemma DeePC_objective_Raise (self : deepctools) (uloss : string) (e : exn) :
  DeePC_objective self uloss = Raise e ->
  op_error e \/
  (e = ValueError msg_us /\ uloss = "uus" /\ uref self = None) \/
  (e = NameError "obj" /\ uloss_known uloss = false).
Proof.
  unfold DeePC_objective, uloss_known. simpl existsb.
  destruct (String.eqb uloss "u") eqn:K1.
  { intros H. left. revert e H.
    change (raises_only op_error
              (HQ <- tmm (Yf self) (Q self) (Yf self) ;;
               HR <- tmm (Uf self) (R self) (Uf self) ;;
               H <- nd_add HQ HR ;;
               f <- neg_tmm (Yf self) (Q self) (yref self) ;;
               Ok (fun g (_ _ : ndarray) => qp_obj H f g))).
    unfold tmm, neg_tmm, nd_add. raises. }
  destruct (String.eqb uloss "uus") eqn:K2.
  { destruct (uref self) as [r |] eqn:Eu.
    - intros H. left. revert e H.
      change (raises_only op_error
                (HQ <- tmm (Yf self) (Q self) (Yf self) ;;
                 HR <- tmm (Uf self) (R self) (Uf self) ;;
                 H <- nd_add HQ HR ;;
                 fy <- neg_tmm (Yf self) (Q self) (yref self) ;;
                 fu <- tmm (Uf self) (R self) r ;;
                 f <- nd_sub fy fu ;;
                 Ok (fun g (_ _ : ndarray) => qp_obj H f g))).
      unfold tmm, neg_tmm, nd_add, nd_sub. raises.
    - intros H. inversion H. right; left.
      apply String.eqb_eq in K2. auto. }
  destruct (String.eqb uloss "du") eqn:K3; [discriminate |].
  intros H. inversion H. right; right. auto.
Qed.

Lemma RDeePC_objective_Raise (self : deepctools) (lg ly : ndarray)
    (uloss : string) (e : exn) :
  RDeePC_objective self lg ly uloss = Raise e ->
  op_error e \/
  (e = ValueError msg_us /\ uloss = "uus" /\ uref self = None) \/
  (e = NameError "obj" /\ uloss_known uloss = false).
Proof.
  unfold RDeePC_objective, uloss_known. simpl existsb.
  destruct (String.eqb uloss "u") eqn:K1.
  { intros H. left.
    destruct (RDeePC_H self lg ly) eqn:EH; simpl in H; [discriminate |].
    inversion H; subst. exact (RDeePC_H_raises self lg ly _ EH). }
  destruct (String.eqb uloss "uus") eqn:K2.
  { destruct (uref self) as [r |] eqn:Eu.
    - intros H. left.
      destruct (RDeePC_H self lg ly) eqn:EH; simpl in H; [discriminate |].
      inversion H; subst. exact (RDeePC_H_raises self lg ly _ EH).
    - intros H. inversion H. right; left.
      apply String.eqb_eq in K2. auto. }
  destruct (String.eqb uloss "du") eqn:K3; [discriminate |].
  intros H. inversion H. right; right. auto.
Qed.

Lemma cs_nlpsol_Raise (prob : nlp_prob) (e : exn) :
  cs_nlpsol prob = Raise e ->
  exists msg, nlpsol_new prob (nlp_opts prob) = Some msg /\ e = RuntimeError msg.
Proof.
  unfold cs_nlpsol. destruct (nlpsol_new prob (nlp_opts prob)) as [msg |];
    [| discriminate].
  intros H. inversion H. exists msg. auto.
Qed.

Lemma build_Raise (self : deepctools)
    (f : ndarray -> ndarray -> ndarray -> result ndarray) (e : exn) :
  (forall g uini yini, raises_only op_error (f g uini yini)) ->
  build self f = Raise e -> op_error e.
Proof. intros Hf H. exact (build_raises op_error self f Hf e H). Qed.

(** Where an exception of [init_DeePCsolver] comes from. *)
Lemma init_DeePCsolver_Raise (self : deepctools) (uloss : string) (opts : dict Qc)
    (e : exn) :
  init_DeePCsolver self uloss opts = Raise e ->
  (uloss_known uloss = false /\ e = ValueError msg_uloss) \/
  (uloss_known uloss = true /\
   g_dim self <= (u_dim self + y_dim self) * Tini self /\ e = ValueError msg_dof) \/
  (uloss_known uloss = true /\
   (u_dim self + y_dim self) * Tini self < g_dim self /\
   (DeePC_objective self uloss = Raise e \/ op_error e \/
    exists msg, e = RuntimeError msg)).
Proof.
  intros H. unfold init_DeePCsolver in H.
  destruct (uloss_known uloss) eqn:Hk; simpl in H;
    [| inversion H; left; auto].
  destruct (g_dim self <=? (u_dim self + y_dim self) * Tini self) eqn:Hd.
  { inversion H. apply Z.leb_le in Hd. right; left; auto. }
  apply Z.leb_gt in Hd. right; right. split; [reflexivity |]. split; [exact Hd |].
  destruct (DeePC_objective self uloss) as [obj | e'] eqn:Eo; simpl in H.
  - right.
    apply bind_Raise in H. destruct H as [H | [u1 [_ H]]].
    + left. exact (build_Raise _ _ _ (DeePC_objective_Ok _ _ _ Eo) H).
    + apply bind_Raise in H. destruct H as [H | [u2 [_ H]]].
      * left. exact (build_Raise _ _ _ (DeePC_constraints_raises self) H).
      * apply bind_Raise in H. destruct H as [H | [h [_ H]]]; [| discriminate].
        right. destruct (cs_nlpsol_Raise _ _ H) as [msg [_ He]].
        exists msg. exact He.
  - left. inversion H. reflexivity.
Qed.

(** Where an exception of [init_RDeePCsolver] comes from. *)
Lemma init_RDeePCsolver_Raise (self : deepctools) (uloss : string) (opts : dict Qc)
    (e : exn) :
  init_RDeePCsolver self uloss opts = Raise e ->
  (uloss_known uloss = false /\ e = ValueError msg_uloss) \/
  (uloss_known uloss = true /\ (lambda_g self = None \/ lambda_y self = None) /\
   e = ValueError msg_lambda) \/
  (uloss_known uloss = true /\
   exists lg ly, lambda_g self = Some lg /\ lambda_y self = Some ly /\
     ((g_dim self <= u_dim self * Tini self /\ e = ValueError msg_dof_robust) \/
      (u_dim self * Tini self < g_dim self /\
       (RDeePC_objective self lg ly uloss = Raise e \/ op_error e \/
        exists msg, e = RuntimeError msg)))).
Proof.
  intros H. unfold init_RDeePCsolver in H.
  destruct (uloss_known uloss) eqn:Hk; simpl in H;
    [| inversion H; left; auto].
  right.
  destruct (lambda_g self) as [lg |] eqn:Hg;
    [| inversion H; left; auto].
  destruct (lambda_y self) as [ly |] eqn:Hy;
    [| inversion H; left; auto].
  right. split; [reflexivity |]. exists lg, ly.
  split; [reflexivity |]. split; [reflexivity |].
  destruct (g_dim self <=? u_dim self * Tini self) eqn:Hd.
  { inversion H. apply Z.leb_le in Hd. left. auto. }
  apply Z.leb_gt in Hd. right. split; [exact Hd |].
  destruct (RDeePC_objective self lg ly uloss) as [obj | e'] eqn:Eo; simpl in H.
  - right.
    apply bind_Raise in H. destruct H as [H | [u1 [_ H]]].
    + left. exact (build_Raise _ _ _ (RDeePC_objective_Ok _ _ _ _ _ Eo) H).
    + apply bind_Raise in H. destruct H as [H | [u2 [_ H]]].
      * left. exact (build_Raise _ _ _ (RDeePC_constraints_raises self) H).
      * apply bind_Raise in H. destruct H as [H | [h [_ H]]]; [| discriminate].
        right. destruct (cs_nlpsol_Raise _ _ H) as [msg [_ He]].
        exists msg. exact He.
  - left. inversion H. reflexivity.
Qed.

(** X6: every exception of [init_DeePCsolver] is one of five kinds, tried
    in this order: the uloss error (uloss is not ['u'], ['uus'] or ['du']),
    the degrees-of-freedom error (g_dim <= (u_dim + y_dim) * Tini), the
    missing-us error (uloss is ['uus'] and uref is undefined), an error of
    an array operation on mismatched shapes, or the RuntimeError of
    [cs.nlpsol]; [init_RDeePCsolver] has the missing-weight error between
    the first two and tests g_dim <= u_dim * Tini. *)
Theorem formulation_errors (self : deepctools) (uloss : string) (opts : dict Qc)
    (e : exn) :
  (init_DeePCsolver self uloss opts = Raise e ->
   (e = ValueError msg_uloss /\ uloss_known uloss = false) \/
   (e = ValueError msg_dof /\ uloss_known uloss = true /\
    g_dim self <= (u_dim self + y_dim self) * Tini self) \/
   (e = ValueError msg_us /\ uloss = "uus" /\ uref self = None /\
    (u_dim self + y_dim self) * Tini self < g_dim self) \/
   ((op_error e \/ exists msg, e = RuntimeError msg) /\
    uloss_known uloss = true /\
    (u_dim self + y_dim self) * Tini self < g_dim self)) /\
  (init_RDeePCsolver self uloss opts = Raise e ->
   (e = ValueError msg_uloss /\ uloss_known uloss = false) \/
   (e = ValueError msg_lambda /\ uloss_known uloss = true /\
    (lambda_g self = None \/ lambda_y self = None)) \/
   (e = ValueError msg_dof_robust /\ uloss_known uloss = true /\
    lambda_g self <> None /\ lambda_y self <> None /\
    g_dim self <= u_dim self * Tini self) \/
   (e = ValueError msg_us /\ uloss = "uus" /\ uref self = None /\
    lambda_g self <> None /\ lambda_y self <> None /\
    u_dim self * Tini self < g_dim self) \/
   ((op_error e \/ exists msg, e = RuntimeError msg) /\
    uloss_known uloss = true /\
    lambda_g self <> None /\ lambda_y self <> None /\
    u_dim self * Tini self < g_dim self)).
Proof.
  split; intros H.
  - destruct (init_DeePCsolver_Raise _ _ _ _ H)
      as [[Hk He] | [[Hk [Hd He]] | [Hk [Hd [Ho | Ho]]]]].
    + left; auto.
    + right; left; auto.
    + destruct (DeePC_objective_Raise _ _ _ Ho) as [Hop | [[He [Hu Hr]] | [He Hn]]].
      * right; right; right; auto.
      * right; right; left; auto.
      * rewrite Hk in Hn. discriminate.
    + right; right; right; auto.
  - destruct (init_RDeePCsolver_Raise _ _ _ _ H)
      as [[Hk He] | [[Hk [Hl He]] | [Hk [lg [ly [Hg [Hy Hc]]]]]]].
    + left; auto.
    + right; left; auto.
    + assert (Ng : lambda_g self <> None) by (rewrite Hg; discriminate).
      assert (Ny : lambda_y self <> None) by (rewrite Hy; discriminate).
      destruct Hc as [[Hd He] | [Hd [Ho | Ho]]].
      * right; right; left. repeat split; auto.
      * destruct (RDeePC_objective_Raise _ _ _ _ _ Ho)
          as [Hop | [[He [Hu Hr]] | [He Hn]]].
        -- right; right; right; right. repeat split; auto.
        -- right; right; right; left. repeat split; auto.
        -- rewrite Hk in Hn. discriminate.
      * right; right; right; right. repeat split; auto.
Qed.

(** X7: both formulations raise the uloss error exactly when uloss is not
    one of ['u'], ['uus'], ['du'], whatever the state of the object;
    [init_RDeePCsolver] raises the missing-weight error exactly when uloss
    is one of them and lambda_g or lambda_y is [None], whatever the
    dimensions; and neither ever fails on an unbound objective. *)
Theorem uloss_and_weight_errors (self : deepctools) (uloss : string) (opts : dict Qc) :
  (init_DeePCsolver self uloss opts = Raise (ValueError msg_uloss)
   <-> uloss_known uloss = false) /\
  (init_RDeePCsolver self uloss opts = Raise (ValueError msg_uloss)
   <-> uloss_known uloss = false) /\
  (init_RDeePCsolver self uloss opts = Raise (ValueError msg_lambda)
   <-> uloss_known uloss = true /\ (lambda_g self = None \/ lambda_y self = None)) /\
  (forall name, init_DeePCsolver self uloss opts <> Raise (NameError name) /\
                init_RDeePCsolver self uloss opts <> Raise (NameError name)).
Proof.
  split; [| split; [| split]].
  - split.
    + intros H.
      destruct (init_DeePCsolver_Raise _ _ _ _ H)
        as [[Hk He] | [[Hk [Hd He]] | [Hk [Hd [Ho | Ho]]]]].
      * exact Hk.
      * msg_clash He.
      * destruct (DeePC_objective_Raise _ _ _ Ho) as [Hop | [[He _] | [He _]]].
        -- msg_clash Hop.
        -- msg_clash He.
        -- discriminate.
      * msg_clash Ho.
    + intros Hk. unfold init_DeePCsolver. rewrite Hk. reflexivity.
  - split.
    + intros H.
      destruct (init_RDeePCsolver_Raise _ _ _ _ H)
        as [[Hk He] | [[Hk [Hl He]] | [Hk [lg [ly [Hg [Hy Hc]]]]]]].
      * exact Hk.
      * msg_clash He.
      * destruct Hc as [[Hd He] | [Hd [Ho | Ho]]].
        -- msg_clash He.
        -- destruct (RDeePC_objective_Raise _ _ _ _ _ Ho)
             as [Hop | [[He _] | [He _]]].
           ++ msg_clash Hop.
           ++ msg_clash He.
           ++ discriminate.
        -- msg_clash Ho.
    + intros Hk. unfold init_RDeePCsolver. rewrite Hk. reflexivity.
  - split.
    + intros H.
      destruct (init_RDeePCsolver_Raise _ _ _ _ H)
        as [[Hk He] | [[Hk [Hl He]] | [Hk [lg [ly [Hg [Hy Hc]]]]]]].
      * msg_clash He.
      * auto.
      * destruct Hc as [[Hd He] | [Hd [Ho | Ho]]].
        -- msg_clash He.
        -- destruct (RDeePC_objective_Raise _ _ _ _ _ Ho)
             as [Hop | [[He _] | [He _]]].
           ++ msg_clash Hop.
           ++ msg_clash He.
           ++ discriminate.
        -- msg_clash Ho.
    + intros [Hk Hl]. unfold init_RDeePCsolver. rewrite Hk. simpl.
      destruct Hl as [Hl | Hl]; rewrite Hl; [reflexivity |].
      destruct (lambda_g self); reflexivity.
  - intros name. split; intros H.
    + destruct (init_DeePCsolver_Raise _ _ _ _ H)
        as [[Hk He] | [[Hk [Hd He]] | [Hk [Hd [Ho | Ho]]]]];
        try discriminate.
      * destruct (DeePC_objective_Raise _ _ _ Ho) as [Hop | [[He _] | [_ Hn]]].
        -- msg_clash Hop.
        -- discriminate.
        -- rewrite Hk in Hn. discriminate.
      * msg_clash Ho.
    + destruct (init_RDeePCsolver_Raise _ _ _ _ H)
        as [[Hk He] | [[Hk [Hl He]] | [Hk [lg [ly [Hg [Hy Hc]]]]]]];
        try discriminate.
      destruct Hc as [[Hd He] | [Hd [Ho | Ho]]]; try discriminate.
      * destruct (RDeePC_objective_Raise _ _ _ _ _ Ho)
          as [Hop | [[He _] | [_ Hn]]].
        -- msg_clash Hop.
        -- discriminate.
        -- rewrite Hk in Hn. discriminate.
      * msg_clash Ho.
Qed.

(** X8: the missing-us error is raised only for uloss ['uus']: by
    [init_DeePCsolver] exactly when uloss is ['uus'], uref is undefined and
    g_dim > (u_dim + y_dim) * Tini; by [init_RDeePCsolver] exactly when uloss
    is ['uus'], uref is undefined, both weights are given and
    g_dim > u_dim * Tini.  With ['u'] or ['du'] an undefined uref is never
    an error. *)
Theorem us_error_iff (self : deepctools) (uloss : string) (opts : dict Qc) :
  (init_DeePCsolver self uloss opts = Raise (ValueError msg_us)
   <-> uloss = "uus" /\ uref self = None /\
       (u_dim self + y_dim self) * Tini self < g_dim self) /\
  (init_RDeePCsolver self uloss opts = Raise (ValueError msg_us)
   <-> uloss = "uus" /\ uref self = None /\
       lambda_g self <> None /\ lambda_y self <> None /\
       u_dim self * Tini self < g_dim self).
Proof.
  split; split.
  - intros H.
    destruct (init_DeePCsolver_Raise _ _ _ _ H)
      as [[Hk He] | [[Hk [Hd He]] | [Hk [Hd [Ho | Ho]]]]].
    + msg_clash He.
    + msg_clash He.
    + destruct (DeePC_objective_Raise _ _ _ Ho) as [Hop | [[_ [Hu Hr]] | [He _]]].
      * msg_clash Hop.
      * auto.
      * discriminate.
    + msg_clash Ho.
  - intros [Hu [Hr Hd]]. subst uloss.
    unfold init_DeePCsolver. simpl negb. cbv iota.
    apply Z.leb_gt in Hd. rewrite Hd.
    unfold DeePC_objective. simpl String.eqb. cbv iota. rewrite Hr. reflexivity.
  - intros H.
    destruct (init_RDeePCsolver_Raise _ _ _ _ H)
      as [[Hk He] | [[Hk [Hl He]] | [Hk [lg [ly [Hg [Hy Hc]]]]]]].
    + msg_clash He.
    + msg_clash He.
    + destruct Hc as [[Hd He] | [Hd [Ho | Ho]]].
      * msg_clash He.
      * destruct (RDeePC_objective_Raise _ _ _ _ _ Ho)
          as [Hop | [[_ [Hu Hr]] | [He _]]].
        -- msg_clash Hop.
        -- rewrite Hg, Hy. repeat split; auto; discriminate.
        -- discriminate.
      * msg_clash Ho.
  - intros [Hu [Hr [Hg [Hy Hd]]]]. subst uloss.
    unfold init_RDeePCsolver. simpl negb. cbv iota.
    destruct (lambda_g self) as [lg |]; [| contradiction].
    destruct (lambda_y self) as [ly |]; [| contradiction].
    apply Z.leb_gt in Hd. rewrite Hd.
    unfold RDeePC_objective. simpl String.eqb. cbv iota. rewrite Hr. reflexivity.
Qed.

(** ** What a formulation leaves in place *)

Lemma init_DeePCsolver_checks (self self' : deepctools) (uloss : string)
    (opts : dict Qc) :
  init_DeePCsolver self uloss opts = Ok self' ->
  uloss_known uloss = true /\
  (u_dim self + y_dim self) * Tini self < g_dim self.
Proof.
  unfold init_DeePCsolver. intros H.
  destruct (uloss_known uloss); [| discriminate]. simpl in H.
  destruct (_ <=? _) eqn:Hd; [discriminate |].
  apply Z.leb_gt in Hd. auto.
Qed.

Lemma init_RDeePCsolver_checks (self self' : deepctools) (uloss : string)
    (opts : dict Qc) :
  init_RDeePCsolver self uloss opts = Ok self' ->
  uloss_known uloss = true /\ u_dim self * Tini self < g_dim self.
Proof.
  unfold init_RDeePCsolver. intros H.
  destruct (uloss_known uloss); [| discriminate]. simpl in H.
  destruct (lambda_g self); [| discriminate].
  destruct (lambda_y self); [| discriminate].
  destruct (_ <=? _) eqn:Hd; [discriminate |].
  apply Z.leb_gt in Hd. auto.
Qed.

(** Either formulation returns the object with a new solver and new bound
    lists. *)
Lemma formulated_set_solver (self self' : deepctools) (uloss : string)
    (opts : dict Qc) :
  init_DeePCsolver self uloss opts = Ok self' \/
  init_RDeePCsolver self uloss opts = Ok self' ->
  exists prob l u, self' = set_solver self prob l u.
Proof.
  intros [H | H].
  - destruct (init_DeePCsolver_Ok _ _ _ _ H) as [obj [_ [_ Es]]].
    eexists. eexists. eexists. exact Es.
  - destruct (init_RDeePCsolver_Ok _ _ _ _ H) as [obj [lg [ly [_ [_ [_ [_ Es]]]]]]].
    eexists. eexists. eexists. exact Es.
Qed.

(** X9: a formulation changes nothing but the stored solver and bound
    lists, and a later formulation does not depend on them: formulating an
    already formulated object gives the same result as formulating the
    object it came from. *)
Theorem reformulation (self self' : deepctools) (uloss : string) (opts : dict Qc) :
  init_DeePCsolver self uloss opts = Ok self' \/
  init_RDeePCsolver self uloss opts = Ok self' ->
  (Up self' = Up self /\ Uf self' = Uf self /\ Yp self' = Yp self /\
   Yf self' = Yf self /\ Hc self' = Hc self /\
   lbc_ineq self' = lbc_ineq self /\ ubc_ineq self' = ubc_ineq self /\
   yref self' = yref self /\ uref self' = uref self /\
   g_dim self' = g_dim self) /\
  forall uloss2 opts2,
    init_DeePCsolver self' uloss2 opts2 = init_DeePCsolver self uloss2 opts2 /\
    init_RDeePCsolver self' uloss2 opts2 = init_RDeePCsolver self uloss2 opts2.
Proof.
  intros H. destruct (formulated_set_solver _ _ _ _ H) as [prob [l [u Es]]].
  subst self'. split.
  - repeat split; reflexivity.
  - intros uloss2 opts2. split; reflexivity.
Qed.

(** ** Solving before and after a formulation *)

(** X10: [solver_step] on a freshly constructed object never returns a
    result: no solver is stored until one of the formulations has run. *)
Theorem solver_step_needs_formulation nu ny nT nTini nNp ys0 ud yd Q0 R0 us0 lg ly
    ineqconidx ineqconbd (self : deepctools)
    (pinv : ndarray -> ndarray) (nlpsol : nlp_prob -> solver_call -> result ndarray)
    (t_before t_after : Qc) (uini yini : ndarray) :
  __init__ nu ny nT nTini nNp ys0 ud yd Q0 R0 us0 lg ly ineqconidx ineqconbd
  = Ok self ->
  is_ok (solver_step pinv nlpsol t_before t_after self uini yini) = false.
Proof.
  intros H.
  destruct (init_inv _ _ _ _ _ _ _ _ _ _ _ _ _ _ _ _ H)
    as [a [yref_t [uref' [Hud' [Hyd' [hc [lb [ub
         [_ [_ [_ [_ [_ [Es _]]]]]]]]]]]]]].
  assert (Hs : solver self = None) by (subst self; reflexivity).
  unfold solver_step. rewrite Hs.
  destruct (vertcat uini yini); simpl; [| reflexivity].
  destruct (vertcat (Up self) (Yp self)); simpl; [| reflexivity].
  destruct (matmul _ _); reflexivity.
Qed.

Lemma matvec_Ok (a : ndarray) (v u : list Qc) :
  matvec a v = Ok u -> ncols a = length v /\ length u = nrows a.
Proof.
  unfold matvec. destruct (Nat.eqb (ncols a) (length v)) eqn:E; [| discriminate].
  intros H. inversion H. apply Nat.eqb_eq in E. unfold nrows.
  rewrite length_map. auto.
Qed.

Lemma vertcat_ncols (a b c : ndarray) :
  vertcat a b = Ok c -> ncols b = ncols a /\ ncols c = ncols a.
Proof.
  unfold vertcat, concatenate. simpl.
  destruct (Nat.eqb (ncols b) (ncols a)) eqn:E; [| discriminate].
  simpl. intros H. inversion H. apply Nat.eqb_eq in E. auto.
Qed.

(** X11: on an object that was constructed and then formulated (either
    design), a successful [solver_step] returns a control trajectory u_opt
    of u_dim * Np entries and a decision vector g_opt of
    g_dim = T - Tini - Np + 1 entries; uini and yini must have the same
    number of columns. *)
Theorem solver_step_lengths nu ny nT nTini nNp ys0 ud yd Q0 R0 us0 lg ly
    ineqconidx ineqconbd (self0 self : deepctools) (uloss : string) (opts : dict Qc)
    (pinv : ndarray -> ndarray) (nlpsol : nlp_prob -> solver_call -> result ndarray)
    (t_before t_after : Qc) (uini yini : ndarray) (u_opt g_opt : list Qc) (t_s : Qc) :
  __init__ nu ny nT nTini nNp ys0 ud yd Q0 R0 us0 lg ly ineqconidx ineqconbd
  = Ok self0 ->
  init_DeePCsolver self0 uloss opts = Ok self \/
  init_RDeePCsolver self0 uloss opts = Ok self ->
  solver_step pinv nlpsol t_before t_after self uini yini = Ok (u_opt, g_opt, t_s) ->
  Z.of_nat (length u_opt) = nu * nNp /\
  Z.of_nat (length g_opt) = nT - nTini - nNp + 1 /\
  ncols yini = ncols uini.
Proof.
  intros Hi Hf Hs.
  destruct (init_inv _ _ _ _ _ _ _ _ _ _ _ _ _ _ _ _ Hi)
    as [a [yref_t [uref' [Hud' [Hyd' [hc [lb [ub
         [_ [_ [_ [_ [_ [Es [Ec _]]]]]]]]]]]]]]].
  apply checkvar_Ok in Ec. destruct Ec as [_ [_ [A3 _]]].
  destruct (formulated_set_solver _ _ _ _ Hf) as [prob [l [u Eself]]].
  assert (HU : Uf self = Uf self0) by (subst self; reflexivity).
  unfold solver_step in Hs.
  bind_as Hs parameters E1. bind_as Hs UpYp E2. bind_as Hs g0 E3.
  destruct (solver self); [| discriminate].
  bind_as Hs sol Esol. bind_as Hs u' E4. inversion Hs; subst. clear Hs.
  apply matvec_Ok in E4. destruct E4 as [M1 M2].
  apply vertcat_ncols in E1. destruct E1 as [V1 _].
  rewrite HU in M1, M2. unfold shape in A3. simpl in A3. inversion A3.
  repeat split; try assumption; simpl in *; congruence.
Qed.

(** X12: on a constructed object u_dim * Tini and y_dim * Tini are not
    negative, and a formulation succeeds only with fewer zero-bounded
    equality rows than decision variables: (u_dim + y_dim) * Tini < g_dim
    for [init_DeePCsolver], u_dim * Tini < g_dim for [init_RDeePCsolver];
    in both cases g_dim >= 1, that is T >= Tini + Np. *)
Theorem equality_rows_below_g_dim nu ny nT nTini nNp ys0 ud yd Q0 R0 us0 lg ly
    ineqconidx ineqconbd (self self' : deepctools) (uloss : string) (opts : dict Qc) :
  __init__ nu ny nT nTini nNp ys0 ud yd Q0 R0 us0 lg ly ineqconidx ineqconbd
  = Ok self ->
  0 <= nu * nTini /\ 0 <= ny * nTini /\
  (init_DeePCsolver self uloss opts = Ok self' ->
   Z.of_nat (uini_rows self + yini_rows self) = (nu + ny) * nTini /\
   Z.of_nat (uini_rows self + yini_rows self) < g_dim self /\
   nTini + nNp <= nT) /\
  (init_RDeePCsolver self uloss opts = Ok self' ->
   Z.of_nat (uini_rows self) = nu * nTini /\
   Z.of_nat (uini_rows self) < g_dim self /\
   nTini + nNp <= nT).
Proof.
  intros Hi.
  destruct (init_inv _ _ _ _ _ _ _ _ _ _ _ _ _ _ _ _ Hi)
    as [a [yref_t [uref' [Hud' [Hyd' [hc [lb [ub
         [_ [_ [_ [_ [_ [Es [Ec _]]]]]]]]]]]]]]].
  apply checkvar_Ok in Ec. destruct Ec as [A1 [A2 _]].
  assert (Fu : u_dim self = nu) by (subst self; reflexivity).
  assert (Fy : y_dim self = ny) by (subst self; reflexivity).
  assert (Ft : Tini self = nTini) by (subst self; reflexivity).
  assert (Fg : g_dim self = nT - nTini - nNp + 1) by (subst self; reflexivity).
  unfold shape in A1, A2. inversion A1 as [[B1 B2]]. inversion A2 as [[B3 B4]].
  rewrite Fu, Ft in B1. rewrite Fy, Ft in B3.
  assert (P1 : 0 <= nu * nTini) by lia.
  assert (P2 : 0 <= ny * nTini) by lia.
  split; [exact P1 | split; [exact P2 | split]]; intros Hf.
  - destruct (init_DeePCsolver_checks _ _ _ _ Hf) as [_ Hd].
    unfold uini_rows, yini_rows. rewrite Fu, Fy, Ft in *. lia.
  - destruct (init_RDeePCsolver_checks _ _ _ _ Hf) as [_ Hd].
    unfold uini_rows. rewrite Fu, Ft in *. lia.
Qed.

(** ** The objectives of the other designs and losses *)

Lemma nrows_transpose (x : ndarray) : nrows (transpose x) = ncols x.
Proof. unfold nrows, transpose. simpl. rewrite length_map, length_seq. reflexivity. Qed.

Lemma quad_form_shape (x M q : ndarray) :
  quad_form x M = Ok q -> nrows q = ncols x /\ ncols q = ncols x.
Proof.
  unfold quad_form. intros H. bind_as H xM E.
  apply matmul_shape in E. apply matmul_shape in H.
  rewrite nrows_transpose in E. destruct E, H. split; congruence.
Qed.

Lemma qp_obj_shape (H f g o : ndarray) :
  qp_obj H f g = Ok o -> nrows o = ncols g /\ ncols o = ncols g.
Proof.
  unfold qp_obj. intros E. bind_as E q Eq'. bind_as E l El.
  apply quad_form_shape in Eq'. apply pointwise_shape in E.
  unfold nd_scale, nd_map, nrows in *. simpl in E. rewrite length_map in E.
  destruct Eq', E as [_ [E2 E3]]. split; congruence.
Qed.

Lemma du_terms_shape (self : deepctools) (g uini du y_loss : ndarray) :
  du_terms self g uini = Ok (du, y_loss) ->
  ncols du = ncols g /\ ncols y_loss = ncols g.
Proof.
  unfold du_terms. intros E.
  bind_as E u_cur E1. bind_as E Ufg E2. bind_as E u_prev E3.
  bind_as E du' E4. bind_as E y E5. bind_as E yl E6.
  inversion E; subst. clear E.
  apply matmul_shape in E1. apply matmul_shape in E5.
  apply pointwise_shape in E4. apply pointwise_shape in E6.
  destruct E1, E5, E4 as [_ [_ C4]], E6 as [_ [_ C6]]. split; congruence.
Qed.

Lemma du_obj_shape (self : deepctools) (g uini o : ndarray) :
  du_obj self g uini = Ok o -> nrows o = ncols g /\ ncols o = ncols g.
Proof.
  unfold du_obj. intros E. bind_as E pr Et. destruct pr as [du y_loss].
  bind_as E qy Ey. bind_as E qu Eu.
  apply du_terms_shape in Et. apply quad_form_shape in Ey.
  apply pointwise_shape in E.
  destruct Et, Ey, E as [_ [E2 E3]]. split; congruence.
Qed.

Lemma rdu_obj_shape (self : deepctools) (lg ly g uini yini o : ndarray) :
  rdu_obj self lg ly g uini yini = Ok o -> nrows o = ncols g /\ ncols o = ncols g.
Proof.
  unfold rdu_obj. intros E. bind_as E pr Et. destruct pr as [du y_loss].
  bind_as E Ypg E1. bind_as E sigma_y E2. bind_as E qy Ey. bind_as E qu Eu.
  bind_as E s1 Es1. bind_as E qg Eg. bind_as E s2 Es2. bind_as E qs Eqs.
  apply du_terms_shape in Et. apply quad_form_shape in Ey.
  apply pointwise_shape in Es1. apply pointwise_shape in Es2.
  apply pointwise_shape in E.
  destruct Et, Ey, Es1 as [_ [A1 A2]], Es2 as [_ [B1 B2]], E as [_ [C1 C2]].
  split; congruence.
Qed.

(** The value of a standard objective is that of a quadratic program or
    of the ['du'] expression. *)
Lemma DeePC_objective_forms (self : deepctools) (uloss : string)
    (obj : ndarray -> ndarray -> ndarray -> result ndarray) :
  DeePC_objective self uloss = Ok obj ->
  (uloss <> "du" /\ exists H f, obj = fun g _ _ => qp_obj H f g) \/
  (uloss = "du" /\ obj = fun g uini _ => du_obj self g uini).
Proof.
  unfold DeePC_objective.
  destruct (String.eqb uloss "u") eqn:K1.
  { intros E. bind_as E HQ E1. bind_as E HR E2. bind_as E H E3. bind_as E f E4.
    inversion E. left. apply String.eqb_eq in K1. subst uloss.
    split; [discriminate | exists H, f; reflexivity]. }
  destruct (String.eqb uloss "uus") eqn:K2.
  { destruct (uref self) as [r |]; [| discriminate].
    intros E. bind_as E HQ E1. bind_as E HR E2. bind_as E H E3. bind_as E fy E4.
    bind_as E fu E5. bind_as E f E6.
    inversion E. left. apply String.eqb_eq in K2. subst uloss.
    split; [discriminate | exists H, f; reflexivity]. }
  destruct (String.eqb uloss "du") eqn:K3; [| discriminate].
  intros E. inversion E. right. apply String.eqb_eq in K3. auto.
Qed.

(** X13: after either formulation the objective handed to the solver has,
    wherever it is defined, as many rows and columns as g has columns: for
    a column g it is a single number. *)
Theorem objective_is_scalar (self self' : deepctools) (uloss : string)
    (opts : dict Qc) :
  init_DeePCsolver self uloss opts = Ok self' \/
  init_RDeePCsolver self uloss opts = Ok self' ->
  exists prob,
    solver self' = Some prob /\
    forall g uini yini o,
      nlp_f prob g uini yini = Ok o ->
      nrows o = ncols g /\ ncols o = ncols g.
Proof.
  intros [H | H].
  - destruct (init_DeePCsolver_Ok _ _ _ _ H) as [obj [Eo [_ Es]]]. subst self'.
    eexists. split; [reflexivity |]. simpl. intros g uini yini o Ho.
    destruct (DeePC_objective_forms _ _ _ Eo) as [[_ [Hm [f Hf]]] | [_ Hf]];
      subst obj.
    + exact (qp_obj_shape _ _ _ _ Ho).
    + exact (du_obj_shape _ _ _ _ Ho).
  - destruct (init_RDeePCsolver_Ok _ _ _ _ H)
      as [obj [lg [ly [_ [_ [Eo [_ Es]]]]]]]. subst self'.
    eexists. split; [reflexivity |]. simpl. intros g uini yini o Ho.
    unfold RDeePC_objective in Eo.
    destruct (String.eqb uloss "u").
    { bind_as Eo Hm EH. inversion Eo; subst obj. simpl in Ho.
      bind_as Ho fp E1. bind_as Ho fy E2. bind_as Ho f E3.
      exact (qp_obj_shape _ _ _ _ Ho). }
    destruct (String.eqb uloss "uus").
    { destruct (uref self); [| discriminate].
      bind_as Eo Hm EH. inversion Eo; subst obj. simpl in Ho.
      bind_as Ho fp E1. bind_as Ho fy E2. bind_as Ho f1 E3.
      bind_as Ho fu E4. bind_as Ho f E5.
      exact (qp_obj_shape _ _ _ _ Ho). }
    destruct (String.eqb uloss "du"); [| discriminate].
    inversion Eo; subst obj. exact (rdu_obj_shape _ _ _ _ _ _ _ Ho).
Qed.

(** X14: in the standard design the objective never depends on yini, and
    for ['u'] and ['uus'] not on uini either: the history enters through
    the constraints only.  In the robust design the constraint stack never
    depends on yini, and for ['u'] and ['uus'] the objective does not depend
    on uini. *)
Theorem parameter_dependence (self self' : deepctools) (uloss : string)
    (opts : dict Qc) :
  (init_DeePCsolver self uloss opts = Ok self' ->
   exists prob,
     solver self' = Some prob /\
     (forall g uini yini yini',
         nlp_f prob g uini yini = nlp_f prob g uini yini') /\
     (uloss <> "du" ->
      forall g uini uini' yini yini',
        nlp_f prob g uini yini = nlp_f prob g uini' yini')) /\
  (init_RDeePCsolver self uloss opts = Ok self' ->
   exists prob,
     solver self' = Some prob /\
     (forall g uini yini yini',
         nlp_g prob g uini yini = nlp_g prob g uini yini') /\
     (uloss <> "du" ->
      forall g uini uini' yini,
        nlp_f prob g uini yini = nlp_f prob g uini' yini)).
Proof.
  split; intros H.
  - destruct (init_DeePCsolver_Ok _ _ _ _ H) as [obj [Eo [_ Es]]]. subst self'.
    eexists. split; [reflexivity |]. simpl.
    destruct (DeePC_objective_forms _ _ _ Eo) as [[Hn [Hm [f Hf]]] | [Hd Hf]];
      subst obj.
    + split; intros; reflexivity.
    + split; [intros; reflexivity | intros Hn; contradiction].
  - destruct (init_RDeePCsolver_Ok _ _ _ _ H)
      as [obj [lg [ly [_ [_ [Eo [_ Es]]]]]]]. subst self'.
    eexists. split; [reflexivity |]. simpl.
    split; [intros; reflexivity |].
    intros Hn g uini uini' yini.
    unfold RDeePC_objective in Eo.
    destruct (String.eqb uloss "u").
    { bind_as Eo Hm EH. inversion Eo; subst obj. reflexivity. }
    destruct (String.eqb uloss "uus").
    { destruct (uref self); [| discriminate].
      bind_as Eo Hm EH. inversion Eo; subst obj. reflexivity. }
    destruct (String.eqb uloss "du") eqn:K; [| discriminate].
    apply String.eqb_eq in K. contradiction.
Qed.

(** ** Component indices *)

Lemma mapM_Ok_inv {A B : Type} (f : A -> result B) (l : list A) (bs : list B) :
  mapM f l = Ok bs -> forall a, In a l -> exists b, f a = Ok b.
Proof.
  revert bs. induction l as [| x l IH]; simpl; intros bs H a Ha; [contradiction |].
  bind_as H b Eb. bind_as H bs' Ebs.
  destruct Ha as [Ha | Ha]; [subst x; exists b; exact Eb | exact (IH _ Ebs a Ha)].
Qed.

Lemma norm_index_Ok (n : nat) (k : Z) (i : nat) :
  norm_index n k = Ok i -> - Z.of_nat n <= k < Z.of_nat n.
Proof.
  unfold norm_index.
  destruct ((0 <=? k) && (k <? Z.of_nat n)) eqn:E1.
  - intros _. apply andb_prop in E1. destruct E1 as [A B].
    apply Z.leb_le in A. apply Z.ltb_lt in B. lia.
  - destruct ((- Z.of_nat n <=? k) && (k <? 0)) eqn:E2; [| discriminate].
    intros _. apply andb_prop in E2. destruct E2 as [A B].
    apply Z.leb_le in A. apply Z.ltb_lt in B. lia.
Qed.

Lemma take_rows_in_range (a b : ndarray) (idx : list Z) :
  take_rows a idx = Ok b ->
  forall k, In k idx -> - Z.of_nat (nrows a) <= k < Z.of_nat (nrows a).
Proof.
  unfold take_rows. intros H k Hk. bind_as H rs E.
  destruct (mapM_Ok_inv _ _ _ E k Hk) as [r Er].
  bind_as Er i Ei. exact (norm_index_Ok _ _ _ Ei).
Qed.

Lemma ineq_loop_in_range (self : deepctools) (bdo : option (dict (list Qc)))
    (items : dict (list Z)) (res : list ndarray * list (list Qc) * list (list Qc)) :
  ineq_loop self bdo items = Ok res ->
  forall varname idx i v,
    In (varname, idx) items -> 0 <= i < Np self -> In v idx ->
    - Z.of_nat (nrows (fst (base_of self varname)))
    <= v + i * snd (base_of self varname)
    < Z.of_nat (nrows (fst (base_of self varname))).
Proof.
  revert res. induction items as [| [k l] items IH]; intros res E varname idx i v Hin Hi Hv;
    [contradiction |].
  simpl in E. bind_as E trip Et. destruct trip as [[Hsel lbt] ubt].
  bind_as E rest Er.
  destruct Hin as [Hin | Hin].
  - inversion Hin; subst k l.
    destruct (ineq_entry_inv _ _ _ _ _ _ _ Et) as [bd [_ [_ [Etk _]]]].
    apply (take_rows_in_range _ _ _ Etk).
    apply in_flat_map. exists i. split.
    + unfold range. apply in_map_iff. exists (Z.to_nat i).
      split; [lia | apply in_seq; lia].
    + apply in_map_iff. exists v. auto.
  - exact (IH _ Er varname idx i v Hin Hi Hv).
Qed.

(** X17: [_init_ineq_cons] returns only if every selected row exists: for
    each entry, each step i in [0, Np) and each requested index v, the row
    number v + i * dim lies in [-n, n), n being the number of rows of Uf
    (for ['u']) or Yf (for ['y']); an index outside makes the construction
    fail. *)
Theorem init_ineq_cons_in_range (self : deepctools) (items : dict (list Z))
    (bdo : option (dict (list Qc))) (hc : hc_value) (l u : list Qc) :
  _init_ineq_cons self (Some items) bdo = Ok (hc, l, u) ->
  forall varname idx i v,
    In (varname, idx) items -> 0 <= i < Np self -> In v idx ->
    - Z.of_nat (nrows (fst (base_of self varname)))
    <= v + i * snd (base_of self varname)
    < Z.of_nat (nrows (fst (base_of self varname))).
Proof.
  unfold _init_ineq_cons. intros E.
  bind_as E trip Et. bind_as Et lists El.
  exact (ineq_loop_in_range _ _ _ _ El).
Qed.

(** ** When a formulation succeeds *)

Lemma shape_nat (a : ndarray) (m n : Z) :
  shape a = (m, n) -> nrows a = Z.to_nat m /\ ncols a = Z.to_nat n.
Proof. unfold shape. intros H. inversion H. split; lia. Qed.

Lemma init_well_shaped nu ny nT nTini nNp ys0 ud yd Q0 R0 us0 lg ly
    ineqconidx ineqconbd (self : deepctools) :
  __init__ nu ny nT nTini nNp ys0 ud yd Q0 R0 us0 lg ly ineqconidx ineqconbd
  = Ok self ->
  well_shaped self.
Proof.
  intros H.
  destruct (init_inv _ _ _ _ _ _ _ _ _ _ _ _ _ _ _ _ H)
    as [a0 [yref_t [uref' [Hud' [Hyd' [hc [lb [ub
         [_ [_ [_ [_ [_ [Es [Ec Ei]]]]]]]]]]]]]]].
  destruct (init_ineq_cons_inv _ _ _ _ _ _ Ei)
    as [items [bd [a [_ [_ [_ [_ [Hhc [Hcols _]]]]]]]]].
  assert (Hhc' : Hc self = HcArray a) by (subst self; simpl; exact Hhc).
  apply checkvar_Ok in Ec.
  destruct Ec as [A1 [A2 [A3 [A4 [A5 [A6 [A7 [A8 [A9 A10]]]]]]]]].
  apply shape_nat in A1, A2, A3, A4, A6, A7, A8.
  destruct A1 as [B1 C1], A2 as [B2 C2], A3 as [B3 C3], A4 as [B4 C4],
    A6 as [B6 C6], A7 as [B7 C7], A8 as [B8 C8].
  unfold well_shaped, uini_rows, yini_rows, g_rows.
  repeat match goal with |- _ /\ _ => split end; try congruence.
  - exact C6.
  - intros r Hr. apply A5 in Hr. apply shape_nat in Hr. destruct Hr as [Hr1 Hr2].
    split; [congruence | exact Hr2].
  - intros m Hm. apply A9 in Hm. apply shape_nat in Hm. exact Hm.
  - intros m Hm. apply A10 in Hm. apply shape_nat in Hm. exact Hm.
  - exists a. split; [exact Hhc' |]. destruct Hcols; congruence.
Qed.

Lemma matmul_ex (a b : ndarray) :
  ncols a = nrows b ->
  exists c, matmul a b = Ok c /\ nrows c = nrows a /\ ncols c = ncols b.
Proof.
  intros H. unfold matmul. rewrite H, Nat.eqb_refl.
  eexists. split; [reflexivity |]. unfold nrows. simpl.
  rewrite length_map. auto.
Qed.

Lemma pointwise_ex (f : Qc -> Qc -> Qc) (a b : ndarray) :
  nrows a = nrows b -> ncols a = ncols b ->
  exists c, pointwise f a b = Ok c /\ nrows c = nrows a /\ ncols c = ncols a.
Proof.
  intros H1 H2. unfold pointwise. rewrite H1, H2, !Nat.eqb_refl. simpl.
  eexists. split; [reflexivity |]. unfold nrows in *. simpl.
  rewrite length_zip_rows by exact H1. auto.
Qed.

Lemma ncols_transpose (x : ndarray) : ncols (transpose x) = nrows x.
Proof. reflexivity. Qed.

Lemma tmm_ex (A W B : ndarray) :
  nrows A = nrows W -> ncols W = nrows B ->
  exists c, tmm A W B = Ok c /\ nrows c = ncols A /\ ncols c = ncols B.
Proof.
  intros H1 H2. unfold tmm.
  destruct (matmul_ex (transpose A) W) as [AW [E1 [R1 C1]]];
    [rewrite ncols_transpose; exact H1 |].
  rewrite E1. simpl.
  destruct (matmul_ex AW B) as [c [E2 [R2 C2]]]; [congruence |].
  exists c. rewrite nrows_transpose in R1. repeat split; congruence.
Qed.

Lemma neg_tmm_ex (A W B : ndarray) :
  nrows A = nrows W -> ncols W = nrows B ->
  exists c, neg_tmm A W B = Ok c /\ nrows c = ncols A /\ ncols c = ncols B.
Proof.
  intros H1 H2. rewrite neg_tmm_tmm.
  destruct (tmm_ex A W B H1 H2) as [c [E [R1 C1]]]. rewrite E. simpl.
  exists (nd_neg c). split; [reflexivity |].
  unfold nd_neg, nd_map, nrows in *. simpl. rewrite length_map. auto.
Qed.

Lemma quad_form_ex (x M : ndarray) :
  nrows x = nrows M -> ncols M = nrows x ->
  exists q, quad_form x M = Ok q /\ nrows q = ncols x /\ ncols q = ncols x.
Proof.
  intros H1 H2. unfold quad_form.
  destruct (matmul_ex (transpose x) M) as [xM [E1 [R1 C1]]];
    [rewrite ncols_transpose; exact H1 |].
  rewrite E1. simpl.
  destruct (matmul_ex xM x) as [q [E2 [R2 C2]]]; [congruence |].
  exists q. rewrite nrows_transpose in R1. repeat split; congruence.
Qed.

Lemma qp_obj_ex (H f g : ndarray) :
  nrows g = nrows H -> ncols H = nrows g ->
  nrows f = nrows g -> ncols f = ncols g ->
  exists o, qp_obj H f g = Ok o.
Proof.
  intros H1 H2 H3 H4. unfold qp_obj.
  destruct (quad_form_ex g H H1 H2) as [q [E1 [R1 C1]]]. rewrite E1. simpl.
  destruct (matmul_ex (transpose f) g) as [l [E2 [R2 C2]]];
    [rewrite ncols_transpose; exact H3 |].
  rewrite E2. simpl. rewrite nrows_transpose in R2.
  destruct (pointwise_ex Qcplus (nd_scale half q) l) as [o [E3 _]].
  - unfold nd_scale, nd_map, nrows in *. simpl. rewrite length_map. congruence.
  - unfold nd_scale, nd_map. simpl. congruence.
  - exists o. exact E3.
Qed.

Lemma column_zeros (n : nat) : column_of n (zeros n 1).
Proof. split; [apply nrows_zeros | reflexivity]. Qed.

(** One history-matching block is defined on operands of matching sizes. *)
Lemma match_block_ex (P g ini : ndarray) (n : nat) :
  ncols P = nrows g -> ncols g = 1%nat -> nrows P = n -> column_of n ini ->
  exists e, (Pg <- matmul P g ;; nd_sub Pg ini) = Ok e /\ ncols e = 1%nat.
Proof.
  intros H1 H2 H3 [H4 H5].
  destruct (matmul_ex P g H1) as [Pg [E [R1 C1]]]. rewrite E. simpl.
  destruct (pointwise_ex Qcminus Pg ini) as [e [E2 [_ C2]]]; try congruence.
  exists e. split; [exact E2 | congruence].
Qed.

Lemma Hc_times_ex (self : deepctools) (g : ndarray) :
  well_shaped self -> column_of (g_rows self) g ->
  exists c, Hc_times self g = Ok c /\ ncols c = 1%nat.
Proof.
  intros W [G1 G2].
  destruct W as [_ [_ [_ [_ [_ [_ [_ [_ [_ [_ [_ [_ [_ [_ [_ [a [Ha Hc']]]]]]]]]]]]]]]]].
  unfold Hc_times. rewrite Ha.
  destruct (matmul_ex a g) as [c [E [_ C]]]; [congruence |].
  exists c. split; [exact E | congruence].
Qed.

Lemma DeePC_constraints_ex (self : deepctools) (g uini yini : ndarray) :
  well_shaped self ->
  column_of (g_rows self) g -> column_of (uini_rows self) uini ->
  column_of (yini_rows self) yini ->
  exists c, DeePC_constraints self g uini yini = Ok c.
Proof.
  intros W G U Y. pose proof W as W'.
  destruct W' as [A1 [A2 [A3 [A4 _]]]]. pose proof G as [G1 G2].
  unfold DeePC_constraints.
  destruct (match_block_ex (Up self) g uini _ ltac:(congruence) G2 A1 U)
    as [c1 [E1 C1]].
  destruct (matmul (Up self) g) as [Upg |]; [| discriminate]. simpl in *.
  rewrite E1. simpl.
  destruct (match_block_ex (Yp self) g yini _ ltac:(congruence) G2 A3 Y)
    as [c2 [E2 C2]].
  destruct (matmul (Yp self) g) as [Ypg |]; [| discriminate]. simpl in *.
  rewrite E2. simpl.
  destruct (Hc_times_ex self g W G) as [c3 [E3 C3]]. rewrite E3. simpl.
  unfold concatenate. simpl. rewrite C1, C2, C3. simpl. eexists. reflexivity.
Qed.

Lemma RDeePC_constraints_ex (self : deepctools) (g uini yini : ndarray) :
  well_shaped self ->
  column_of (g_rows self) g -> column_of (uini_rows self) uini ->
  exists c, RDeePC_constraints self g uini yini = Ok c.
Proof.
  intros W G U. pose proof W as W'.
  destruct W' as [A1 [A2 _]]. pose proof G as [G1 G2].
  unfold RDeePC_constraints.
  destruct (match_block_ex (Up self) g uini _ ltac:(congruence) G2 A1 U)
    as [c1 [E1 C1]].
  destruct (matmul (Up self) g) as [Upg |]; [| discriminate]. simpl in *.
  rewrite E1. simpl.
  destruct (Hc_times_ex self g W G) as [c3 [E3 C3]]. rewrite E3. simpl.
  unfold concatenate. simpl. rewrite C1, C3. simpl. eexists. reflexivity.
Qed.

(** The matrix H of the standard quadratic objectives is defined and has
    one row and one column per decision variable. *)
Lemma standard_H_ex (self : deepctools) :
  well_shaped self ->
  exists H,
    (HQ <- tmm (Yf self) (Q self) (Yf self) ;;
     HR <- tmm (Uf self) (R self) (Uf self) ;;
     nd_add HQ HR) = Ok H /\
    nrows H = g_rows self /\ ncols H = g_rows self.
Proof.
  intros [_ [_ [_ [_ [A5 [A6 [A7 [A8 [A9 [A10 _]]]]]]]]]].
  destruct (tmm_ex (Yf self) (Q self) (Yf self)) as [HQ [E1 [R1 C1]]];
    try congruence.
  destruct (tmm_ex (Uf self) (R self) (Uf self)) as [HR [E2 [R2 C2]]];
    try congruence.
  rewrite E1. simpl. rewrite E2. simpl.
  destruct (pointwise_ex Qcplus HQ HR) as [H [E3 [R3 C3]]]; try congruence.
  exists H. split; [exact E3 | split; congruence].
Qed.

Lemma RDeePC_H_ex (self : deepctools) (lg ly : ndarray) :
  well_shaped self -> lambda_g self = Some lg -> lambda_y self = Some ly ->
  exists H, RDeePC_H self lg ly = Ok H /\
            nrows H = g_rows self /\ ncols H = g_rows self.
Proof.
  intros W Hg Hy. destruct (standard_H_ex self W) as [H1 [E1 [R1 C1]]].
  destruct W as [_ [_ [A3 [A4 [_ [_ [_ [_ [_ [_ [_ [_ [_ [Ag [Ay _]]]]]]]]]]]]]]].
  destruct (Ag _ Hg) as [G1 G2]. destruct (Ay _ Hy) as [Y1 Y2].
  unfold RDeePC_H.
  destruct (tmm (Yf self) (Q self) (Yf self)) as [HQ |]; [| discriminate].
  simpl in *.
  destruct (tmm (Uf self) (R self) (Uf self)) as [HR |]; [| discriminate].
  simpl in *. rewrite E1. simpl.
  destruct (tmm_ex (Yp self) ly (Yp self)) as [HY [E2 [R2 C2]]]; try congruence.
  rewrite E2. simpl.
  destruct (pointwise_ex Qcplus H1 HY) as [H2 [E3 [R3 C3]]]; try congruence.
  unfold nd_add. rewrite E3. simpl.
  destruct (pointwise_ex Qcplus H2 lg) as [H [E4 [R4 C4]]]; try congruence.
  exists H. split; [exact E4 | split; congruence].
Qed.

Lemma du_terms_ex (self : deepctools) (g uini : ndarray) :
  well_shaped self -> du_ready self ->
  column_of (g_rows self) g -> column_of (uini_rows self) uini ->
  exists du y_loss,
    du_terms self g uini = Ok (du, y_loss) /\
    nrows du = nrows (Uf self) /\ ncols du = 1%nat /\
    nrows y_loss = nrows (Yf self) /\ ncols y_loss = 1%nat.
Proof.
  intros W [DU [D0 D1]] [G1 G2] [U1 U2].
  destruct W as [_ [_ [_ [_ [A5 [A6 [_ [_ [_ [_ [A11 [A12 _]]]]]]]]]]]].
  unfold du_terms.
  destruct (matmul_ex (Uf self) g) as [u_cur [E1 [R1 C1]]]; [congruence |].
  rewrite E1. simpl.
  assert (N : (nrows (rows_from (- u_dim self) uini)
               + nrows (rows_to (- u_dim self) u_cur))%nat = nrows u_cur).
  { unfold uini_rows in U1.
    unfold rows_from, rows_to, slice_from, slice_to, clamp, nrows in *. simpl.
    rewrite length_skipn, length_firstn.
    destruct (- u_dim self <? 0) eqn:E.
    - apply Z.ltb_lt in E. destruct D1 as [D1 D2]; [lia |].
      assert (u_dim self <= u_dim self * Tini self) by nia.
      assert (u_dim self <= u_dim self * Np self) by nia.
      lia.
    - apply Z.ltb_ge in E. assert (Hz : u_dim self = 0) by lia.
      rewrite Hz in *. simpl in *. lia. }
  unfold vertcat, concatenate. simpl.
  rewrite C1, G2, U2. simpl.
  set (u_prev := mk_nd 1 (slice_from (- u_dim self) (rows uini)
                          ++ slice_to (- u_dim self) (rows u_cur) ++ [])).
  destruct (pointwise_ex Qcminus u_cur u_prev) as [du [E2 [R2 C2]]].
  { unfold u_prev, nrows. simpl. rewrite app_nil_r, length_app.
    unfold rows_from, rows_to, nrows in N. simpl in N. lia. }
  { unfold u_prev. simpl. congruence. }
  unfold nd_sub. rewrite E2. simpl.
  destruct (matmul_ex (Yf self) g) as [y [E3 [R3 C3]]]; [congruence |].
  rewrite E3. simpl.
  destruct (pointwise_ex Qcminus y (yref self)) as [yl [E4 [R4 C4]]];
    try congruence.
  rewrite E4. simpl.
  exists du, yl. split; [reflexivity |]. repeat split; congruence.
Qed.

Lemma du_obj_ex (self : deepctools) (g uini : ndarray) :
  well_shaped self -> du_ready self ->
  column_of (g_rows self) g -> column_of (uini_rows self) uini ->
  exists o, du_obj self g uini = Ok o /\ nrows o = 1%nat /\ ncols o = 1%nat.
Proof.
  intros W D G U.
  destruct (du_terms_ex self g uini W D G U) as [du [yl [E [R1 [C1 [R2 C2]]]]]].
  destruct W as [_ [_ [_ [_ [_ [_ [A7 [A8 [A9 [A10 _]]]]]]]]]].
  unfold du_obj. rewrite E. simpl.
  destruct (quad_form_ex yl (Q self)) as [qy [E1 [Ry Cy]]]; try congruence.
  rewrite E1. simpl.
  destruct (quad_form_ex du (R self)) as [qu [E2 [Ru Cu]]]; try congruence.
  rewrite E2. simpl.
  destruct (pointwise_ex Qcplus qy qu) as [o [E3 [Ro Co]]]; try congruence.
  exists o. split; [exact E3 | split; congruence].
Qed.

Lemma rdu_obj_ex (self : deepctools) (lg ly g uini yini : ndarray) :
  well_shaped self -> du_ready self ->
  lambda_g self = Some lg -> lambda_y self = Some ly ->
  column_of (g_rows self) g -> column_of (uini_rows self) uini ->
  column_of (yini_rows self) yini ->
  exists o, rdu_obj self lg ly g uini yini = Ok o.
Proof.
  intros W D Hg Hy G U Y.
  destruct (du_terms_ex self g uini W D G U) as [du [yl [E [R1 [C1 [R2 C2]]]]]].
  pose proof G as [G1 G2]. pose proof Y as [Y1 Y2].
  destruct W as [_ [_ [A3 [A4 [_ [_ [A7 [A8 [A9 [A10 [_ [_ [_ [Ag [Ay _]]]]]]]]]]]]]]].
  destruct (Ag _ Hg) as [Lg1 Lg2]. destruct (Ay _ Hy) as [Ly1 Ly2].
  unfold rdu_obj. rewrite E. simpl.
  destruct (matmul_ex (Yp self) g) as [Ypg [E0 [R0 C0]]]; [congruence |].
  rewrite E0. simpl.
  destruct (pointwise_ex Qcminus Ypg yini) as [sg [Es [Rs Cs]]]; try congruence.
  unfold nd_sub. rewrite Es. simpl.
  destruct (quad_form_ex yl (Q self)) as [qy [E1 [Ry Cy]]]; try congruence.
  rewrite E1. simpl.
  destruct (quad_form_ex du (R self)) as [qu [E2 [Ru Cu]]]; try congruence.
  rewrite E2. simpl.
  destruct (pointwise_ex Qcplus qy qu) as [s1 [E3 [Rs1 Cs1]]]; try congruence.
  unfold nd_add. rewrite E3. simpl.
  destruct (quad_form_ex g lg) as [qg [E4 [Rg Cg]]]; try congruence.
  rewrite E4. simpl.
  destruct (pointwise_ex Qcplus s1 qg) as [s2 [E5 [Rs2 Cs2]]]; try congruence.
  rewrite E5. simpl.
  destruct (quad_form_ex sg ly) as [qs [E6 [Rq Cq]]]; try congruence.
  rewrite E6. simpl.
  destruct (pointwise_ex Qcplus s2 qs) as [o [E7 _]]; try congruence.
  exists o. exact E7.
Qed.

Lemma uloss_cases (uloss : string) :
  uloss_known uloss = true -> uloss = "u" \/ uloss = "uus" \/ uloss = "du".
Proof.
  unfold uloss_known. simpl.
  destruct (String.eqb uloss "u") eqn:K1; [apply String.eqb_eq in K1; auto |].
  destruct (String.eqb uloss "uus") eqn:K2; [apply String.eqb_eq in K2; auto |].
  destruct (String.eqb uloss "du") eqn:K3; [apply String.eqb_eq in K3; auto |].
  discriminate.
Qed.

(** The standard objective is built, and is defined at operands of the
    declared sizes. *)
Lemma DeePC_objective_ex (self : deepctools) (uloss : string) :
  well_shaped self -> uloss_known uloss = true ->
  (uloss = "uus" -> uref self <> None) ->
  (uloss = "du" -> du_ready self) ->
  exists obj,
    DeePC_objective self uloss = Ok obj /\
    forall g uini yini,
      column_of (g_rows self) g -> column_of (uini_rows self) uini ->
      column_of (yini_rows self) yini ->
      exists o, obj g uini yini = Ok o.
Proof.
  intros W Hk Hus Hdu.
  destruct (standard_H_ex self W) as [H [EH [RH CH]]].
  pose proof W as W'.
  destruct W' as [_ [_ [_ [_ [A5 [A6 [A7 [A8 [A9 [A10 [A11 [A12 [Ar _]]]]]]]]]]]]].
  destruct (neg_tmm_ex (Yf self) (Q self) (yref self)) as [fy [Ef [Rf Cf]]];
    try congruence.
  unfold DeePC_objective.
  destruct (uloss_cases _ Hk) as [K | [K | K]]; subst uloss;
    simpl String.eqb; cbv iota.
  - destruct (tmm (Yf self) (Q self) (Yf self)) as [HQ |]; [| discriminate].
    simpl in *.
    destruct (tmm (Uf self) (R self) (Uf self)) as [HR |]; [| discriminate].
    simpl in *. rewrite EH. simpl. rewrite Ef. simpl.
    eexists. split; [reflexivity |].
    intros g uini yini [G1 G2] _ _. apply qp_obj_ex; congruence.
  - destruct (uref self) as [r |] eqn:Er; [| exfalso; apply Hus; reflexivity].
    destruct (Ar r eq_refl) as [Rr Cr].
    destruct (tmm (Yf self) (Q self) (Yf self)) as [HQ |]; [| discriminate].
    simpl in *.
    destruct (tmm (Uf self) (R self) (Uf self)) as [HR |]; [| discriminate].
    simpl in *. rewrite EH. simpl. rewrite Ef. simpl.
    destruct (tmm_ex (Uf self) (R self) r) as [fu [Eu [Ru Cu]]]; try congruence.
    rewrite Eu. simpl.
    destruct (pointwise_ex Qcminus fy fu) as [f [E3 [R3 C3]]]; try congruence.
    unfold nd_sub. rewrite E3. simpl.
    eexists. split; [reflexivity |].
    intros g uini yini [G1 G2] _ _. apply qp_obj_ex; congruence.
  - eexists. split; [reflexivity |].
    intros g uini yini G U _.
    destruct (du_obj_ex self g uini W (Hdu eq_refl) G U) as [o [Eo _]].
    exists o. exact Eo.
Qed.

(** The same for the robust objective. *)
Lemma RDeePC_objective_ex (self : deepctools) (lg ly : ndarray) (uloss : string) :
  well_shaped self -> uloss_known uloss = true ->
  lambda_g self = Some lg -> lambda_y self = Some ly ->
  (uloss = "uus" -> uref self <> None) ->
  (uloss = "du" -> du_ready self) ->
  exists obj,
    RDeePC_objective self lg ly uloss = Ok obj /\
    forall g uini yini,
      column_of (g_rows self) g -> column_of (uini_rows self) uini ->
      column_of (yini_rows self) yini ->
      exists o, obj g uini yini = Ok o.
Proof.
  intros W Hk Hg Hy Hus Hdu.
  destruct (RDeePC_H_ex self lg ly W Hg Hy) as [H [EH [RH CH]]].
  pose proof W as W'.
  destruct W' as [_ [_ [A3 [A4 [A5 [A6 [A7 [A8 [A9 [A10 [A11 [A12 [Ar [_ [Ay _]]]]]]]]]]]]]]].
  destruct (Ay _ Hy) as [Ly1 Ly2].
  destruct (tmm_ex (Yf self) (Q self) (yref self)) as [fy [Ef [Rf Cf]]];
    try congruence.
  assert (FP : forall yini, column_of (yini_rows self) yini ->
             exists f1, (fp <- neg_tmm (Yp self) ly yini ;;
                         fy' <- tmm (Yf self) (Q self) (yref self) ;;
                         nd_sub fp fy') = Ok f1 /\
                        nrows f1 = g_rows self /\ ncols f1 = 1%nat).
  { intros yini [Y1 Y2].
    destruct (neg_tmm_ex (Yp self) ly yini) as [fp [Ep [Rp Cp]]]; try congruence.
    rewrite Ep. simpl. rewrite Ef. simpl.
    destruct (pointwise_ex Qcminus fp fy) as [f1 [E3 [R3 C3]]]; try congruence.
    exists f1. split; [exact E3 | split; congruence]. }
  unfold RDeePC_objective.
  destruct (uloss_cases _ Hk) as [K | [K | K]]; subst uloss;
    simpl String.eqb; cbv iota.
  - rewrite EH. simpl. eexists. split; [reflexivity |].
    intros g uini yini [G1 G2] _ Y. simpl.
    destruct (FP yini Y) as [f1 [E1 [R1 C1]]].
    destruct (neg_tmm (Yp self) ly yini) as [fp |]; [| discriminate]. simpl in *.
    rewrite Ef in *. simpl in *. rewrite E1. simpl.
    apply qp_obj_ex; congruence.
  - destruct (uref self) as [r |] eqn:Er; [| exfalso; apply Hus; reflexivity].
    destruct (Ar r eq_refl) as [Rr Cr].
    rewrite EH. simpl. eexists. split; [reflexivity |].
    intros g uini yini [G1 G2] _ Y. simpl.
    destruct (FP yini Y) as [f1 [E1 [R1 C1]]].
    destruct (neg_tmm (Yp self) ly yini) as [fp |]; [| discriminate]. simpl in *.
    rewrite Ef in *. simpl in *. rewrite E1. simpl.
    destruct (tmm_ex (Uf self) (R self) r) as [fu [Eu [Ru Cu]]]; try congruence.
    rewrite Eu. simpl.
    destruct (pointwise_ex Qcminus f1 fu) as [f [E3 [R3 C3]]]; try congruence.
    unfold nd_sub. rewrite E3. simpl.
    apply qp_obj_ex; congruence.
  - eexists. split; [reflexivity |].
    intros g uini yini G U Y.
    exact (rdu_obj_ex self lg ly g uini yini W (Hdu eq_refl) Hg Hy G U Y).
Qed.

Lemma build_ex (self : deepctools)
    (e : ndarray -> ndarray -> ndarray -> result ndarray) :
  (forall g uini yini,
      column_of (g_rows self) g -> column_of (uini_rows self) uini ->
      column_of (yini_rows self) yini -> exists o, e g uini yini = Ok o) ->
  build self e = Ok tt.
Proof.
  intros H. unfold build.
  destruct (H _ _ _ (column_zeros _) (column_zeros _) (column_zeros _)) as [o Eo].
  rewrite Eo. reflexivity.
Qed.

Lemma init_du_ready nu ny nT nTini nNp ys0 ud yd Q0 R0 us0 lg ly
    ineqconidx ineqconbd (self : deepctools) :
  __init__ nu ny nT nTini nNp ys0 ud yd Q0 R0 us0 lg ly ineqconidx ineqconbd
  = Ok self ->
  0 <= nu -> (1 <= nu -> 1 <= nTini /\ 1 <= nNp) ->
  du_ready self.
Proof.
  intros H H0 H1.
  destruct (init_inv _ _ _ _ _ _ _ _ _ _ _ _ _ _ _ _ H)
    as [a0 [yref_t [uref' [Hud' [Hyd' [hc [lb [ub
         [_ [_ [_ [_ [_ [Es [Ec _]]]]]]]]]]]]]]].
  apply checkvar_Ok in Ec. destruct Ec as [_ [_ [A3 _]]].
  unfold shape in A3. inversion A3 as [[B1 B2]].
  unfold du_ready. rewrite B1. subst self. simpl. auto.
Qed.

(** X18: on a constructed object whose pre-checks pass, no array
    operation of a formulation fails and the outcome is that of
    [cs.nlpsol] on the assembled problem: the formulation returns the
    object with that problem as its solver when the backend builds it, and
    raises the backend's RuntimeError otherwise.  The pre-checks are: uloss
    is one of the three, uref is defined if uloss is ['uus'], and for
    ['du'] u_dim, Tini and Np are positive; then (u_dim + y_dim) * Tini <
    g_dim for [init_DeePCsolver], and both weights given with
    u_dim * Tini < g_dim for [init_RDeePCsolver]. *)
Theorem formulation_succeeds nu ny nT nTini nNp ys0 ud yd Q0 R0 us0 lg ly
    ineqconidx ineqconbd (self : deepctools) (uloss : string) (opts : dict Qc) :
  __init__ nu ny nT nTini nNp ys0 ud yd Q0 R0 us0 lg ly ineqconidx ineqconbd
  = Ok self ->
  uloss_known uloss = true ->
  (uloss = "uus" -> uref self <> None) ->
  (uloss = "du" -> 1 <= nu /\ 1 <= nTini /\ 1 <= nNp) ->
  ((nu + ny) * nTini < g_dim self ->
   exists prob,
     nlp_opts prob = opts /\ nlp_g prob = DeePC_constraints self /\
     (nlpsol_new prob opts = None ->
      exists self', init_DeePCsolver self uloss opts = Ok self' /\
                    solver self' = Some prob) /\
     (forall msg, nlpsol_new prob opts = Some msg ->
      init_DeePCsolver self uloss opts = Raise (RuntimeError msg))) /\
  (lg <> None -> ly <> None -> nu * nTini < g_dim self ->
   exists prob,
     nlp_opts prob = opts /\ nlp_g prob = RDeePC_constraints self /\
     (nlpsol_new prob opts = None ->
      exists self', init_RDeePCsolver self uloss opts = Ok self' /\
                    solver self' = Some prob) /\
     (forall msg, nlpsol_new prob opts = Some msg ->
      init_RDeePCsolver self uloss opts = Raise (RuntimeError msg))).
Proof.
  intros Hi Hk Hus Hdu.
  pose proof (init_well_shaped _ _ _ _ _ _ _ _ _ _ _ _ _ _ _ _ Hi) as W.
  assert (Hdr : uloss = "du" -> du_ready self).
  { intros K. destruct (Hdu K) as [D0 [D1 D2]].
    apply (init_du_ready _ _ _ _ _ _ _ _ _ _ _ _ _ _ _ _ Hi); [lia | auto]. }
  destruct (init_inv _ _ _ _ _ _ _ _ _ _ _ _ _ _ _ _ Hi)
    as [a0 [yref_t [uref' [Hud' [Hyd' [hc [lb [ub
         [_ [_ [_ [_ [_ [Es _]]]]]]]]]]]]]].
  assert (Fu : u_dim self = nu) by (subst self; reflexivity).
  assert (Fy : y_dim self = ny) by (subst self; reflexivity).
  assert (Ft : Tini self = nTini) by (subst self; reflexivity).
  assert (Fg : lambda_g self = lg) by (subst self; reflexivity).
  assert (Fl : lambda_y self = ly) by (subst self; reflexivity).
  clear Es. split.
  - intros Hd.
    destruct (DeePC_objective_ex self uloss W Hk Hus Hdr) as [obj [Eo Hobj]].
    exists (mk_nlp obj (DeePC_constraints self) opts).
    split; [reflexivity |]. split; [reflexivity |].
    assert (S : init_DeePCsolver self uloss opts
                = (handle <- cs_nlpsol (mk_nlp obj (DeePC_constraints self) opts) ;;
                   Ok (set_solver self handle
                         (repeat 0%Qc (uini_rows self) ++ repeat 0%Qc (yini_rows self)
                          ++ lbc_ineq self)
                         (repeat 0%Qc (uini_rows self) ++ repeat 0%Qc (yini_rows self)
                          ++ ubc_ineq self)))).
    { unfold init_DeePCsolver. rewrite Hk. simpl negb. cbv iota.
      rewrite Fu, Fy, Ft. apply Z.leb_gt in Hd. rewrite Hd.
      rewrite Eo. simpl. rewrite (build_ex self obj Hobj). simpl.
      rewrite (build_ex self (DeePC_constraints self)); [reflexivity |].
      intros g uini yini G U Y. exact (DeePC_constraints_ex self g uini yini W G U Y). }
    rewrite S. unfold cs_nlpsol. simpl nlp_opts. split.
    + intros Hn. rewrite Hn. simpl. eexists. split; reflexivity.
    + intros msg Hn. rewrite Hn. reflexivity.
  - intros Ng Ny Hd.
    destruct lg as [mg |]; [| contradiction].
    destruct ly as [my |]; [| contradiction].
    destruct (RDeePC_objective_ex self mg my uloss W Hk Fg Fl Hus Hdr)
      as [obj [Eo Hobj]].
    exists (mk_nlp obj (RDeePC_constraints self) opts).
    split; [reflexivity |]. split; [reflexivity |].
    assert (S : init_RDeePCsolver self uloss opts
                = (handle <- cs_nlpsol (mk_nlp obj (RDeePC_constraints self) opts) ;;
                   Ok (set_solver self handle
                         (repeat 0%Qc (uini_rows self) ++ lbc_ineq self)
                         (repeat 0%Qc (uini_rows self) ++ ubc_ineq self)))).
    { unfold init_RDeePCsolver. rewrite Hk. simpl negb. cbv iota.
      rewrite Fg, Fl, Fu, Ft. apply Z.leb_gt in Hd. rewrite Hd.
      rewrite Eo. simpl. rewrite (build_ex self obj Hobj). simpl.
      rewrite (build_ex self (RDeePC_constraints self)); [reflexivity |].
      intros g uini yini G U Y. exact (RDeePC_constraints_ex self g uini yini W G U). }
    rewrite S. unfold cs_nlpsol. simpl nlp_opts. split.
    + intros Hn. rewrite Hn. simpl. eexists. split; reflexivity.
    + intros msg Hn. rewrite Hn. reflexivity.
Qed.

(** X19: on a constructed and formulated object the stored objective and
    constraint stack are defined at every column g of g_dim rows, uini of
    u_dim * Tini rows and yini of y_dim * Tini rows (for ['du'] under the
    same condition on the dimensions as for the formulation itself). *)
Theorem problem_defined nu ny nT nTini nNp ys0 ud yd Q0 R0 us0 lg ly
    ineqconidx ineqconbd (self self' : deepctools) (uloss : string) (opts : dict Qc) :
  __init__ nu ny nT nTini nNp ys0 ud yd Q0 R0 us0 lg ly ineqconidx ineqconbd
  = Ok self ->
  (uloss = "du" -> 0 <= nu /\ (1 <= nu -> 1 <= nTini /\ 1 <= nNp)) ->
  init_DeePCsolver self uloss opts = Ok self' \/
  init_RDeePCsolver self uloss opts = Ok self' ->
  exists prob,
    solver self' = Some prob /\
    forall g uini yini,
      column_of (Z.to_nat (g_dim self)) g ->
      column_of (Z.to_nat (nu * nTini)) uini ->
      column_of (Z.to_nat (ny * nTini)) yini ->
      (exists o, nlp_f prob g uini yini = Ok o) /\
      (exists c, nlp_g prob g uini yini = Ok c).
Proof.
  intros Hi Hdu Hf.
  pose proof (init_well_shaped _ _ _ _ _ _ _ _ _ _ _ _ _ _ _ _ Hi) as W.
  assert (Hdr : uloss = "du" -> du_ready self).
  { intros K. destruct (Hdu K) as [D0 D1].
    exact (init_du_ready _ _ _ _ _ _ _ _ _ _ _ _ _ _ _ _ Hi D0 D1). }
  destruct (init_inv _ _ _ _ _ _ _ _ _ _ _ _ _ _ _ _ Hi)
    as [a0 [yref_t [uref' [Hud' [Hyd' [hc [lb [ub
         [_ [_ [_ [_ [_ [Es _]]]]]]]]]]]]]].
  assert (Fu : uini_rows self = Z.to_nat (nu * nTini)) by (subst self; reflexivity).
  assert (Fy : yini_rows self = Z.to_nat (ny * nTini)) by (subst self; reflexivity).
  clear Es. rewrite <- Fu, <- Fy. change (Z.to_nat (g_dim self)) with (g_rows self).
  destruct Hf as [Hf | Hf].
  - destruct (init_DeePCsolver_checks _ _ _ _ Hf) as [Hk _].
    destruct (init_DeePCsolver_Ok _ _ _ _ Hf) as [obj [Eo [_ Es]]]. subst self'.
    assert (Hus : uloss = "uus" -> uref self <> None).
    { intros K Hn. subst uloss. unfold DeePC_objective in Eo.
      simpl in Eo. rewrite Hn in Eo. discriminate. }
    destruct (DeePC_objective_ex self uloss W Hk Hus Hdr) as [obj' [Eo' Hobj]].
    rewrite Eo in Eo'. inversion Eo'; subst obj'.
    eexists. split; [reflexivity |]. simpl. intros g uini yini G U Y. split.
    + exact (Hobj g uini yini G U Y).
    + exact (DeePC_constraints_ex self g uini yini W G U Y).
  - destruct (init_RDeePCsolver_checks _ _ _ _ Hf) as [Hk _].
    destruct (init_RDeePCsolver_Ok _ _ _ _ Hf)
      as [obj [mg [my [Hg [Hy [Eo [_ Es]]]]]]]. subst self'.
    assert (Hus : uloss = "uus" -> uref self <> None).
    { intros K Hn. subst uloss. unfold RDeePC_objective in Eo.
      simpl in Eo. rewrite Hn in Eo. discriminate. }
    destruct (RDeePC_objective_ex self mg my uloss W Hk Hg Hy Hus Hdr)
      as [obj' [Eo' Hobj]].
    rewrite Eo in Eo'. inversion Eo'; subst obj'.
    eexists. split; [reflexivity |]. simpl. intros g uini yini G U Y. split.
    + exact (Hobj g uini yini G U Y).
    + exact (RDeePC_constraints_ex self g uini yini W G U).
Qed.

(** ** Errors of the constraint specification *)

Lemma ineq_loop_app_Raise (self : deepctools) (bdo : option (dict (list Qc)))
    (items1 items2 : dict (list Z)) (varname : string) (idx : list Z)
    (r : list ndarray * list (list Qc) * list (list Qc)) (e : exn) :
  ineq_loop self bdo items1 = Ok r ->
  ineq_entry self bdo varname idx = Raise e ->
  ineq_loop self bdo (items1 ++ (varname, idx) :: items2) = Raise e.
Proof.
  revert r. induction items1 as [| [k l] items1 IH]; intros r H1 He; simpl.
  - rewrite He. reflexivity.
  - simpl in H1. bind_as H1 trip Et. destruct trip as [[Hsel lbt] ubt].
    bind_as H1 rest Er. rewrite Et. simpl.
    rewrite (IH _ Er He). reflexivity.
Qed.

(** X20: how [_init_ineq_cons] fails on a specification.  An empty
    dictionary is not the unconstrained case: it raises the ValueError of
    [np.concatenate].  Otherwise the first entry that cannot be processed
    decides: a key other than ['u'] and ['y'] raises the ValueError about
    the variable name, before any bound is looked up; a recognised key
    raises TypeError when [ineqconbd] is [None], and KeyError for its lower
    bound, or else its upper bound, when that is missing. *)
Theorem init_ineq_cons_errors (self : deepctools) (bdo : option (dict (list Qc))) :
  _init_ineq_cons self (Some []) bdo
  = Raise (ValueError "need at least one array to concatenate") /\
  forall items1 items2 varname idx r,
    ineq_loop self bdo items1 = Ok r ->
    (varname <> "u" -> varname <> "y" ->
     _init_ineq_cons self (Some (items1 ++ (varname, idx) :: items2)) bdo
     = Raise (ValueError "variable not exist, should be 'u' or/and 'y'!")) /\
    (varname = "u" \/ varname = "y" ->
     (bdo = None ->
      _init_ineq_cons self (Some (items1 ++ (varname, idx) :: items2)) bdo
      = Raise (TypeError "'NoneType' object is not subscriptable")) /\
     (forall bd, bdo = Some bd -> lookup (lb_key varname) bd = None ->
      _init_ineq_cons self (Some (items1 ++ (varname, idx) :: items2)) bdo
      = Raise (KeyError (lb_key varname))) /\
     (forall bd, bdo = Some bd -> lookup (lb_key varname) bd <> None ->
      lookup (ub_key varname) bd = None ->
      _init_ineq_cons self (Some (items1 ++ (varname, idx) :: items2)) bdo
      = Raise (KeyError (ub_key varname)))).
Proof.
  split; [reflexivity |].
  intros items1 items2 varname idx r Hr.
  assert (S : forall e, ineq_entry self bdo varname idx = Raise e ->
              _init_ineq_cons self (Some (items1 ++ (varname, idx) :: items2)) bdo
              = Raise e).
  { intros e He. unfold _init_ineq_cons.
    rewrite (ineq_loop_app_Raise _ _ _ items2 _ _ _ _ Hr He). reflexivity. }
  split.
  - intros Hu Hy. apply S. unfold ineq_entry.
    apply String.eqb_neq in Hu. apply String.eqb_neq in Hy.
    rewrite Hu, Hy. reflexivity.
  - intros Hk. split; [| split].
    + intros Hb. subst bdo. apply S. unfold ineq_entry.
      destruct Hk as [Hk | Hk]; subst varname; reflexivity.
    + intros bd Hb Hl. subst bdo. apply S. unfold ineq_entry.
      destruct Hk as [Hk | Hk]; subst varname; simpl in *;
        unfold lb_key in Hl; simpl in Hl; rewrite Hl; reflexivity.
    + intros bd Hb Hl Hu. subst bdo. apply S. unfold ineq_entry.
      destruct Hk as [Hk | Hk]; subst varname; simpl in *;
        unfold lb_key in Hl; unfold ub_key in Hu; simpl in Hl, Hu;
        destruct (lookup _ bd) eqn:E1 in Hl; try contradiction;
        rewrite E1; simpl; rewrite Hu; reflexivity.
Qed.


(** * The objectives, the constraint stack and the solve step, entry by entry *)

(** ** Arrays by their entries *)

(** The array operations of the code, computed on arrays that are given by
    their entries: each returns the array of the expected entries. *)

Lemma nth_map_seq {A : Type} (f : nat -> A) (n j : nat) (d : A) :
  (j < n)%nat -> nth j (map f (seq 0 n)) d = f j.
Proof.
  intros H.
  rewrite (nth_indep _ d (f 0%nat)) by (rewrite length_map, length_seq; exact H).
  rewrite (map_nth f). rewrite seq_nth by exact H. reflexivity.
Qed.

Lemma map_seq_ext {A : Type} (f g : nat -> A) (n : nat) :
  (forall i, (i < n)%nat -> f i = g i) -> map f (seq 0 n) = map g (seq 0 n).
Proof.
  intros H. apply map_ext_in. intros i Hi. apply in_seq in Hi. apply H. lia.
Qed.

Lemma map_nth_seq {A : Type} (l : list A) (d : A) :
  map (fun i => nth i l d) (seq 0 (length l)) = l.
Proof.
  apply nth_ext with (d := d) (d' := d).
  - rewrite length_map, length_seq. reflexivity.
  - intros i Hi. rewrite length_map, length_seq in Hi.
    apply (nth_map_seq (fun i => nth i l d)). exact Hi.
Qed.

Lemma to_array_ext (m n : nat) (M N : mat) :
  (forall i j, (i < m)%nat -> (j < n)%nat -> M i j = N i j) ->
  to_array m n M = to_array m n N.
Proof.
  intros H. unfold to_array. f_equal.
  apply map_seq_ext. intros i Hi. apply map_seq_ext. intros j Hj. auto.
Qed.

Lemma sigma_ext (n : nat) (f g : nat -> Qc) :
  (forall k, (k < n)%nat -> f k = g k) -> sigma n f = sigma n g.
Proof. intros H. unfold sigma. f_equal. apply map_seq_ext. exact H. Qed.

Lemma sum_opp (f : nat -> Qc) (l : list nat) :
  fold_right Qcplus 0%Qc (map (fun k => (- f k)%Qc) l)
  = (- fold_right Qcplus 0%Qc (map f l))%Qc.
Proof. induction l as [| k l IH]; simpl; [ring | rewrite IH; ring]. Qed.

Lemma sigma_opp (n : nat) (f : nat -> Qc) :
  sigma n (fun k => (- f k)%Qc) = (- sigma n f)%Qc.
Proof. apply sum_opp. Qed.

Lemma nrows_to_array (m n : nat) (M : mat) : nrows (to_array m n M) = m.
Proof. unfold nrows, to_array. simpl. rewrite length_map, length_seq. reflexivity. Qed.

(** A rectangular array is the array of its entries. *)
Lemma to_array_m_of (a : ndarray) :
  rect a = true -> to_array (nrows a) (ncols a) (m_of a) = a.
Proof.
  destruct a as [c rs]. unfold rect, to_array, m_of, nrows. simpl. intros H.
  f_equal. rewrite forallb_forall in H.
  apply nth_ext with (d := []) (d' := []).
  - rewrite length_map, length_seq. reflexivity.
  - intros i Hi. rewrite length_map, length_seq in Hi.
    rewrite nth_map_seq by exact Hi.
    assert (L : length (nth i rs []) = c).
    { apply Nat.eqb_eq. apply H. apply nth_In. exact Hi. }
    rewrite <- L. apply map_nth_seq.
Qed.

Lemma as_array (a : ndarray) (m n : nat) :
  rect a = true -> nrows a = m -> ncols a = n -> a = to_array m n (m_of a).
Proof. intros H Hm Hn. subst m n. symmetry. apply to_array_m_of. exact H. Qed.

Lemma dot_map (f g : nat -> Qc) (l : list nat) :
  dot (map f l) (map g l) = fold_right Qcplus 0%Qc (map (fun k => (f k * g k)%Qc) l).
Proof. induction l as [| k l IH]; simpl; [reflexivity | rewrite IH; reflexivity]. Qed.

Lemma matmul_to_array (m n p : nat) (M N : mat) :
  matmul (to_array m n M) (to_array n p N) = Ok (to_array m p (m_mul n M N)).
Proof.
  unfold matmul, to_array, nrows. simpl.
  rewrite length_map, length_seq, Nat.eqb_refl.
  f_equal. f_equal. rewrite map_map. apply map_seq_ext. intros i Hi.
  apply map_seq_ext. intros j Hj. unfold column. rewrite map_map.
  rewrite (map_seq_ext (fun k => nth j (map (fun j0 => N k j0) (seq 0 p)) 0%Qc)
             (fun k => N k j))
    by (intros k Hk; apply nth_map_seq; exact Hj).
  unfold m_mul, sigma. apply dot_map.
Qed.

Lemma transpose_to_array (m n : nat) (M : mat) :
  transpose (to_array m n M) = to_array n m (m_t M).
Proof.
  unfold transpose, to_array, nrows. simpl. rewrite length_map, length_seq.
  f_equal. apply map_seq_ext. intros j Hj. unfold column. rewrite map_map.
  apply map_seq_ext. intros i Hi. unfold m_t. apply nth_map_seq. exact Hj.
Qed.

Lemma zip_with_map (f : Qc -> Qc -> Qc) (g h : nat -> Qc) (l : list nat) :
  zip_with f (map g l) (map h l) = map (fun k => f (g k) (h k)) l.
Proof. induction l as [| k l IH]; simpl; [reflexivity | rewrite IH; reflexivity]. Qed.

Lemma zip_rows_map (f : Qc -> Qc -> Qc) (g h : nat -> list Qc) (l : list nat) :
  zip_rows f (map g l) (map h l) = map (fun k => zip_with f (g k) (h k)) l.
Proof. induction l as [| k l IH]; simpl; [reflexivity | rewrite IH; reflexivity]. Qed.

Lemma pointwise_to_array (f : Qc -> Qc -> Qc) (m n : nat) (M N : mat) :
  pointwise f (to_array m n M) (to_array m n N)
  = Ok (to_array m n (fun i j => f (M i j) (N i j))).
Proof.
  unfold pointwise, to_array, nrows. simpl.
  rewrite !length_map, !length_seq, !Nat.eqb_refl. simpl.
  f_equal. f_equal. rewrite zip_rows_map. apply map_ext. intros i.
  apply zip_with_map.
Qed.

Lemma nd_add_to_array (m n : nat) (M N : mat) :
  nd_add (to_array m n M) (to_array m n N) = Ok (to_array m n (m_add M N)).
Proof. apply pointwise_to_array. Qed.

Lemma nd_sub_to_array (m n : nat) (M N : mat) :
  nd_sub (to_array m n M) (to_array m n N) = Ok (to_array m n (m_sub M N)).
Proof. apply pointwise_to_array. Qed.

Lemma nd_map_to_array (f : Qc -> Qc) (m n : nat) (M : mat) :
  nd_map f (to_array m n M) = to_array m n (fun i j => f (M i j)).
Proof.
  unfold nd_map, to_array. simpl. f_equal. rewrite map_map.
  apply map_ext. intros i. apply map_map.
Qed.

Lemma nd_neg_to_array (m n : nat) (M : mat) :
  nd_neg (to_array m n M) = to_array m n (m_opp M).
Proof. apply nd_map_to_array. Qed.

Lemma nd_scale_to_array (k : Qc) (m n : nat) (M : mat) :
  nd_scale k (to_array m n M) = to_array m n (m_scale k M).
Proof. apply nd_map_to_array. Qed.

(** Column vectors. *)
Lemma colv_to_array (l : list Qc) : colv l = to_array (length l) 1 (v_of l).
Proof.
  unfold colv, to_array, v_of. f_equal. simpl.
  transitivity (map (fun x : Qc => [x]) (map (fun i => nth i l 0%Qc) (seq 0 (length l)))).
  - rewrite map_nth_seq. reflexivity.
  - rewrite map_map. reflexivity.
Qed.

Lemma to_array_colv (n : nat) (F : mat) :
  to_array n 1 F = colv (map (fun i => F i 0%nat) (seq 0 n)).
Proof. unfold to_array, colv. simpl. rewrite map_map. reflexivity. Qed.

Lemma zeros_colv (n : nat) : zeros n 1 = colv (repeat 0%Qc n).
Proof.
  unfold zeros, colv. simpl. f_equal.
  induction n as [| n IH]; simpl; [reflexivity | rewrite IH; reflexivity].
Qed.

Lemma vertcat_colv (a b : list Qc) : vertcat (colv a) (colv b) = Ok (colv (a ++ b)).
Proof.
  unfold vertcat, concatenate, colv. simpl.
  rewrite app_nil_r, map_app. reflexivity.
Qed.

Lemma clamp_neg (n : nat) (k : Z) :
  0 < k -> clamp n (- k) = (n - Z.to_nat k)%nat.
Proof.
  intros H. unfold clamp.
  destruct (- k <? 0) eqn:E; [| apply Z.ltb_ge in E; lia].
  destruct (Z.max_spec 0 (Z.of_nat n + - k)) as [[H1 H2] | [H1 H2]]; rewrite H2; lia.
Qed.

(** [x[-k:]] and [x[:-k]] on a column, for a positive [k]: the last [k]
    entries and all the entries but the last [k]. *)
Lemma rows_from_colv (k : Z) (l : list Qc) :
  0 < k -> rows_from (- k) (colv l) = colv (skipn (length l - Z.to_nat k) l).
Proof.
  intros H. unfold rows_from, slice_from, colv. simpl.
  rewrite length_map, clamp_neg by exact H. rewrite skipn_map. reflexivity.
Qed.

Lemma rows_to_colv (k : Z) (l : list Qc) :
  0 < k -> rows_to (- k) (colv l) = colv (firstn (length l - Z.to_nat k) l).
Proof.
  intros H. unfold rows_to, slice_to, colv. simpl.
  rewrite length_map, clamp_neg by exact H. rewrite firstn_map. reflexivity.
Qed.

(** The products of the objectives. *)
Lemma tmm_to_array (a b d : nat) (MA MW MB : mat) :
  tmm (to_array a b MA) (to_array a a MW) (to_array a d MB)
  = Ok (to_array b d (m_mul a (m_mul a (m_t MA) MW) MB)).
Proof.
  unfold tmm. rewrite transpose_to_array, matmul_to_array. cbn [bind].
  apply matmul_to_array.
Qed.

Lemma neg_tmm_to_array (a b d : nat) (MA MW MB : mat) :
  neg_tmm (to_array a b MA) (to_array a a MW) (to_array a d MB)
  = Ok (to_array b d (m_opp (m_mul a (m_mul a (m_t MA) MW) MB))).
Proof.
  unfold neg_tmm. rewrite transpose_to_array, nd_neg_to_array, matmul_to_array.
  cbn [bind]. rewrite matmul_to_array. f_equal.
  apply to_array_ext. intros i j Hi Hj. unfold m_opp, m_mul, m_t.
  rewrite <- sigma_opp. apply sigma_ext. intros k Hk.
  rewrite (sigma_ext _ _ (fun l => (- (MA l i * MW l k))%Qc)) by (intros; ring).
  rewrite sigma_opp. ring.
Qed.

Lemma quad_form_to_array (n : nat) (x M : mat) :
  quad_form (to_array n 1 x) (to_array n n M) = Ok (to_array 1 1 (spec_quad n x M)).
Proof.
  unfold quad_form. rewrite transpose_to_array, matmul_to_array. cbn [bind].
  apply matmul_to_array.
Qed.

Lemma qp_obj_to_array (n : nat) (H f g : mat) :
  qp_obj (to_array n n H) (to_array n 1 f) (to_array n 1 g)
  = Ok (to_array 1 1 (spec_qp n H f g)).
Proof.
  unfold qp_obj. rewrite quad_form_to_array. cbn [bind].
  rewrite transpose_to_array, matmul_to_array. cbn [bind].
  rewrite nd_scale_to_array. apply nd_add_to_array.
Qed.

(** Products with a column vector: no assumption on the matrix. *)
Lemma sigma_S (n : nat) (f : nat -> Qc) :
  sigma (S n) f = (f 0%nat + sigma n (fun k => f (S k)))%Qc.
Proof.
  unfold sigma. simpl. f_equal. rewrite <- seq_shift, map_map. reflexivity.
Qed.

Lemma dot_sigma (r v : list Qc) :
  dot r v = sigma (length v) (fun k => (nth k r 0 * nth k v 0)%Qc).
Proof.
  revert r. induction v as [| y v IH]; intros r.
  - destruct r; reflexivity.
  - change (length (y :: v)) with (S (length v)).
    rewrite sigma_S. destruct r as [| x r]; simpl.
    + rewrite (sigma_ext _ _ (fun _ => 0%Qc)).
      * assert (Z0 : forall n, sigma n (fun _ => 0%Qc) = 0%Qc).
        { induction n as [| n IHn]; [reflexivity | rewrite sigma_S, IHn; ring]. }
        rewrite Z0. ring.
      * intros k _. destruct k; ring.
    + rewrite IH. reflexivity.
Qed.

Lemma column_colv (v : list Qc) : column (rows (colv v)) 0 = v.
Proof.
  unfold column, colv. simpl.
  induction v as [| x v IH]; simpl; [reflexivity | rewrite IH; reflexivity].
Qed.

Lemma rows_spec_matvec (P : ndarray) (v : list Qc) :
  map (fun r => dot r v) (rows P) = spec_matvec P v.
Proof.
  unfold spec_matvec, m_of, nrows.
  rewrite <- (map_nth_seq (rows P) []) at 1. rewrite map_map.
  apply map_ext. intros i. apply dot_sigma.
Qed.

Lemma matmul_colv (P : ndarray) (v : list Qc) :
  ncols P = length v -> matmul P (colv v) = Ok (colv (spec_matvec P v)).
Proof.
  intros H. unfold matmul.
  replace (nrows (colv v)) with (length v)
    by (unfold nrows, colv; simpl; rewrite length_map; reflexivity).
  rewrite H, Nat.eqb_refl. f_equal.
  transitivity (mk_nd 1 (map (fun r => [dot r v]) (rows P))).
  - f_equal. apply map_ext. intros r.
    change (ncols (colv v)) with 1%nat. cbn [seq map].
    rewrite column_colv. reflexivity.
  - unfold colv. rewrite <- rows_spec_matvec, map_map. reflexivity.
Qed.

Lemma matvec_spec (P : ndarray) (v : list Qc) :
  ncols P = length v -> matvec P v = Ok (spec_matvec P v).
Proof.
  intros H. unfold matvec. rewrite H, Nat.eqb_refl. f_equal.
  apply rows_spec_matvec.
Qed.

Lemma zip_with_colv (f : Qc -> Qc -> Qc) (a b : list Qc) :
  zip_rows f (map (fun x => [x]) a) (map (fun x => [x]) b)
  = map (fun x => [x]) (zip_with f a b).
Proof.
  revert b. induction a as [| x a IH]; intros [| y b]; simpl; try reflexivity.
  rewrite IH. reflexivity.
Qed.

Lemma nd_sub_colv (a b : list Qc) :
  length a = length b -> nd_sub (colv a) (colv b) = Ok (colv (zip_with Qcminus a b)).
Proof.
  intros H. unfold nd_sub, pointwise, colv, nrows. simpl.
  rewrite !length_map, H, Nat.eqb_refl. simpl. rewrite zip_with_colv. reflexivity.
Qed.

Lemma eq_rows_zip (P : ndarray) (g ini : list Qc) :
  length ini = nrows P ->
  zip_with Qcminus (spec_matvec P g) ini = spec_eq_rows P g ini.
Proof.
  intros H. unfold spec_matvec, spec_eq_rows.
  rewrite <- (map_nth_seq ini 0%Qc) at 1. rewrite H. apply zip_with_map.
Qed.

Lemma length_spec_eq_rows (P : ndarray) (g ini : list Qc) :
  length (spec_eq_rows P g ini) = nrows P.
Proof. unfold spec_eq_rows. rewrite length_map, length_seq. reflexivity. Qed.

Lemma length_spec_matvec (P : ndarray) (v : list Qc) :
  length (spec_matvec P v) = nrows P.
Proof. unfold spec_matvec. rewrite length_map, length_seq. reflexivity. Qed.

(** One history-matching block at a decision vector and a history of the
    declared lengths. *)
Lemma match_block_colv (P : ndarray) (g ini : list Qc) :
  ncols P = length g -> length ini = nrows P ->
  (Pg <- matmul P (colv g) ;; nd_sub Pg (colv ini))
  = Ok (colv (spec_eq_rows P g ini)).
Proof.
  intros H1 H2. rewrite matmul_colv by exact H1. cbn [bind].
  rewrite nd_sub_colv by (rewrite length_spec_matvec; auto).
  rewrite eq_rows_zip by exact H2. reflexivity.
Qed.

Lemma concatenate_colv3 (a b c : list Qc) :
  concatenate [colv a; colv b; colv c] = Ok (colv (a ++ b ++ c)).
Proof.
  unfold concatenate, colv. simpl. rewrite app_nil_r, !map_app. reflexivity.
Qed.

Lemma concatenate_colv2 (a b : list Qc) :
  concatenate [colv a; colv b] = Ok (colv (a ++ b)).
Proof. apply vertcat_colv. Qed.

Lemma length_colv (l : list Qc) : nrows (colv l) = length l.
Proof. unfold nrows, colv. simpl. apply length_map. Qed.

Lemma matmul_inner (a b c : ndarray) : matmul a b = Ok c -> ncols a = nrows b.
Proof.
  unfold matmul. destruct (Nat.eqb (ncols a) (nrows b)) eqn:E; [| discriminate].
  intros _. apply Nat.eqb_eq. exact E.
Qed.

(** The stack of the standard design at operands of the declared
    lengths. *)
Lemma DeePC_constraints_value (self : deepctools) (g uini yini : list Qc) :
  build self (DeePC_constraints self) = Ok tt ->
  length g = g_rows self -> length uini = uini_rows self ->
  length yini = yini_rows self ->
  exists a,
    Hc self = HcArray a /\
    DeePC_constraints self (colv g) (colv uini) (colv yini)
    = Ok (colv (spec_eq_rows (Up self) g uini ++ spec_eq_rows (Yp self) g yini
                ++ spec_matvec a g)).
Proof.
  intros B Lg Lu Ly.
  destruct (build_DeePC_constraints _ B) as [RU RY].
  unfold build in B. bind_as B c E. unfold DeePC_constraints in E.
  bind_as E Upg E1. bind_as E eu E2. bind_as E Ypg E3. bind_as E ey E4.
  bind_as E hc E5.
  apply matmul_inner in E1, E3. rewrite nrows_zeros in E1, E3.
  unfold Hc_times in E5. destruct (Hc self) as [| a] eqn:EH; [discriminate |].
  apply matmul_inner in E5. rewrite nrows_zeros in E5.
  exists a. split; [reflexivity |].
  unfold DeePC_constraints.
  pose proof (match_block_colv (Up self) g uini) as M1.
  pose proof (match_block_colv (Yp self) g yini) as M2.
  unfold bind in M1, M2. unfold bind at 1 2.
  destruct (matmul (Up self) (colv g)) as [Upg' |] eqn:F1;
    [| (discriminate M1; congruence)].
  rewrite M1 by congruence.
  unfold bind at 1 2.
  destruct (matmul (Yp self) (colv g)) as [Ypg' |] eqn:F2;
    [| (discriminate M2; congruence)].
  rewrite M2 by congruence.
  unfold Hc_times. rewrite EH, matmul_colv by congruence. cbn [bind].
  apply concatenate_colv3.
Qed.

(** The stack of the robust design. *)
Lemma RDeePC_constraints_value (self : deepctools) (g uini yini : list Qc) :
  build self (RDeePC_constraints self) = Ok tt ->
  length g = g_rows self -> length uini = uini_rows self ->
  exists a,
    Hc self = HcArray a /\
    RDeePC_constraints self (colv g) (colv uini) (colv yini)
    = Ok (colv (spec_eq_rows (Up self) g uini ++ spec_matvec a g)).
Proof.
  intros B Lg Lu.
  pose proof (build_RDeePC_constraints _ B) as RU.
  unfold build in B. bind_as B c E. unfold RDeePC_constraints in E.
  bind_as E Upg E1. bind_as E eu E2. bind_as E hc E5.
  apply matmul_inner in E1. rewrite nrows_zeros in E1.
  unfold Hc_times in E5. destruct (Hc self) as [| a] eqn:EH; [discriminate |].
  apply matmul_inner in E5. rewrite nrows_zeros in E5.
  exists a. split; [reflexivity |].
  unfold RDeePC_constraints.
  pose proof (match_block_colv (Up self) g uini) as M1.
  unfold bind in M1. unfold bind at 1 2.
  destruct (matmul (Up self) (colv g)) as [Upg' |] eqn:F1;
    [| (discriminate M1; congruence)].
  rewrite M1 by congruence.
  unfold Hc_times. rewrite EH, matmul_colv by congruence. cbn [bind].
  apply concatenate_colv2.
Qed.

(** ** The arrays of a constructed object are rectangular *)

Lemma rect_concat (n : nat) (ls : list (list (list Qc))) :
  (forall l, In l ls -> forallb (fun r => Nat.eqb (length r) n) l = true) ->
  forallb (fun r => Nat.eqb (length r) n) (concat ls) = true.
Proof.
  intros H. apply forallb_forall. intros r Hr.
  apply in_concat in Hr. destruct Hr as [l [Hl Hr]].
  apply H in Hl. rewrite forallb_forall in Hl. auto.
Qed.

Lemma rect_hankel (x h : ndarray) (L : Z) : hankel x L = Ok h -> rect h = true.
Proof.
  unfold hankel. destruct (_ <? _); [discriminate |].
  intros H. inversion H. unfold rect. simpl.
  apply forallb_forall. intros r Hr.
  apply in_flat_map in Hr. destruct Hr as [j [_ Hr]].
  apply in_map_iff in Hr. destruct Hr as [d [Hr _]]. subst r.
  rewrite length_map, length_seq. apply Nat.eqb_refl.
Qed.

Lemma rect_slices (k : Z) (a : ndarray) :
  rect a = true -> rect (rows_to k a) = true /\ rect (rows_from k a) = true.
Proof.
  unfold rect, rows_to, rows_from, slice_to, slice_from. simpl. intros H.
  rewrite <- (firstn_skipn (clamp (length (rows a)) k) (rows a)) in H.
  rewrite forallb_app in H. apply andb_prop in H. exact H.
Qed.

Lemma rect_reshape_col (a : ndarray) : rect (reshape_col a) = true.
Proof.
  unfold rect, reshape_col. simpl. apply forallb_forall. intros r Hr.
  apply in_map_iff in Hr. destruct Hr as [x [Hr _]]. subst r. reflexivity.
Qed.

Lemma norm_index_lt (n : nat) (k : Z) (i : nat) :
  norm_index n k = Ok i -> (i < n)%nat.
Proof.
  unfold norm_index.
  destruct ((0 <=? k) && (k <? Z.of_nat n)) eqn:E1.
  - intros H. inversion H. apply andb_prop in E1. destruct E1 as [A B].
    apply Z.leb_le in A. apply Z.ltb_lt in B. lia.
  - destruct ((- Z.of_nat n <=? k) && (k <? 0)) eqn:E2; [| discriminate].
    intros H. inversion H. apply andb_prop in E2. destruct E2 as [A B].
    apply Z.leb_le in A. apply Z.ltb_lt in B. lia.
Qed.

Lemma mapM_Forall {A B : Type} (P : B -> Prop) (f : A -> result B) (l : list A)
    (bs : list B) :
  (forall a b, f a = Ok b -> P b) -> mapM f l = Ok bs -> Forall P bs.
Proof.
  intros Hf. revert bs. induction l as [| x l IH]; simpl; intros bs H.
  - inversion H. constructor.
  - bind_as H b Eb. bind_as H bs' Ebs. inversion H. constructor; eauto.
Qed.

Lemma rect_take_rows (a b : ndarray) (idx : list Z) :
  take_rows a idx = Ok b -> rect a = true -> rect b = true.
Proof.
  unfold take_rows. intros H Ra. bind_as H rs E. inversion H.
  unfold rect in *. simpl. rewrite forallb_forall in Ra.
  apply forallb_forall. apply Forall_forall.
  refine (mapM_Forall _ _ _ _ _ E).
  intros k r Hk. bind_as Hk i Ei. inversion Hk.
  apply Ra. apply nth_In. exact (norm_index_lt _ _ _ Ei).
Qed.

Lemma rect_ineq_loop (self : deepctools) (bdo : option (dict (list Qc)))
    (items : dict (list Z)) (Hs : list ndarray) (ls us : list (list Qc)) :
  rect (Uf self) = true -> rect (Yf self) = true ->
  ineq_loop self bdo items = Ok (Hs, ls, us) ->
  Forall (fun H => rect H = true) Hs.
Proof.
  intros RU RY. revert Hs ls us.
  induction items as [| [k l] items IH]; intros Hs ls us E; simpl in E.
  - inversion E. constructor.
  - bind_as E trip Et. destruct trip as [[Hsel lbt] ubt].
    bind_as E rest Er. destruct rest as [[Hs' ls'] us']. inversion E.
    constructor; [| exact (IH _ _ _ Er)].
    destruct (ineq_entry_inv _ _ _ _ _ _ _ Et) as [bd [_ [_ [Etk _]]]].
    apply (rect_take_rows _ _ _ Etk).
    destruct (base_of_cases self k) as [B | B]; rewrite B; assumption.
Qed.

Lemma rect_concatenate (l : list ndarray) (c : ndarray) :
  Forall (fun H => rect H = true) l -> concatenate l = Ok c -> rect c = true.
Proof.
  unfold concatenate. intros Hl. destruct l as [| a l']; [discriminate |].
  destruct (forallb _ l') eqn:E; [| discriminate].
  intros H.
  assert (Hc : c = mk_nd (ncols a) (concat (map rows (a :: l')))) by congruence.
  subst c. unfold rect. cbn [ncols rows].
  apply rect_concat. intros rs Hrs.
  apply in_map_iff in Hrs. destruct Hrs as [b [Hb Hin]]. subst rs.
  rewrite Forall_forall in Hl. pose proof (Hl b Hin) as Rb.
  assert (C : ncols b = ncols a).
  { destruct Hin as [Hin | Hin]; [subst b; reflexivity |].
    rewrite forallb_forall in E. apply Nat.eqb_eq. auto. }
  unfold rect in Rb. rewrite C in Rb. exact Rb.
Qed.

Lemma rect_init_ineq_cons (self : deepctools) (idx : option (dict (list Z)))
    (bdo : option (dict (list Qc))) (hc : hc_value) (l u : list Qc) :
  rect (Uf self) = true -> rect (Yf self) = true ->
  _init_ineq_cons self idx bdo = Ok (hc, l, u) ->
  match hc with HcArray a => rect a | HcPyList => true end = true.
Proof.
  intros RU RY. unfold _init_ineq_cons. intros E.
  destruct idx as [items |]; [| discriminate].
  bind_as E trip Et. destruct trip as [[hc' l'] u'].
  bind_as Et loop El. destruct loop as [[Hs ls] us'].
  bind_as Et a Ea. bind_as Et lb Elb. bind_as Et ub Eub. inversion Et; subst.
  bind_as E lbl E1. bind_as E ubl E2. inversion E; subst.
  apply (rect_concatenate _ _ (rect_ineq_loop _ _ _ _ _ _ RU RY El) Ea).
Qed.

Lemma andb_true_split (a b : bool) : a = true -> b = true -> a && b = true.
Proof. intros -> ->. reflexivity. Qed.

Lemma init_rectangular nu ny nT nTini nNp ys0 ud yd Q0 R0 us0 lg ly
    ineqconidx ineqconbd (self : deepctools) :
  __init__ nu ny nT nTini nNp ys0 ud yd Q0 R0 us0 lg ly ineqconidx ineqconbd
  = Ok self ->
  rect_inputs ys0 ud yd Q0 R0 us0 lg ly = true ->
  rectangular self = true.
Proof.
  intros H RI.
  destruct (init_inv _ _ _ _ _ _ _ _ _ _ _ _ _ _ _ _ H)
    as [a0 [yref_t [uref' [Hud' [Hyd' [hc [lb [ub
         [Eus [Ey [Eu [EHu [EHy [Es [Ec Ei]]]]]]]]]]]]]]].
  unfold rect_inputs in RI.
  repeat (apply andb_prop in RI; destruct RI as [RI ?]).
  destruct (rect_slices (nu * nTini) _ (rect_hankel _ _ _ EHu)) as [RUp RUf].
  destruct (rect_slices (ny * nTini) _ (rect_hankel _ _ _ EHy)) as [RYp RYf].
  assert (Ru : rect_opt uref' = true).
  { destruct (nd_any a0).
    - bind_as Eu t Et. inversion Eu. apply rect_reshape_col.
    - inversion Eu. reflexivity. }
  assert (Rh : match Hc self with HcArray a => rect a | HcPyList => true end = true).
  { replace (Hc self) with hc by (subst self; reflexivity).
    apply (rect_init_ineq_cons _ _ _ _ _ _) with (3 := Ei); subst self; assumption. }
  unfold rectangular. rewrite Rh. subst self. simpl.
  repeat apply andb_true_split; try assumption; try reflexivity.
  apply rect_reshape_col.
Qed.

(** The arrays of a constructed object, by their entries. *)
Lemma object_arrays (self : deepctools) :
  well_shaped self -> rectangular self = true ->
  Up self = to_array (nrows (Up self)) (g_rows self) (m_of (Up self)) /\
  Uf self = to_array (nrows (Uf self)) (g_rows self) (m_of (Uf self)) /\
  Yp self = to_array (nrows (Yp self)) (g_rows self) (m_of (Yp self)) /\
  Yf self = to_array (nrows (Yf self)) (g_rows self) (m_of (Yf self)) /\
  Q self = to_array (nrows (Yf self)) (nrows (Yf self)) (m_of (Q self)) /\
  R self = to_array (nrows (Uf self)) (nrows (Uf self)) (m_of (R self)) /\
  yref self = to_array (nrows (Yf self)) 1 (m_of (yref self)) /\
  (forall r, uref self = Some r -> r = to_array (nrows (Uf self)) 1 (m_of r)) /\
  (forall m, lambda_g self = Some m ->
     m = to_array (g_rows self) (g_rows self) (m_of m)) /\
  (forall m, lambda_y self = Some m ->
     m = to_array (nrows (Yp self)) (nrows (Yp self)) (m_of m)).
Proof.
  intros W RR.
  destruct W as [W1 [W2 [W3 [W4 [W5 [W6 [W7 [W8 [W9 [W10 [W11 [W12
    [W13 [W14 [W15 _]]]]]]]]]]]]]]].
  unfold rectangular in RR.
  repeat (apply andb_prop in RR; destruct RR as [RR ?]).
  repeat split; try (apply as_array; assumption || reflexivity).
  - intros r Hr. destruct (W13 r Hr). apply as_array; try assumption.
    rewrite Hr in *. assumption.
  - intros m Hm. destruct (W14 m Hm). apply as_array; try assumption.
    rewrite Hm in *. assumption.
  - intros m Hm. destruct (W15 m Hm). apply as_array; try congruence.
    rewrite Hm in *. assumption.
Qed.

(** ** The objectives, entry by entry *)

Lemma rows_to_to_array (k : Z) (n : nat) (F : mat) :
  0 < k ->
  rows_to (- k) (to_array n 1 F)
  = colv (firstn (n - Z.to_nat k) (map (fun i => F i 0%nat) (seq 0 n))).
Proof.
  intros H. rewrite to_array_colv, rows_to_colv by exact H.
  rewrite length_map, length_seq. reflexivity.
Qed.

Lemma init_DeePCsolver_build (self self' : deepctools) (uloss : string)
    (opts : dict Qc) :
  init_DeePCsolver self uloss opts = Ok self' ->
  exists obj, DeePC_objective self uloss = Ok obj /\ build self obj = Ok tt.
Proof.
  unfold init_DeePCsolver. intros H.
  destruct (negb (uloss_known uloss)); [discriminate |].
  destruct (_ <=? _); [discriminate |].
  bind_as H obj Eo. bind_as H u1 E1.
  exists obj. split; [exact Eo | exact (build_Ok _ _ _ E1)].
Qed.

Lemma init_RDeePCsolver_build (self self' : deepctools) (uloss : string)
    (opts : dict Qc) :
  init_RDeePCsolver self uloss opts = Ok self' ->
  exists obj lg ly,
    lambda_g self = Some lg /\ lambda_y self = Some ly /\
    RDeePC_objective self lg ly uloss = Ok obj /\ build self obj = Ok tt.
Proof.
  unfold init_RDeePCsolver. intros H.
  destruct (negb (uloss_known uloss)); [discriminate |].
  destruct (lambda_g self) as [lg |]; [| discriminate].
  destruct (lambda_y self) as [ly |]; [| discriminate].
  destruct (_ <=? _); [discriminate |].
  bind_as H obj Eo. bind_as H u1 E1.
  exists obj, lg, ly. repeat split; try assumption. exact (build_Ok _ _ _ E1).
Qed.

(** The matrix H of the robust design. *)
Lemma RDeePC_H_to_array (self : deepctools) (nP nY nU G : nat)
    (MYp MYf MUf MQ MR Mlg Mly : mat) :
  Yp self = to_array nP G MYp -> Yf self = to_array nY G MYf ->
  Uf self = to_array nU G MUf ->
  Q self = to_array nY nY MQ -> R self = to_array nU nU MR ->
  RDeePC_H self (to_array G G Mlg) (to_array nP nP Mly)
  = Ok (to_array G G
          (m_add (m_add (m_add (m_mul nY (m_mul nY (m_t MYf) MQ) MYf)
                               (m_mul nU (m_mul nU (m_t MUf) MR) MUf))
                        (m_mul nP (m_mul nP (m_t MYp) Mly) MYp))
                 Mlg)).
Proof.
  intros EYp EYf EUf EQ ER. unfold RDeePC_H. rewrite EYp, EYf, EUf, EQ, ER.
  rewrite !tmm_to_array. cbn [bind].
  rewrite nd_add_to_array. cbn [bind].
  rewrite nd_add_to_array. cbn [bind].
  apply nd_add_to_array.
Qed.

(** The objective of the robust design for ['u']. *)
Lemma robust_u_value (self : deepctools) (nP nY nU : nat)
    (MYp MYf MUf MQ MR Myr Mlg Mly : mat)
    (obj : ndarray -> ndarray -> ndarray -> result ndarray)
    (gs ys : list Qc) (uini : ndarray) :
  Yp self = to_array nP (length gs) MYp -> Yf self = to_array nY (length gs) MYf ->
  Uf self = to_array nU (length gs) MUf ->
  Q self = to_array nY nY MQ -> R self = to_array nU nU MR ->
  yref self = to_array nY 1 Myr ->
  length ys = nP ->
  RDeePC_objective self (to_array (length gs) (length gs) Mlg) (to_array nP nP Mly) "u"
  = Ok obj ->
  obj (colv gs) uini (colv ys)
  = Ok (to_array 1 1
          (spec_qp (length gs)
             (m_add (m_add (m_add (m_mul nY (m_mul nY (m_t MYf) MQ) MYf)
                                  (m_mul nU (m_mul nU (m_t MUf) MR) MUf))
                           (m_mul nP (m_mul nP (m_t MYp) Mly) MYp))
                    Mlg)
             (m_sub (m_opp (m_mul nP (m_mul nP (m_t MYp) Mly) (v_of ys)))
                    (m_mul nY (m_mul nY (m_t MYf) MQ) Myr))
             (v_of gs))).
Proof.
  intros EYp EYf EUf EQ ER Eyr Ly E.
  unfold RDeePC_objective in E. rewrite String.eqb_refl in E.
  rewrite (RDeePC_H_to_array self nP nY nU (length gs) MYp MYf MUf MQ MR Mlg Mly
             EYp EYf EUf EQ ER) in E.
  cbn [bind] in E. inversion E as [E']. clear E E'.
  rewrite EYp, EYf, EQ, Eyr, (colv_to_array ys), Ly, (colv_to_array gs).
  rewrite neg_tmm_to_array. cbn [bind].
  rewrite tmm_to_array. cbn [bind].
  rewrite nd_sub_to_array. cbn [bind].
  apply qp_obj_to_array.
Qed.

(** The objectives of the standard design for ['u'] and ['uus']. *)
Lemma standard_u_value (self : deepctools) (nY nU : nat)
    (MYf MUf MQ MR Myr : mat)
    (obj : ndarray -> ndarray -> ndarray -> result ndarray)
    (gs : list Qc) (uini yini : ndarray) :
  Yf self = to_array nY (length gs) MYf -> Uf self = to_array nU (length gs) MUf ->
  Q self = to_array nY nY MQ -> R self = to_array nU nU MR ->
  yref self = to_array nY 1 Myr ->
  DeePC_objective self "u" = Ok obj ->
  obj (colv gs) uini yini
  = Ok (to_array 1 1
          (spec_qp (length gs)
             (m_add (m_mul nY (m_mul nY (m_t MYf) MQ) MYf)
                    (m_mul nU (m_mul nU (m_t MUf) MR) MUf))
             (m_opp (m_mul nY (m_mul nY (m_t MYf) MQ) Myr))
             (v_of gs))).
Proof.
  intros EYf EUf EQ ER Eyr E.
  unfold DeePC_objective in E. rewrite String.eqb_refl in E.
  rewrite EYf, EUf, EQ, ER, Eyr in E.
  rewrite !tmm_to_array, neg_tmm_to_array in E. cbn [bind] in E.
  rewrite nd_add_to_array in E. cbn [bind] in E.
  inversion E as [E']. clear E E'.
  rewrite (colv_to_array gs). apply qp_obj_to_array.
Qed.

Lemma standard_uus_value (self : deepctools) (nY nU : nat)
    (MYf MUf MQ MR Myr Mur : mat)
    (obj : ndarray -> ndarray -> ndarray -> result ndarray)
    (gs : list Qc) (uini yini : ndarray) :
  Yf self = to_array nY (length gs) MYf -> Uf self = to_array nU (length gs) MUf ->
  Q self = to_array nY nY MQ -> R self = to_array nU nU MR ->
  yref self = to_array nY 1 Myr ->
  uref self = Some (to_array nU 1 Mur) ->
  DeePC_objective self "uus" = Ok obj ->
  obj (colv gs) uini yini
  = Ok (to_array 1 1
          (spec_qp (length gs)
             (m_add (m_mul nY (m_mul nY (m_t MYf) MQ) MYf)
                    (m_mul nU (m_mul nU (m_t MUf) MR) MUf))
             (m_sub (m_opp (m_mul nY (m_mul nY (m_t MYf) MQ) Myr))
                    (m_mul nU (m_mul nU (m_t MUf) MR) Mur))
             (v_of gs))).
Proof.
  intros EYf EUf EQ ER Eyr Eur E.
  unfold DeePC_objective in E.
  change (String.eqb "uus" "u") with false in E.
  rewrite String.eqb_refl in E. cbv iota in E.
  rewrite Eur, EYf, EUf, EQ, ER, Eyr in E.
  rewrite !tmm_to_array, neg_tmm_to_array in E. cbn [bind] in E.
  rewrite nd_add_to_array in E. cbn [bind] in E.
  rewrite nd_sub_to_array in E. cbn [bind] in E.
  inversion E as [E']. clear E E'.
  rewrite (colv_to_array gs). apply qp_obj_to_array.
Qed.

(** The terms du and y_loss of the ['du'] loss.  The two pieces of u_prev
    must add up to the length of u_cur; a formulation that succeeded has
    checked it. *)
Lemma du_terms_to_array (self : deepctools) (nU nY : nat) (MUf MYf Myr : mat)
    (gs us : list Qc) :
  Uf self = to_array nU (length gs) MUf -> Yf self = to_array nY (length gs) MYf ->
  yref self = to_array nY 1 Myr ->
  0 < u_dim self ->
  (Nat.min (Z.to_nat (u_dim self)) (length us) + (nU - Z.to_nat (u_dim self)) = nU)%nat ->
  du_terms self (colv gs) (colv us)
  = Ok (to_array nU 1
          (m_sub (m_mul (length gs) MUf (v_of gs))
             (v_of (skipn (length us - Z.to_nat (u_dim self)) us
                    ++ firstn (nU - Z.to_nat (u_dim self))
                         (map (fun i => m_mul (length gs) MUf (v_of gs) i 0%nat)
                              (seq 0 nU))))),
        to_array nY 1 (m_sub (m_mul (length gs) MYf (v_of gs)) Myr)).
Proof.
  intros EUf EYf Eyr Hk HL. unfold du_terms.
  rewrite EUf, EYf, Eyr, (colv_to_array gs).
  rewrite !matmul_to_array. cbn [bind].
  rewrite rows_to_to_array, rows_from_colv by exact Hk.
  rewrite vertcat_colv. cbn [bind].
  rewrite (colv_to_array (_ ++ _)).
  replace (length (skipn (length us - Z.to_nat (u_dim self)) us
                   ++ firstn (nU - Z.to_nat (u_dim self))
                        (map (fun i => m_mul (length gs) MUf (v_of gs) i 0%nat)
                             (seq 0 nU)))) with nU
    by (rewrite length_app, length_skipn, length_firstn, length_map, length_seq; lia).
  rewrite !nd_sub_to_array. cbn [bind]. reflexivity.
Qed.

(** What a defined [du_terms] says of the lengths. *)
Lemma du_terms_lengths (self : deepctools) (nU : nat) (MUf : mat)
    (gs us : list Qc) (r : ndarray * ndarray) :
  Uf self = to_array nU (length gs) MUf ->
  0 < u_dim self ->
  du_terms self (colv gs) (colv us) = Ok r ->
  (Nat.min (Z.to_nat (u_dim self)) (length us) + (nU - Z.to_nat (u_dim self)) = nU)%nat.
Proof.
  intros EUf Hk H. unfold du_terms in H.
  rewrite EUf, (colv_to_array gs) in H.
  rewrite !matmul_to_array in H. cbn [bind] in H.
  rewrite rows_to_to_array, rows_from_colv in H by exact Hk.
  rewrite vertcat_colv in H. cbn [bind] in H.
  bind_as H du E. apply pointwise_shape in E. destruct E as [E _].
  rewrite nrows_to_array, length_colv in E.
  rewrite length_app, length_skipn, length_firstn, length_map, length_seq in E.
  lia.
Qed.

Lemma du_obj_to_array (self : deepctools) (nU nY : nat) (MUf MYf MQ MR Myr : mat)
    (gs us : list Qc) :
  Uf self = to_array nU (length gs) MUf -> Yf self = to_array nY (length gs) MYf ->
  Q self = to_array nY nY MQ -> R self = to_array nU nU MR ->
  yref self = to_array nY 1 Myr ->
  0 < u_dim self ->
  (Nat.min (Z.to_nat (u_dim self)) (length us) + (nU - Z.to_nat (u_dim self)) = nU)%nat ->
  du_obj self (colv gs) (colv us)
  = Ok (to_array 1 1
          (m_add
             (spec_quad nY (m_sub (m_mul (length gs) MYf (v_of gs)) Myr) MQ)
             (spec_quad nU
                (m_sub (m_mul (length gs) MUf (v_of gs))
                   (v_of (skipn (length us - Z.to_nat (u_dim self)) us
                          ++ firstn (nU - Z.to_nat (u_dim self))
                               (map (fun i => m_mul (length gs) MUf (v_of gs) i 0%nat)
                                    (seq 0 nU)))))
                MR))).
Proof.
  intros EUf EYf EQ ER Eyr Hk HL. unfold du_obj.
  rewrite (du_terms_to_array self nU nY MUf MYf Myr gs us EUf EYf Eyr Hk HL).
  cbn [bind]. rewrite EQ, ER.
  rewrite !quad_form_to_array. cbn [bind]. apply nd_add_to_array.
Qed.

Lemma rdu_obj_to_array (self : deepctools) (nU nY nP : nat)
    (MUf MYf MYp MQ MR Myr Mlg Mly : mat) (gs us ys : list Qc) :
  Uf self = to_array nU (length gs) MUf -> Yf self = to_array nY (length gs) MYf ->
  Yp self = to_array nP (length gs) MYp ->
  Q self = to_array nY nY MQ -> R self = to_array nU nU MR ->
  yref self = to_array nY 1 Myr ->
  length ys = nP ->
  0 < u_dim self ->
  (Nat.min (Z.to_nat (u_dim self)) (length us) + (nU - Z.to_nat (u_dim self)) = nU)%nat ->
  rdu_obj self (to_array (length gs) (length gs) Mlg) (to_array nP nP Mly)
    (colv gs) (colv us) (colv ys)
  = Ok (to_array 1 1
          (m_add
             (m_add
                (m_add
                   (spec_quad nY (m_sub (m_mul (length gs) MYf (v_of gs)) Myr) MQ)
                   (spec_quad nU
                      (m_sub (m_mul (length gs) MUf (v_of gs))
                         (v_of (skipn (length us - Z.to_nat (u_dim self)) us
                                ++ firstn (nU - Z.to_nat (u_dim self))
                                     (map (fun i => m_mul (length gs) MUf (v_of gs) i 0%nat)
                                          (seq 0 nU)))))
                      MR))
                (spec_quad (length gs) (v_of gs) Mlg))
             (spec_quad nP (m_sub (m_mul (length gs) MYp (v_of gs)) (v_of ys)) Mly))).
Proof.
  intros EUf EYf EYp EQ ER Eyr Ly Hk HL. unfold rdu_obj.
  rewrite (du_terms_to_array self nU nY MUf MYf Myr gs us EUf EYf Eyr Hk HL).
  cbn [bind]. rewrite EYp, EQ, ER.
  rewrite (colv_to_array ys), Ly, (colv_to_array gs).
  rewrite matmul_to_array. cbn [bind].
  rewrite nd_sub_to_array. cbn [bind].
  rewrite !quad_form_to_array. cbn [bind].
  rewrite nd_add_to_array. cbn [bind].
  rewrite nd_add_to_array. cbn [bind].
  apply nd_add_to_array.
Qed.

(** The lengths that the ['du'] loss needs, read off a formulation that
    succeeded: the expression was built at operands of the declared
    shapes. *)
Lemma du_built_lengths (self : deepctools) (nU : nat) (MUf : mat)
    (e : ndarray -> ndarray -> ndarray -> result ndarray)
    (k : ndarray -> ndarray * ndarray -> ndarray -> result ndarray)
    (uini : list Qc) :
  Uf self = to_array nU (g_rows self) MUf ->
  0 < u_dim self ->
  (forall g u y, e g u y = (pr <- du_terms self g u ;; k g pr y)) ->
  build self e = Ok tt ->
  length uini = uini_rows self ->
  (Nat.min (Z.to_nat (u_dim self)) (length uini) + (nU - Z.to_nat (u_dim self)) = nU)%nat.
Proof.
  intros EUf Hk He B Lu. unfold build in B. bind_as B o Eo.
  rewrite He in Eo. bind_as Eo pr Ep. rewrite !zeros_colv in Ep.
  assert (EUf0 : Uf self = to_array nU (length (repeat 0%Qc (g_rows self))) MUf)
    by (rewrite repeat_length; exact EUf).
  pose proof (du_terms_lengths self nU MUf _ _ pr EUf0 Hk Ep) as L.
  rewrite repeat_length in L. rewrite Lu. exact L.
Qed.

(** C2: after [init_RDeePCsolver] with uloss ['u'] on an object
    constructed from rectangular arrays (every numpy array is one), the
    objective handed to the solver is, at every decision
    vector g of g_dim entries and every yini of y_dim * Tini entries, the
    number g' H g / 2 + f' g with
    H = Yf' Q Yf + Uf' R Uf + Yp' lambda_y Yp + lambda_g and
    f = - (Yp' lambda_y yini) - Yf' Q yref, every product written out as
    a sum over the entries. *)
Theorem robust_u_objective nu ny nT nTini nNp ys0 ud yd Q0 R0 us0 lg0 ly0
    ineqconidx ineqconbd (self self' : deepctools) (opts : dict Qc) :
  __init__ nu ny nT nTini nNp ys0 ud yd Q0 R0 us0 lg0 ly0 ineqconidx ineqconbd
  = Ok self ->
  rect_inputs ys0 ud yd Q0 R0 us0 lg0 ly0 = true ->
  init_RDeePCsolver self "u" opts = Ok self' ->
  exists prob lg ly,
    solver self' = Some prob /\
    lambda_g self = Some lg /\ lambda_y self = Some ly /\
    forall (g yini : list Qc) (uini : ndarray),
      length g = Z.to_nat (g_dim self) ->
      length yini = Z.to_nat (y_dim self * Tini self) ->
      nlp_f prob (colv g) uini (colv yini)
      = Ok (mk_nd 1 [[spec_robust_u_objective self lg ly g yini]]).
Proof.
  intros HI RI HF.
  pose proof (init_well_shaped _ _ _ _ _ _ _ _ _ _ _ _ _ _ _ _ HI) as W.
  pose proof (init_rectangular _ _ _ _ _ _ _ _ _ _ _ _ _ _ _ _ HI RI) as RR.
  destruct (object_arrays self W RR)
    as [EUp [EUf [EYp [EYf [EQ [ER [Eyr [Eur [Elg Ely]]]]]]]]].
  destruct (init_RDeePCsolver_Ok _ _ _ _ HF) as [obj [lg [ly [Hlg [Hly [Eo [_ Es]]]]]]].
  exists (mk_nlp obj (RDeePC_constraints self) opts), lg, ly.
  split; [subst self'; reflexivity |]. split; [exact Hlg |]. split; [exact Hly |].
  intros g yini uini Lg Ly. cbn [nlp_f].
  assert (Lg' : g_rows self = length g) by (unfold g_rows; congruence).
  assert (Ly' : length yini = nrows (Yp self)).
  { destruct W as [_ [_ [W3 _]]]. unfold yini_rows in W3. congruence. }
  pose proof (Elg lg Hlg) as Elg'. pose proof (Ely ly Hly) as Ely'.
  rewrite Lg' in EYp, EYf, EUf, Elg'.
  rewrite Elg', Ely' in Eo.
  exact (robust_u_value self _ _ _ _ _ _ _ _ _ _ _ obj g yini uini
           EYp EYf EUf EQ ER Eyr Ly' Eo).
Qed.

(** C4: after [init_DeePCsolver] with uloss ['du'] on an object
    constructed from rectangular arrays (every numpy array is one) with a
    positive u_dim, the objective handed to the solver is, at every
    g of g_dim entries and every uini of u_dim * Tini entries, the number
    y_loss' Q y_loss + du' R du with u_cur = Uf g, u_prev the last u_dim
    entries of uini followed by all but the last u_dim entries of u_cur,
    du = u_cur - u_prev and y_loss = Yf g - yref. *)
Theorem du_objective nu ny nT nTini nNp ys0 ud yd Q0 R0 us0 lg0 ly0
    ineqconidx ineqconbd (self self' : deepctools) (opts : dict Qc) :
  __init__ nu ny nT nTini nNp ys0 ud yd Q0 R0 us0 lg0 ly0 ineqconidx ineqconbd
  = Ok self ->
  rect_inputs ys0 ud yd Q0 R0 us0 lg0 ly0 = true ->
  0 < u_dim self ->
  init_DeePCsolver self "du" opts = Ok self' ->
  exists prob,
    solver self' = Some prob /\
    forall (g uini : list Qc) (yini : ndarray),
      length g = Z.to_nat (g_dim self) ->
      length uini = Z.to_nat (u_dim self * Tini self) ->
      nlp_f prob (colv g) (colv uini) yini
      = Ok (mk_nd 1 [[spec_du_objective self g uini]]).
Proof.
  intros HI RI Hk HF.
  pose proof (init_well_shaped _ _ _ _ _ _ _ _ _ _ _ _ _ _ _ _ HI) as W.
  pose proof (init_rectangular _ _ _ _ _ _ _ _ _ _ _ _ _ _ _ _ HI RI) as RR.
  destruct (object_arrays self W RR)
    as [EUp [EUf [EYp [EYf [EQ [ER [Eyr [Eur [Elg Ely]]]]]]]]].
  destruct (init_DeePCsolver_Ok _ _ _ _ HF) as [obj [Eo [_ Es]]].
  destruct (init_DeePCsolver_build _ _ _ _ HF) as [obj' [Eo' B]].
  assert (obj' = obj) by congruence. subst obj'.
  destruct (DeePC_objective_forms _ _ _ Eo) as [[N _] | [_ Ef]];
    [exfalso; apply N; reflexivity |].
  exists (mk_nlp obj (DeePC_constraints self) opts).
  split; [subst self'; reflexivity |].
  intros g uini yini Lg Lu. cbn [nlp_f].
  assert (HL : (Nat.min (Z.to_nat (u_dim self)) (length uini)
                + (nrows (Uf self) - Z.to_nat (u_dim self)) = nrows (Uf self))%nat).
  { apply (du_built_lengths self _ _ obj
             (fun _ pr _ => let '(du, y_loss) := pr in
                          qy <- quad_form y_loss (Q self) ;;
                          qu <- quad_form du (R self) ;;
                          nd_add qy qu) uini EUf Hk); [| exact B | exact Lu].
    intros g0 u0 y0. rewrite Ef. reflexivity. }
  assert (Lg' : g_rows self = length g) by (unfold g_rows; congruence).
  rewrite Lg' in EYf, EUf. rewrite Ef.
  exact (du_obj_to_array self _ _ _ _ _ _ _ g uini EUf EYf EQ ER Eyr Hk HL).
Qed.

(** C3: after [init_DeePCsolver] the stack handed to the solver is, at
    every g, uini and yini of the declared lengths, the column of the
    entries of Up g - uini (u_dim * Tini of them), then those of
    Yp g - yini (y_dim * Tini of them), then those of Hc g, and the bound
    lists are that many zeros followed by the inequality bounds; after
    [init_RDeePCsolver] it is the column of the entries of Up g - uini
    (u_dim * Tini of them), then those of Hc g, with no Yp rows, and the
    bounds are u_dim * Tini zeros followed by the inequality bounds. *)
Theorem equality_block (self self' : deepctools) (uloss : string) (opts : dict Qc) :
  (init_DeePCsolver self uloss opts = Ok self' ->
   exists prob a,
     solver self' = Some prob /\ Hc self = HcArray a /\
     lbc self' = Some (repeat 0%Qc (Z.to_nat (u_dim self * Tini self))
                       ++ repeat 0%Qc (Z.to_nat (y_dim self * Tini self))
                       ++ lbc_ineq self) /\
     ubc self' = Some (repeat 0%Qc (Z.to_nat (u_dim self * Tini self))
                       ++ repeat 0%Qc (Z.to_nat (y_dim self * Tini self))
                       ++ ubc_ineq self) /\
     forall g uini yini : list Qc,
       length g = Z.to_nat (g_dim self) ->
       length uini = Z.to_nat (u_dim self * Tini self) ->
       length yini = Z.to_nat (y_dim self * Tini self) ->
       nlp_g prob (colv g) (colv uini) (colv yini)
       = Ok (colv (spec_eq_rows (Up self) g uini
                   ++ spec_eq_rows (Yp self) g yini
                   ++ spec_matvec a g)) /\
       length (spec_eq_rows (Up self) g uini) = Z.to_nat (u_dim self * Tini self) /\
       length (spec_eq_rows (Yp self) g yini) = Z.to_nat (y_dim self * Tini self)) /\
  (init_RDeePCsolver self uloss opts = Ok self' ->
   exists prob a,
     solver self' = Some prob /\ Hc self = HcArray a /\
     lbc self' = Some (repeat 0%Qc (Z.to_nat (u_dim self * Tini self))
                       ++ lbc_ineq self) /\
     ubc self' = Some (repeat 0%Qc (Z.to_nat (u_dim self * Tini self))
                       ++ ubc_ineq self) /\
     forall g uini yini : list Qc,
       length g = Z.to_nat (g_dim self) ->
       length uini = Z.to_nat (u_dim self * Tini self) ->
       nlp_g prob (colv g) (colv uini) (colv yini)
       = Ok (colv (spec_eq_rows (Up self) g uini ++ spec_matvec a g)) /\
       length (spec_eq_rows (Up self) g uini) = Z.to_nat (u_dim self * Tini self)).
Proof.
  split; intros HF.
  - destruct (init_DeePCsolver_Ok _ _ _ _ HF) as [obj [_ [B Es]]].
    destruct (DeePC_constraints_value self (repeat 0%Qc (g_rows self))
                (repeat 0%Qc (uini_rows self)) (repeat 0%Qc (yini_rows self)) B)
      as [a [Ha _]]; try apply repeat_length.
    destruct (build_DeePC_constraints _ B) as [RU RY].
    exists (mk_nlp obj (DeePC_constraints self) opts), a.
    split; [subst self'; reflexivity |]. split; [exact Ha |].
    split; [subst self'; reflexivity |]. split; [subst self'; reflexivity |].
    intros g uini yini Lg Lu Ly. cbn [nlp_g].
    destruct (DeePC_constraints_value self g uini yini B Lg Lu Ly) as [a' [Ha' E]].
    assert (a' = a) by congruence. subst a'.
    rewrite !length_spec_eq_rows. auto.
  - destruct (init_RDeePCsolver_Ok _ _ _ _ HF) as [obj [lg [ly [_ [_ [_ [B Es]]]]]]].
    destruct (RDeePC_constraints_value self (repeat 0%Qc (g_rows self))
                (repeat 0%Qc (uini_rows self)) [] B)
      as [a [Ha _]]; try apply repeat_length.
    pose proof (build_RDeePC_constraints _ B) as RU.
    exists (mk_nlp obj (RDeePC_constraints self) opts), a.
    split; [subst self'; reflexivity |]. split; [exact Ha |].
    split; [subst self'; reflexivity |]. split; [subst self'; reflexivity |].
    intros g uini yini Lg Lu. cbn [nlp_g].
    destruct (RDeePC_constraints_value self g uini yini B Lg Lu) as [a' [Ha' E]].
    assert (a' = a) by congruence. subst a'.
    rewrite length_spec_eq_rows. auto.
Qed.

(** X16: on an object constructed from rectangular arrays the objectives
    of ['u'] and ['uus'] in the standard design are, at every g of g_dim
    entries, the number
    g' H g / 2 + f' g with the same H = Yf' Q Yf + Uf' R Uf; f is
    - (Yf' Q yref) for ['u'] and - (Yf' Q yref) - Uf' R uref for
    ['uus']. *)
Theorem standard_qp_objective nu ny nT nTini nNp ys0 ud yd Q0 R0 us0 lg0 ly0
    ineqconidx ineqconbd (self self' : deepctools) (opts : dict Qc) :
  __init__ nu ny nT nTini nNp ys0 ud yd Q0 R0 us0 lg0 ly0 ineqconidx ineqconbd
  = Ok self ->
  rect_inputs ys0 ud yd Q0 R0 us0 lg0 ly0 = true ->
  (init_DeePCsolver self "u" opts = Ok self' ->
   exists prob,
     solver self' = Some prob /\
     forall (g : list Qc) (uini yini : ndarray),
       length g = Z.to_nat (g_dim self) ->
       nlp_f prob (colv g) uini yini
       = Ok (mk_nd 1 [[spec_qp (length g) (spec_standard_H self)
                         (spec_standard_f self) (v_of g) 0%nat 0%nat]])) /\
  (init_DeePCsolver self "uus" opts = Ok self' ->
   exists prob r,
     solver self' = Some prob /\ uref self = Some r /\
     forall (g : list Qc) (uini yini : ndarray),
       length g = Z.to_nat (g_dim self) ->
       nlp_f prob (colv g) uini yini
       = Ok (mk_nd 1 [[spec_qp (length g) (spec_standard_H self)
                         (spec_standard_uus_f self r) (v_of g) 0%nat 0%nat]])).
Proof.
  intros HI RI.
  pose proof (init_well_shaped _ _ _ _ _ _ _ _ _ _ _ _ _ _ _ _ HI) as W.
  pose proof (init_rectangular _ _ _ _ _ _ _ _ _ _ _ _ _ _ _ _ HI RI) as RR.
  destruct (object_arrays self W RR)
    as [EUp [EUf [EYp [EYf [EQ [ER [Eyr [Eur [Elg Ely]]]]]]]]].
  split; intros HF.
  - destruct (init_DeePCsolver_Ok _ _ _ _ HF) as [obj [Eo [_ Es]]].
    exists (mk_nlp obj (DeePC_constraints self) opts).
    split; [subst self'; reflexivity |].
    intros g uini yini Lg. cbn [nlp_f].
    assert (Lg' : g_rows self = length g) by (unfold g_rows; congruence).
    rewrite Lg' in EYf, EUf.
    exact (standard_u_value self _ _ _ _ _ _ _ obj g uini yini EYf EUf EQ ER Eyr Eo).
  - destruct (init_DeePCsolver_Ok _ _ _ _ HF) as [obj [Eo [_ Es]]].
    destruct (uref self) as [r |] eqn:Er.
    2: { unfold DeePC_objective in Eo. rewrite Er in Eo. discriminate Eo. }
    exists (mk_nlp obj (DeePC_constraints self) opts), r.
    split; [subst self'; reflexivity |]. split; [reflexivity |].
    intros g uini yini Lg. cbn [nlp_f].
    assert (Lg' : g_rows self = length g) by (unfold g_rows; congruence).
    rewrite Lg' in EYf, EUf.
    pose proof (Eur r eq_refl) as Er'.
    assert (Eu : uref self = Some (to_array (nrows (Uf self)) 1 (m_of r)))
      by (rewrite Er; f_equal; exact Er').
    exact (standard_uus_value self _ _ _ _ _ _ _ _ obj g uini yini
             EYf EUf EQ ER Eyr Eu Eo).
Qed.

(** X15: on an object constructed from rectangular arrays with a positive
    u_dim the ['du'] objective of the robust design is, at every g, uini
    and yini of the
    declared lengths, the number of the standard ['du'] objective plus
    g' lambda_g g plus sigma_y' lambda_y sigma_y, with
    sigma_y = Yp g - yini. *)
Theorem robust_du_objective nu ny nT nTini nNp ys0 ud yd Q0 R0 us0 lg0 ly0
    ineqconidx ineqconbd (self self' : deepctools) (opts : dict Qc) :
  __init__ nu ny nT nTini nNp ys0 ud yd Q0 R0 us0 lg0 ly0 ineqconidx ineqconbd
  = Ok self ->
  rect_inputs ys0 ud yd Q0 R0 us0 lg0 ly0 = true ->
  0 < u_dim self ->
  init_RDeePCsolver self "du" opts = Ok self' ->
  exists prob lg ly,
    solver self' = Some prob /\
    lambda_g self = Some lg /\ lambda_y self = Some ly /\
    forall g uini yini : list Qc,
      length g = Z.to_nat (g_dim self) ->
      length uini = Z.to_nat (u_dim self * Tini self) ->
      length yini = Z.to_nat (y_dim self * Tini self) ->
      nlp_f prob (colv g) (colv uini) (colv yini)
      = Ok (mk_nd 1 [[spec_robust_du_objective self lg ly g uini yini]]).
Proof.
  intros HI RI Hk HF.
  pose proof (init_well_shaped _ _ _ _ _ _ _ _ _ _ _ _ _ _ _ _ HI) as W.
  pose proof (init_rectangular _ _ _ _ _ _ _ _ _ _ _ _ _ _ _ _ HI RI) as RR.
  destruct (object_arrays self W RR)
    as [EUp [EUf [EYp [EYf [EQ [ER [Eyr [Eur [Elg Ely]]]]]]]]].
  destruct (init_RDeePCsolver_Ok _ _ _ _ HF) as [obj [lg [ly [Hlg [Hly [Eo [_ Es]]]]]]].
  destruct (init_RDeePCsolver_build _ _ _ _ HF)
    as [obj' [lg' [ly' [Hlg' [Hly' [Eo' B]]]]]].
  assert (lg' = lg) by congruence. assert (ly' = ly) by congruence. subst lg' ly'.
  assert (obj' = obj) by congruence. subst obj'.
  assert (Ef : obj = fun g uini yini => rdu_obj self lg ly g uini yini).
  { unfold RDeePC_objective in Eo.
    change (String.eqb "du" "u") with false in Eo.
    change (String.eqb "du" "uus") with false in Eo.
    rewrite String.eqb_refl in Eo. cbv iota in Eo. congruence. }
  exists (mk_nlp obj (RDeePC_constraints self) opts), lg, ly.
  split; [subst self'; reflexivity |]. split; [exact Hlg |]. split; [exact Hly |].
  intros g uini yini Lg Lu Ly. cbn [nlp_f].
  assert (HL : (Nat.min (Z.to_nat (u_dim self)) (length uini)
                + (nrows (Uf self) - Z.to_nat (u_dim self)) = nrows (Uf self))%nat).
  { apply (du_built_lengths self _ _ obj
             (fun g0 pr y => let '(du, y_loss) := pr in
                          Ypg <- matmul (Yp self) g0 ;;
                          sigma_y <- nd_sub Ypg y ;;
                          qy <- quad_form y_loss (Q self) ;;
                          qu <- quad_form du (R self) ;;
                          s1 <- nd_add qy qu ;;
                          qg <- quad_form g0 lg ;;
                          s2 <- nd_add s1 qg ;;
                          qs <- quad_form sigma_y ly ;;
                          nd_add s2 qs) uini EUf Hk); [| exact B | exact Lu].
    intros g0 u0 y0. rewrite Ef. reflexivity. }
  assert (Lg' : g_rows self = length g) by (unfold g_rows; congruence).
  assert (Ly' : length yini = nrows (Yp self)).
  { destruct W as [_ [_ [W3 _]]]. unfold yini_rows in W3. congruence. }
  pose proof (Elg lg Hlg) as Elg'. pose proof (Ely ly Hly) as Ely'.
  rewrite Lg' in EYp, EYf, EUf, Elg'. rewrite Ef.
  rewrite Elg' at 1. rewrite Ely' at 1.
  exact (rdu_obj_to_array self _ _ _ _ _ _ _ _ _ _ _ g uini yini
           EUf EYf EYp EQ ER Eyr Ly' Hk HL).
Qed.

(** ** One solve step, entry by entry *)

Lemma vertcat_blocks (a b : ndarray) :
  vertcat a b
  = if Nat.eqb (ncols b) (ncols a)
    then Ok (mk_nd (ncols a) (rows a ++ rows b))
    else Raise (ValueError "all the input array dimensions except for the concatenation axis must match exactly").
Proof.
  unfold vertcat, concatenate. simpl. rewrite andb_true_r, app_nil_r. reflexivity.
Qed.

Lemma matmul_colv_mismatch (P : ndarray) (v : list Qc) :
  ncols P <> length v -> matmul P (colv v) = Raise shape_error.
Proof.
  intros H. unfold matmul. rewrite length_colv.
  destruct (Nat.eqb (ncols P) (length v)) eqn:E; [| reflexivity].
  apply Nat.eqb_eq in E. contradiction.
Qed.

Lemma matvec_mismatch (P : ndarray) (v : list Qc) :
  ncols P <> length v -> matvec P v = Raise shape_error.
Proof.
  intros H. unfold matvec.
  destruct (Nat.eqb (ncols P) (length v)) eqn:E; [| reflexivity].
  apply Nat.eqb_eq in E. contradiction.
Qed.

(** C8: for histories uini and yini given as columns, [solver_step]
    returns (u_opt, g_opt, elapsed) exactly when [Up] and [Yp] have the
    same number of columns, the pseudo-inverse of the stack [Up; Yp] has
    as many columns as concat(uini, yini) has entries, a solver is stored,
    the solver, called with x0 = g0, p = concat(uini, yini) and the stored
    bound lists, returns a solution whose entries are g_opt, [Uf] has as
    many columns as g_opt has entries, u_opt = Uf g_opt, and elapsed is
    the difference of the two clock readings; g0 is the product of the
    pseudo-inverse with concat(uini, yini), and both products are written
    out entry by entry.  An exception of the solver call is the outcome of
    the step.  [pinv] is numpy's, taken as given. *)
Theorem solver_step_spec (pinv : ndarray -> ndarray)
    (nlpsol : nlp_prob -> solver_call -> result ndarray) (t_before t_after : Qc)
    (self : deepctools) (uini yini : list Qc) :
  let UpYp := mk_nd (ncols (Up self)) (rows (Up self) ++ rows (Yp self)) in
  let parameters := uini ++ yini in
  let g0 := spec_matvec (pinv UpYp) parameters in
  let call := mk_call (colv g0) (colv parameters) (lbc self) (ubc self) in
  (forall (u_opt g_opt : list Qc) (t_s : Qc),
     solver_step pinv nlpsol t_before t_after self (colv uini) (colv yini)
     = Ok (u_opt, g_opt, t_s)
     <->
     ncols (Yp self) = ncols (Up self) /\
     ncols (pinv UpYp) = length parameters /\
     exists handle sol,
       solver self = Some handle /\
       nlpsol handle call = Ok sol /\
       g_opt = ravel sol /\
       ncols (Uf self) = length g_opt /\
       u_opt = spec_matvec (Uf self) g_opt /\
       t_s = (t_after - t_before)%Qc) /\
  (forall (handle : nlp_prob) (e : exn),
     ncols (Yp self) = ncols (Up self) ->
     ncols (pinv UpYp) = length parameters ->
     solver self = Some handle ->
     nlpsol handle call = Raise e ->
     solver_step pinv nlpsol t_before t_after self (colv uini) (colv yini)
     = Raise e).
Proof.
  intros UpYp parameters g0 call. unfold solver_step.
  rewrite vertcat_colv. cbn [bind]. rewrite vertcat_blocks.
  fold parameters.
  destruct (Nat.eqb (ncols (Yp self)) (ncols (Up self))) eqn:EC.
  2: { apply Nat.eqb_neq in EC. cbn [bind]. split.
       - intros u_opt g_opt t_s. split; [discriminate | intros [C _]; contradiction].
       - intros handle e C. contradiction. }
  apply Nat.eqb_eq in EC. cbn [bind]. fold UpYp.
  destruct (Nat.eq_dec (ncols (pinv UpYp)) (length parameters)) as [EP | EP].
  2: { rewrite matmul_colv_mismatch by exact EP. cbn [bind]. split.
       - intros u_opt g_opt t_s.
         split; [discriminate | intros [_ [C _]]; contradiction].
       - intros handle e _ C. contradiction. }
  rewrite matmul_colv by exact EP. cbn [bind]. fold g0.
  destruct (solver self) as [h |] eqn:ES.
  2: { split.
       - intros u_opt g_opt t_s.
         split; [discriminate | intros [_ [_ [h [sol [C _]]]]]; discriminate].
       - intros handle e _ _ C. discriminate. }
  fold call. split.
  - intros u_opt g_opt t_s. split.
    + intros H. bind_as H sol Esol.
      destruct (Nat.eq_dec (ncols (Uf self)) (length (ravel sol))) as [EU | EU].
      * rewrite matvec_spec in H by exact EU. cbn [bind] in H. inversion H.
        split; [exact EC |]. split; [exact EP |].
        exists h, sol. repeat split; try assumption.
      * rewrite matvec_mismatch in H by exact EU. discriminate.
    + intros [_ [_ [h' [sol [Hh [Esol [Eg [EU [Eu Et]]]]]]]]].
      inversion Hh. subst h'. rewrite Esol. cbn [bind].
      subst g_opt. rewrite matvec_spec by exact EU. cbn [bind].
      subst u_opt t_s. reflexivity.
  - intros handle e _ _ Hh Esol. inversion Hh. subst handle.
    rewrite Esol. reflexivity.
Qed.

(** ** Comparing computed rationals *)

Lemma scalar_eq (x y : Qc) :
  Qc_eq_bool x y = true -> @Ok ndarray (mk_nd 1 [[x]]) = Ok (mk_nd 1 [[y]]).
Proof. intros H. apply Qc_eq_bool_correct in H. subst y. reflexivity. Qed.

Lemma qlist_eq (l l' : list Qc) :
  length l = length l' ->
  forallb (fun xy => Qc_eq_bool (fst xy) (snd xy)) (combine l l') = true ->
  l = l'.
Proof.
  revert l'. induction l as [| x l IH]; intros [| y l'] L H; try discriminate.
  - reflexivity.
  - simpl in H. apply andb_prop in H. destruct H as [H1 H2].
    apply Qc_eq_bool_correct in H1. subst y. f_equal.
    apply IH; [simpl in L; lia | exact H2].
Qed.

End Backend.

(** * The worked system, run *)

Lemma dof_check_witness :
  init_DeePCsolver toy_nlpsol_new toy_tight "u" [] = Raise (ValueError msg_dof) /\
  init_RDeePCsolver toy_nlpsol_new toy_tight "u" [] <> Raise (ValueError msg_dof_robust).
Proof.
  apply (proj2 (proj2 (dof_check toy_nlpsol_new toy_tight "u" [] eq_refl)) (eye 4) (eye 3)).
  - vm_compute. reflexivity.
  - vm_compute. reflexivity.
  - vm_compute. split; [reflexivity | discriminate].
Defined.

Lemma uus_requires_uref_witness :
  init_DeePCsolver toy_nlpsol_new toy_zero "uus" [] = Raise (ValueError msg_us) /\
  init_DeePCsolver toy_nlpsol_new toy "uus" [] <> Raise (ValueError msg_us).
Proof.
  split.
  - apply (proj1 (proj2 (uus_requires_uref toy_nlpsol_new)) toy_zero []).
    + vm_compute. reflexivity.
    + vm_compute. reflexivity.
  - apply (proj2 (proj2 (uus_requires_uref toy_nlpsol_new)) toy []).
    vm_compute. discriminate.
Defined.

Lemma init_without_us_fails_witness :
  __init__ 1 1 8 1 2 (col [0]) toy_ud toy_yd (eye 2) (eye 2) None None None None None
  = Raise (AttributeError "'NoneType' object has no attribute 'any'").
Proof.
  apply (proj2 (init_without_us_fails 1 1 8 1 2 (col [0]) toy_ud toy_yd (eye 2) (eye 2)
                  None None None None)).
  lia.
Defined.

Lemma init_ineq_cons_rows_witness :
  _init_ineq_cons toy (Some toy_idx) (Some toy_bd)
  = Ok (HcArray
          (mk_nd (ncols (Uf toy))
             (flat_map (fun it => spec_rows (fst (base_of toy (fst it)))
                                    (snd (base_of toy (fst it))) (Np toy) (snd it))
                       toy_idx)),
        flat_map (fun it => spec_bounds (bound_of toy_bd (lb_key (fst it))) (Np toy))
                 toy_idx,
        flat_map (fun it => spec_bounds (bound_of toy_bd (ub_key (fst it))) (Np toy))
                 toy_idx).
Proof.
  refine (proj1 (init_ineq_cons_rows toy toy_bd toy_idx _ _ _ _)).
  - discriminate.
  - vm_compute. discriminate.
  - vm_compute. reflexivity.
  - constructor; [| constructor]. simpl.
    split; [left; reflexivity |]. split; [discriminate |]. split; [discriminate |].
    intros i v Hi [Hv | []]. subst v.
    change (Np toy) with 2 in Hi.
    change (snd (base_of toy "u")) with 1.
    replace (Z.of_nat (nrows (fst (base_of toy "u")))) with 2
      by (vm_compute; reflexivity).
    lia.
Defined.

Lemma bound_lengths_consistent_witness :
  exists l u prob,
    lbc (constructed (init_RDeePCsolver toy_nlpsol_new toy "du" [])) = Some l /\
    ubc (constructed (init_RDeePCsolver toy_nlpsol_new toy "du" [])) = Some u /\
    solver (constructed (init_RDeePCsolver toy_nlpsol_new toy "du" [])) = Some prob /\
    length l = length u /\
    length l = (Z.to_nat (u_dim toy * Tini toy) + Hc_rows (Hc toy))%nat /\
    forall g uini yini c, nlp_g prob g uini yini = Ok c -> nrows c = length l.
Proof.
  assert (E0 : toy_init 1 toy_bd = Ok toy).
  { apply is_ok_constructed. vm_compute. reflexivity. }
  assert (E1 : consistent toy_idx toy_bd).
  { constructor; [split; reflexivity | constructor]. }
  assert (E2 : init_RDeePCsolver toy_nlpsol_new toy "du" []
               = Ok (constructed (init_RDeePCsolver toy_nlpsol_new toy "du" []))).
  { apply is_ok_constructed. vm_compute. reflexivity. }
  exact (proj2 (bound_lengths_consistent toy_nlpsol_new _ _ _ _ _ _ _ _ _ _ _ _ _ _ _ _ _ "du" []
                  E0 E1) E2).
Defined.



Lemma init_shapes_witness :
  g_dim toy = 6 /\ shape (Up toy) = (1, 6) /\ shape (Uf toy) = (2, 6).
Proof.
  assert (E0 : toy_init 1 toy_bd = Ok toy).
  { apply is_ok_constructed. vm_compute. reflexivity. }
  destruct (init_shapes _ _ _ _ _ _ _ _ _ _ _ _ _ _ _ _ E0)
    as [A0 [A1 [_ [A3 _]]]].
  rewrite A0 in A1, A3. split; [exact A0 | split; [exact A1 | exact A3]].
Defined.

Lemma init_blocks_partition_witness :
  rows (Up toy) ++ rows (Uf toy) = rows (Hud toy).
Proof.
  assert (E0 : toy_init 1 toy_bd = Ok toy).
  { apply is_ok_constructed. vm_compute. reflexivity. }
  exact (proj1 (proj2 (proj2 (init_blocks_partition _ _ _ _ _ _ _ _ _ _ _ _ _ _ _ _ E0)))).
Defined.

Lemma init_references_witness :
  ravel (yref toy) = repeat_list (Z.to_nat 2) (ravel (col [0])).
Proof.
  assert (E0 : toy_init 1 toy_bd = Ok toy).
  { apply is_ok_constructed. vm_compute. reflexivity. }
  exact (proj1 (proj2 (proj2 (init_references _ _ _ _ _ _ _ _ _ _ _ _ _ _ _ _ E0)))).
Defined.

Lemma init_needs_constraints_witness :
  exists items bd a,
    Some toy_idx = Some items /\ items <> [] /\ Some toy_bd = Some bd /\
    Forall (usable_entry bd) items /\
    Hc toy = HcArray a /\ Z.of_nat (ncols a) = g_dim toy.
Proof.
  assert (E0 : toy_init 1 toy_bd = Ok toy).
  { apply is_ok_constructed. vm_compute. reflexivity. }
  exact (init_needs_constraints _ _ _ _ _ _ _ _ _ _ _ _ _ _ _ _ E0).
Defined.

Lemma init_ineq_cons_counts_witness :
  Hc_rows (Hc toy_bad) = (Z.to_nat (Np toy_bad) * n_indices toy_idx)%nat /\
  length (lbc_ineq toy_bad) = (Z.to_nat (Np toy_bad) * n_lower toy_bad_bd toy_idx)%nat /\
  length (ubc_ineq toy_bad) = (Z.to_nat (Np toy_bad) * n_upper toy_bad_bd toy_idx)%nat.
Proof.
  apply (init_ineq_cons_counts toy_bad toy_idx toy_bad_bd).
  vm_compute. reflexivity.
Defined.

Lemma formulation_errors_witness :
  op_error (RuntimeError "Unknown option") \/
  exists msg, RuntimeError "Unknown option" = RuntimeError msg.
Proof.
  assert (E : init_DeePCsolver toy_reject toy "u" []
              = Raise (RuntimeError "Unknown option")) by (vm_compute; reflexivity).
  destruct (proj1 (formulation_errors toy_reject toy "u" []
                     (RuntimeError "Unknown option")) E)
    as [[H _] | [[H _] | [[H _] | [H _]]]]; try discriminate.
  exact H.
Defined.

Lemma reformulation_witness :
  init_RDeePCsolver toy_nlpsol_new (constructed (init_DeePCsolver toy_nlpsol_new toy "u" [])) "du" []
  = init_RDeePCsolver toy_nlpsol_new toy "du" [].
Proof.
  assert (E : init_DeePCsolver toy_nlpsol_new toy "u" []
              = Ok (constructed (init_DeePCsolver toy_nlpsol_new toy "u" []))).
  { apply is_ok_constructed. vm_compute. reflexivity. }
  exact (proj2 (proj2 (reformulation toy_nlpsol_new toy _ "u" [] (or_introl E)) "du" [])).
Defined.

Lemma solver_step_needs_formulation_witness :
  is_ok (solver_step toy_pinv toy_nlpsol 0%Qc 1%Qc toy (col [1]) (col [2])) = false.
Proof.
  assert (E0 : toy_init 1 toy_bd = Ok toy).
  { apply is_ok_constructed. vm_compute. reflexivity. }
  exact (solver_step_needs_formulation _ _ _ _ _ _ _ _ _ _ _ _ _ _ _ _ _ _ _ _ _ _ E0).
Defined.

Lemma solver_step_lengths_witness :
  Z.of_nat (length (fst (fst (step_result (solver_step toy_pinv toy_nlpsol 0%Qc 1%Qc
      (constructed (init_DeePCsolver toy_nlpsol_new toy "u" [])) (col [1]) (col [2])))))) = 1 * 2 /\
  Z.of_nat (length (snd (fst (step_result (solver_step toy_pinv toy_nlpsol 0%Qc 1%Qc
      (constructed (init_DeePCsolver toy_nlpsol_new toy "u" [])) (col [1]) (col [2])))))) = 8 - 1 - 2 + 1 /\
  ncols (col [2]) = ncols (col [1]).
Proof.
  assert (E0 : toy_init 1 toy_bd = Ok toy).
  { apply is_ok_constructed. vm_compute. reflexivity. }
  assert (E1 : init_DeePCsolver toy_nlpsol_new toy "u" []
               = Ok (constructed (init_DeePCsolver toy_nlpsol_new toy "u" []))).
  { apply is_ok_constructed. vm_compute. reflexivity. }
  assert (E2 : (solver_step toy_pinv toy_nlpsol 0%Qc 1%Qc
      (constructed (init_DeePCsolver toy_nlpsol_new toy "u" [])) (col [1]) (col [2])) = Ok (fst (fst (step_result (solver_step toy_pinv toy_nlpsol 0%Qc 1%Qc
      (constructed (init_DeePCsolver toy_nlpsol_new toy "u" [])) (col [1]) (col [2])))),
                              snd (fst (step_result (solver_step toy_pinv toy_nlpsol 0%Qc 1%Qc
      (constructed (init_DeePCsolver toy_nlpsol_new toy "u" [])) (col [1]) (col [2])))),
                              snd (step_result (solver_step toy_pinv toy_nlpsol 0%Qc 1%Qc
      (constructed (init_DeePCsolver toy_nlpsol_new toy "u" [])) (col [1]) (col [2]))))).
  { assert (E : is_ok (solver_step toy_pinv toy_nlpsol 0%Qc 1%Qc
      (constructed (init_DeePCsolver toy_nlpsol_new toy "u" [])) (col [1]) (col [2])) = true) by (vm_compute; reflexivity).
    destruct (solver_step toy_pinv toy_nlpsol 0%Qc 1%Qc
      (constructed (init_DeePCsolver toy_nlpsol_new toy "u" [])) (col [1]) (col [2])) as [[[u g] t] | e]; [reflexivity | discriminate]. }
  exact (solver_step_lengths toy_nlpsol_new _ _ _ _ _ _ _ _ _ _ _ _ _ _ _ _ _ _ _ _ _ _ _ _ _ _ _ _
           E0 (or_introl E1) E2).
Defined.

Lemma equality_rows_below_g_dim_witness :
  Z.of_nat (uini_rows toy + yini_rows toy) = (1 + 1) * 1 /\
  Z.of_nat (uini_rows toy + yini_rows toy) < g_dim toy /\
  1 + 2 <= 8.
Proof.
  assert (E0 : toy_init 1 toy_bd = Ok toy).
  { apply is_ok_constructed. vm_compute. reflexivity. }
  assert (E1 : init_DeePCsolver toy_nlpsol_new toy "u" []
               = Ok (constructed (init_DeePCsolver toy_nlpsol_new toy "u" []))).
  { apply is_ok_constructed. vm_compute. reflexivity. }
  exact (proj1 (proj2 (proj2
           (equality_rows_below_g_dim toy_nlpsol_new _ _ _ _ _ _ _ _ _ _ _ _ _ _ _ _ _ "u" [] E0)))
           E1).
Defined.

Lemma objective_is_scalar_witness :
  exists prob,
    solver (constructed (init_RDeePCsolver toy_nlpsol_new toy "uus" [])) = Some prob /\
    forall g uini yini o,
      nlp_f prob g uini yini = Ok o ->
      nrows o = ncols g /\ ncols o = ncols g.
Proof.
  apply (objective_is_scalar toy_nlpsol_new toy _ "uus" []). right.
  apply is_ok_constructed. vm_compute. reflexivity.
Defined.

Lemma parameter_dependence_witness :
  exists prob,
    solver (constructed (init_DeePCsolver toy_nlpsol_new toy "uus" [])) = Some prob /\
    (forall g uini yini yini',
        nlp_f prob g uini yini = nlp_f prob g uini yini') /\
    ("uus" <> "du" ->
     forall g uini uini' yini yini',
       nlp_f prob g uini yini = nlp_f prob g uini' yini').
Proof.
  apply (proj1 (parameter_dependence toy_nlpsol_new toy _ "uus" [])).
  apply is_ok_constructed. vm_compute. reflexivity.
Defined.

Lemma init_ineq_cons_in_range_witness :
  - Z.of_nat (nrows (fst (base_of toy "u")))
  <= 0 + 1 * snd (base_of toy "u")
  < Z.of_nat (nrows (fst (base_of toy "u"))).
Proof.
  apply (init_ineq_cons_in_range toy toy_idx (Some toy_bd)
           (Hc toy) (lbc_ineq toy) (ubc_ineq toy)) with (idx := [0]).
  - vm_compute. reflexivity.
  - left. reflexivity.
  - vm_compute. split; [discriminate | reflexivity].
  - left. reflexivity.
Defined.

Lemma formulation_succeeds_witness :
  exists prob,
    nlp_opts prob = [] /\ nlp_g prob = RDeePC_constraints toy /\
    (toy_reject prob [] = None ->
     exists self', init_RDeePCsolver toy_reject toy "du" [] = Ok self' /\
                   solver self' = Some prob) /\
    (forall msg, toy_reject prob [] = Some msg ->
     init_RDeePCsolver toy_reject toy "du" [] = Raise (RuntimeError msg)).
Proof.
  assert (E0 : toy_init 1 toy_bd = Ok toy).
  { apply is_ok_constructed. vm_compute. reflexivity. }
  refine (proj2 (formulation_succeeds toy_reject _ _ _ _ _ _ _ _ _ _ _ _ _ _ _ _ "du" []
                   E0 eq_refl _ _) _ _ _).
  - discriminate.
  - intros _. lia.
  - discriminate.
  - discriminate.
  - vm_compute. reflexivity.
Defined.

Lemma problem_defined_witness :
  exists prob,
    solver (constructed (init_DeePCsolver toy_nlpsol_new toy "du" [])) = Some prob /\
    forall g uini yini,
      column_of (Z.to_nat (g_dim toy)) g ->
      column_of (Z.to_nat (1 * 1)) uini ->
      column_of (Z.to_nat (1 * 1)) yini ->
      (exists o, nlp_f prob g uini yini = Ok o) /\
      (exists c, nlp_g prob g uini yini = Ok c).
Proof.
  assert (E0 : toy_init 1 toy_bd = Ok toy).
  { apply is_ok_constructed. vm_compute. reflexivity. }
  refine (problem_defined toy_nlpsol_new _ _ _ _ _ _ _ _ _ _ _ _ _ _ _ _ _ "du" [] E0 _ _).
  - intros _. lia.
  - left. apply is_ok_constructed. vm_compute. reflexivity.
Defined.

Lemma init_ineq_cons_errors_witness :
  _init_ineq_cons toy (Some ([("u", [0])] ++ ("v", [0]) :: [])) (Some toy_bd)
  = Raise (ValueError "variable not exist, should be 'u' or/and 'y'!").
Proof.
  assert (E : is_ok (ineq_loop toy (Some toy_bd) [("u", [0])]) = true)
    by (vm_compute; reflexivity).
  destruct (ineq_loop toy (Some toy_bd) [("u", [0])]) as [r |] eqn:Er;
    [| discriminate].
  apply (proj1 (proj2 (init_ineq_cons_errors toy (Some toy_bd))
                  [("u", [0])] [] "v" [0] r Er)); discriminate.
Defined.

Lemma uloss_and_weight_errors_witness :
  init_DeePCsolver toy_nlpsol_new toy "dU" [] = Raise (ValueError msg_uloss) /\
  init_RDeePCsolver toy_nlpsol_new toy_zero "xyz" [] = Raise (ValueError msg_uloss).
Proof.
  split.
  - apply (proj1 (uloss_and_weight_errors toy_nlpsol_new toy "dU" [])). reflexivity.
  - apply (proj1 (proj2 (uloss_and_weight_errors toy_nlpsol_new toy_zero "xyz" []))). reflexivity.
Defined.

Lemma us_error_iff_witness :
  init_RDeePCsolver toy_nlpsol_new toy_zero "uus" [] = Raise (ValueError msg_us).
Proof.
  apply (proj2 (us_error_iff toy_nlpsol_new toy_zero "uus" [])).
  split; [reflexivity |]. split; [vm_compute; reflexivity |].
  split; [vm_compute; discriminate |]. split; [vm_compute; discriminate |].
  vm_compute. reflexivity.
Defined.

(** C10 fails as stated: the system [toy_bad] gives two lower bounds and
    one upper bound for its one constrained component; construction and
    formulation both succeed, and the object then stores 6 lower bounds and
    4 upper bounds for a stack of 4 rows. *)
Lemma bound_lengths_counterexample :
  is_ok (toy_init 1 toy_bad_bd) = true /\
  exists self',
    init_DeePCsolver toy_nlpsol_new toy_bad "u" [] = Ok self' /\
    bound_lengths self' = Some (6, 4)%nat /\
    stack_rows self' = Ok 4%nat.
Proof.
  split; [vm_compute; reflexivity |].
  exists (constructed (init_DeePCsolver toy_nlpsol_new toy_bad "u" [])). split; [| split].
  - apply is_ok_constructed. vm_compute. reflexivity.
  - vm_compute. reflexivity.
  - vm_compute. reflexivity.
Qed.

Lemma robust_u_objective_witness :
  exists prob,
    solver (constructed (init_RDeePCsolver toy_nlpsol_new toy "u" [])) = Some prob /\
    nlp_f prob (col [1; 2; 0; 0; -1; 0]) (col [1]) (col [2])
    = Ok (mk_nd 1 [[Q2Qc (21 # 2)]]).
Proof.
  assert (HI : __init__ 1 1 8 1 2 (col [0]) toy_ud toy_yd (eye 2) (eye 2)
                 (Some (col [1])) (Some (eye 6)) (Some (eye 1)) (Some toy_idx)
                 (Some toy_bd) = Ok toy)
    by (apply is_ok_constructed; vm_compute; reflexivity).
  assert (RI : rect_inputs (col [0]) toy_ud toy_yd (eye 2) (eye 2)
                 (Some (col [1])) (Some (eye 6)) (Some (eye 1)) = true)
    by (vm_compute; reflexivity).
  assert (E : init_RDeePCsolver toy_nlpsol_new toy "u" []
              = Ok (constructed (init_RDeePCsolver toy_nlpsol_new toy "u" [])))
    by (apply is_ok_constructed; vm_compute; reflexivity).
  destruct (robust_u_objective toy_nlpsol_new _ _ _ _ _ _ _ _ _ _ _ _ _ _ _
              toy _ [] HI RI E) as [prob [lg [ly [Hs [Hlg [Hly Hf]]]]]].
  exists prob. split; [exact Hs |].
  change (col [1; 2; 0; 0; -1; 0]) with (colv (map qz [1; 2; 0; 0; -1; 0])).
  change (col [2]) with (colv (map qz [2])).
  rewrite Hf by (vm_compute; reflexivity).
  assert (L1 : Some lg = Some (eye 6)) by (rewrite <- Hlg; vm_compute; reflexivity).
  assert (L2 : Some ly = Some (eye 1)) by (rewrite <- Hly; vm_compute; reflexivity).
  inversion L1. inversion L2. subst lg ly.
  apply scalar_eq. vm_compute. reflexivity.
Defined.

Lemma du_objective_witness :
  exists prob,
    solver (constructed (init_DeePCsolver toy_nlpsol_new toy "du" [])) = Some prob /\
    nlp_f prob (col [1; 2; 0; 0; -1; 0]) (col [1]) (col [2])
    = Ok (mk_nd 1 [[qz 11]]).
Proof.
  assert (HI : __init__ 1 1 8 1 2 (col [0]) toy_ud toy_yd (eye 2) (eye 2)
                 (Some (col [1])) (Some (eye 6)) (Some (eye 1)) (Some toy_idx)
                 (Some toy_bd) = Ok toy)
    by (apply is_ok_constructed; vm_compute; reflexivity).
  assert (RI : rect_inputs (col [0]) toy_ud toy_yd (eye 2) (eye 2)
                 (Some (col [1])) (Some (eye 6)) (Some (eye 1)) = true)
    by (vm_compute; reflexivity).
  assert (K : 0 < u_dim toy) by (vm_compute; reflexivity).
  assert (E : init_DeePCsolver toy_nlpsol_new toy "du" []
              = Ok (constructed (init_DeePCsolver toy_nlpsol_new toy "du" [])))
    by (apply is_ok_constructed; vm_compute; reflexivity).
  destruct (du_objective toy_nlpsol_new _ _ _ _ _ _ _ _ _ _ _ _ _ _ _
              toy _ [] HI RI K E) as [prob [Hs Hf]].
  exists prob. split; [exact Hs |].
  change (col [1; 2; 0; 0; -1; 0]) with (colv (map qz [1; 2; 0; 0; -1; 0])).
  change (col [1]) with (colv (map qz [1])).
  rewrite Hf by (vm_compute; reflexivity).
  apply scalar_eq. vm_compute. reflexivity.
Defined.

Lemma equality_block_witness :
  (exists prob,
     solver (constructed (init_DeePCsolver toy_nlpsol_new toy "u" [])) = Some prob /\
     nlp_g prob (col [1; 2; 0; 0; -1; 0]) (col [1]) (col [2])
     = Ok (col [1; -2; 1; 2]) /\
     lbc (constructed (init_DeePCsolver toy_nlpsol_new toy "u" []))
     = Some (map qz [0; 0; -1; -1]) /\
     ubc (constructed (init_DeePCsolver toy_nlpsol_new toy "u" []))
     = Some (map qz [0; 0; 1; 1])) /\
  (exists prob,
     solver (constructed (init_RDeePCsolver toy_nlpsol_new toy "u" [])) = Some prob /\
     nlp_g prob (col [1; 2; 0; 0; -1; 0]) (col [1]) (col [2])
     = Ok (col [1; 1; 2]) /\
     lbc (constructed (init_RDeePCsolver toy_nlpsol_new toy "u" []))
     = Some (map qz [0; -1; -1]) /\
     ubc (constructed (init_RDeePCsolver toy_nlpsol_new toy "u" []))
     = Some (map qz [0; 1; 1])).
Proof.
  split.
  - assert (E : init_DeePCsolver toy_nlpsol_new toy "u" []
                = Ok (constructed (init_DeePCsolver toy_nlpsol_new toy "u" [])))
      by (apply is_ok_constructed; vm_compute; reflexivity).
    destruct (proj1 (equality_block toy_nlpsol_new toy _ "u" []) E)
      as [prob [a [Hs [Ha [Hl [Hu Hg]]]]]].
    exists prob. split; [exact Hs |].
    assert (EA : HcArray a = Hc toy) by (symmetry; exact Ha).
    vm_compute in EA. inversion EA as [EA']. clear EA. subst a.
    split; [| split].
    + change (col [1; 2; 0; 0; -1; 0]) with (colv (map qz [1; 2; 0; 0; -1; 0])).
      change (col [1]) with (colv (map qz [1])).
      change (col [2]) with (colv (map qz [2])).
      change (col [1; -2; 1; 2]) with (colv (map qz [1; -2; 1; 2])).
      destruct (Hg (map qz [1; 2; 0; 0; -1; 0]) (map qz [1]) (map qz [2]))
        as [Hv _]; try (vm_compute; reflexivity).
      rewrite Hv. apply f_equal. apply (f_equal colv).
      apply qlist_eq; vm_compute; reflexivity.
    + rewrite Hl. apply f_equal. apply qlist_eq; vm_compute; reflexivity.
    + rewrite Hu. apply f_equal. apply qlist_eq; vm_compute; reflexivity.
  - assert (E : init_RDeePCsolver toy_nlpsol_new toy "u" []
                = Ok (constructed (init_RDeePCsolver toy_nlpsol_new toy "u" [])))
      by (apply is_ok_constructed; vm_compute; reflexivity).
    destruct (proj2 (equality_block toy_nlpsol_new toy _ "u" []) E)
      as [prob [a [Hs [Ha [Hl [Hu Hg]]]]]].
    exists prob. split; [exact Hs |].
    assert (EA : HcArray a = Hc toy) by (symmetry; exact Ha).
    vm_compute in EA. inversion EA as [EA']. clear EA. subst a.
    split; [| split].
    + change (col [1; 2; 0; 0; -1; 0]) with (colv (map qz [1; 2; 0; 0; -1; 0])).
      change (col [1]) with (colv (map qz [1])).
      change (col [2]) with (colv (map qz [2])).
      change (col [1; 1; 2]) with (colv (map qz [1; 1; 2])).
      destruct (Hg (map qz [1; 2; 0; 0; -1; 0]) (map qz [1]) (map qz [2]))
        as [Hv _]; try (vm_compute; reflexivity).
      rewrite Hv. apply f_equal. apply (f_equal colv).
      apply qlist_eq; vm_compute; reflexivity.
    + rewrite Hl. apply f_equal. apply qlist_eq; vm_compute; reflexivity.
    + rewrite Hu. apply f_equal. apply qlist_eq; vm_compute; reflexivity.
Defined.

Lemma standard_qp_objective_witness :
  (exists prob,
     solver (constructed (init_DeePCsolver toy_nlpsol_new toy "u" [])) = Some prob /\
     nlp_f prob (col [1; 2; 0; 0; -1; 0]) (col [1]) (col [2])
     = Ok (mk_nd 1 [[Q2Qc (15 # 2)]])) /\
  (exists prob,
     solver (constructed (init_DeePCsolver toy_nlpsol_new toy "uus" [])) = Some prob /\
     nlp_f prob (col [1; 2; 0; 0; -1; 0]) (col [1]) (col [2])
     = Ok (mk_nd 1 [[Q2Qc (9 # 2)]])).
Proof.
  assert (HI : __init__ 1 1 8 1 2 (col [0]) toy_ud toy_yd (eye 2) (eye 2)
                 (Some (col [1])) (Some (eye 6)) (Some (eye 1)) (Some toy_idx)
                 (Some toy_bd) = Ok toy)
    by (apply is_ok_constructed; vm_compute; reflexivity).
  assert (RI : rect_inputs (col [0]) toy_ud toy_yd (eye 2) (eye 2)
                 (Some (col [1])) (Some (eye 6)) (Some (eye 1)) = true)
    by (vm_compute; reflexivity).
  split.
  - assert (E : init_DeePCsolver toy_nlpsol_new toy "u" []
                = Ok (constructed (init_DeePCsolver toy_nlpsol_new toy "u" [])))
      by (apply is_ok_constructed; vm_compute; reflexivity).
    destruct (proj1 (standard_qp_objective toy_nlpsol_new _ _ _ _ _ _ _ _ _ _ _ _ _
                       _ _ toy _ [] HI RI) E) as [prob [Hs Hf]].
    exists prob. split; [exact Hs |].
    change (col [1; 2; 0; 0; -1; 0]) with (colv (map qz [1; 2; 0; 0; -1; 0])).
    rewrite Hf by (vm_compute; reflexivity).
    apply scalar_eq. vm_compute. reflexivity.
  - assert (E : init_DeePCsolver toy_nlpsol_new toy "uus" []
                = Ok (constructed (init_DeePCsolver toy_nlpsol_new toy "uus" [])))
      by (apply is_ok_constructed; vm_compute; reflexivity).
    destruct (proj2 (standard_qp_objective toy_nlpsol_new _ _ _ _ _ _ _ _ _ _ _ _ _
                       _ _ toy _ [] HI RI) E) as [prob [r [Hs [Hr Hf]]]].
    exists prob. split; [exact Hs |].
    change (col [1; 2; 0; 0; -1; 0]) with (colv (map qz [1; 2; 0; 0; -1; 0])).
    rewrite Hf by (vm_compute; reflexivity).
    assert (ER : Some r = uref toy) by (symmetry; exact Hr).
    vm_compute in ER. inversion ER as [ER']. clear ER. subst r.
    apply scalar_eq. vm_compute. reflexivity.
Defined.

Lemma robust_du_objective_witness :
  exists prob,
    solver (constructed (init_RDeePCsolver toy_nlpsol_new toy "du" [])) = Some prob /\
    nlp_f prob (col [1; 2; 0; 0; -1; 0]) (col [1]) (col [2])
    = Ok (mk_nd 1 [[qz 21]]).
Proof.
  assert (HI : __init__ 1 1 8 1 2 (col [0]) toy_ud toy_yd (eye 2) (eye 2)
                 (Some (col [1])) (Some (eye 6)) (Some (eye 1)) (Some toy_idx)
                 (Some toy_bd) = Ok toy)
    by (apply is_ok_constructed; vm_compute; reflexivity).
  assert (RI : rect_inputs (col [0]) toy_ud toy_yd (eye 2) (eye 2)
                 (Some (col [1])) (Some (eye 6)) (Some (eye 1)) = true)
    by (vm_compute; reflexivity).
  assert (K : 0 < u_dim toy) by (vm_compute; reflexivity).
  assert (E : init_RDeePCsolver toy_nlpsol_new toy "du" []
              = Ok (constructed (init_RDeePCsolver toy_nlpsol_new toy "du" [])))
    by (apply is_ok_constructed; vm_compute; reflexivity).
  destruct (robust_du_objective toy_nlpsol_new _ _ _ _ _ _ _ _ _ _ _ _ _ _ _
              toy _ [] HI RI K E) as [prob [lg [ly [Hs [Hlg [Hly Hf]]]]]].
  exists prob. split; [exact Hs |].
  change (col [1; 2; 0; 0; -1; 0]) with (colv (map qz [1; 2; 0; 0; -1; 0])).
  change (col [1]) with (colv (map qz [1])).
  change (col [2]) with (colv (map qz [2])).
  rewrite Hf by (vm_compute; reflexivity).
  assert (L1 : Some lg = Some (eye 6)) by (rewrite <- Hlg; vm_compute; reflexivity).
  assert (L2 : Some ly = Some (eye 1)) by (rewrite <- Hly; vm_compute; reflexivity).
  inversion L1. inversion L2. subst lg ly.
  apply scalar_eq. vm_compute. reflexivity.
Defined.

Lemma solver_step_spec_witness :
  solver_step toy_pinv toy_nlpsol 0%Qc 1%Qc
    (constructed (init_DeePCsolver toy_nlpsol_new toy "u" [])) (col [1]) (col [2])
  = Ok (map qz [56; 69], map qz [3; 8; 6; 9; 17; 17], (1 - 0)%Qc).
Proof.
  assert (E : init_DeePCsolver toy_nlpsol_new toy "u" []
              = Ok (constructed (init_DeePCsolver toy_nlpsol_new toy "u" [])))
    by (apply is_ok_constructed; vm_compute; reflexivity).
  destruct (init_DeePCsolver_Ok toy_nlpsol_new toy _ "u" [] E) as [obj [_ [_ Es]]].
  change (col [1]) with (colv (map qz [1])).
  change (col [2]) with (colv (map qz [2])).
  apply (proj2 (proj1 (solver_step_spec toy_pinv toy_nlpsol 0%Qc 1%Qc
                         (constructed (init_DeePCsolver toy_nlpsol_new toy "u" []))
                         (map qz [1]) (map qz [2])) _ _ _)).
  split; [vm_compute; reflexivity |]. split; [vm_compute; reflexivity |].
  eexists. eexists.
  split; [rewrite Es at 1; reflexivity |].
  split; [reflexivity |].
  split; [apply qlist_eq; vm_compute; reflexivity |].
  split; [vm_compute; reflexivity |].
  split; [apply qlist_eq; vm_compute; reflexivity | reflexivity].
Defined.
